(** * manaxclient: the SSE frame reader and the two stream drivers

    A shallow embedding of the Go package [manaxclient]:
    - [sseReader.ReadEvent]   (sse.go, the frame reader),
    - [Client.StreamFacts]    (facts_stream.go),
    - [Client.StreamMatches]  (matches_stream.go),
    - [Client.doJSON] and the [APIError] block the three of them share.

    Go strings and byte slices are byte sequences: both are [string] here
    (a [nil] slice and an empty one are the same to [len], the only way
    the code looks at them).  Integers are [Z].  The standard library
    calls the code makes ([json.Unmarshal], the HTTP round trip, URL and
    number formatting) are the parameters of the sections below. *)

From Equations Require Import Equations.
From Stdlib Require Import String Ascii List ZArith Lia Bool Arith Floats DecimalString.
Import ListNotations.

Local Open Scope string_scope.
Local Open Scope Z_scope.

Set Implicit Arguments.

(* ===================================================================== *)
(** ** The parts of package [strings] the client uses *)
(* ===================================================================== *)

Module strings.

Definition LF : ascii := Ascii.ascii_of_nat 10.
Definition CR : ascii := Ascii.ascii_of_nat 13.

Definition isEmpty (s : string) : bool :=
  match s with EmptyString => true | String _ _ => false end.

(** [bytes.IndexByte] on the cutset of [TrimRight]. *)
Fixpoint inCutset (cutset : string) (c : ascii) : bool :=
  match cutset with
  | EmptyString => false
  | String a rest => Ascii.eqb a c || inCutset rest c
  end.

(** [strings.TrimRight(s, cutset)] for a cutset of ASCII bytes: the
    longest suffix made of bytes of the cutset is removed. *)
Fixpoint TrimRight (s cutset : string) : string :=
  match s with
  | EmptyString => EmptyString
  | String c rest =>
      let t := TrimRight rest cutset in
      if isEmpty t && inCutset cutset c then EmptyString else String c t
  end.

(** [strings.HasPrefix]. *)
Fixpoint HasPrefix (s prefix : string) : bool :=
  match prefix, s with
  | EmptyString, _ => true
  | String p prefix', String c s' => Ascii.eqb c p && HasPrefix s' prefix'
  | String _ _, EmptyString => false
  end.

(** [strings.IndexByte]: index of the first [c] in [s], or -1. *)
Fixpoint IndexByte (s : string) (c : ascii) : Z :=
  match s with
  | EmptyString => -1
  | String a rest =>
      if Ascii.eqb a c then 0
      else let i := IndexByte rest c in if i <? 0 then -1 else i + 1
  end.

(** The slice expressions [s[i:]] and [s[:i]]; the client only writes
    them with [0 <= i <= len(s)]. *)
Fixpoint sliceFrom (s : string) (i : nat) {struct i} : string :=
  match i, s with
  | O, _ => s
  | S i', String _ rest => sliceFrom rest i'
  | S _, EmptyString => EmptyString
  end.

Fixpoint sliceTo (s : string) (i : nat) {struct i} : string :=
  match i, s with
  | O, _ => EmptyString
  | S i', String c rest => String c (sliceTo rest i')
  | S _, EmptyString => EmptyString
  end.

(** The [asciiSpace] table: tab, LF, VT, FF, CR and space. *)
Definition asciiSpace (c : ascii) : bool :=
  let n := Ascii.nat_of_ascii c in
  ((9 <=? n) && (n <=? 13))%nat || (n =? 32)%nat.

Definition byteIs (c : ascii) (n : nat) : bool :=
  (Ascii.nat_of_ascii c =? n)%nat.

(** [unicode.IsSpace] on a rune read from UTF-8: when [s] starts with the
    encoding of a white space rune, the rest of [s] after it.  Beyond
    ASCII these are U+0085, U+00A0, U+1680, U+2000..U+200A, U+2028,
    U+2029, U+202F, U+205F and U+3000. *)
Definition afterSpace (s : string) : option string :=
  match s with
  | EmptyString => None
  | String c0 s1 =>
      if asciiSpace c0 then Some s1 else
      match s1 with
      | EmptyString => None
      | String c1 s2 =>
          if byteIs c0 194 && (byteIs c1 133 || byteIs c1 160) then Some s2 else
          match s2 with
          | EmptyString => None
          | String c2 s3 =>
              let n2 := Ascii.nat_of_ascii c2 in
              if byteIs c0 225 && byteIs c1 154 && byteIs c2 128 then Some s3
              else if byteIs c0 226 && byteIs c1 128 &&
                      (((128 <=? n2) && (n2 <=? 138))%nat
                       || byteIs c2 168 || byteIs c2 169 || byteIs c2 175)
                   then Some s3
              else if byteIs c0 226 && byteIs c1 129 && byteIs c2 159 then Some s3
              else if byteIs c0 227 && byteIs c1 128 && byteIs c2 128 then Some s3
              else None
          end
      end
  end.

(** [TrimLeftFunc(s, unicode.IsSpace)], by the number of bytes left. *)
Fixpoint trimLeftSpace (fuel : nat) (s : string) : string :=
  match fuel with
  | O => s
  | S fuel' =>
      match afterSpace s with
      | Some rest => trimLeftSpace fuel' rest
      | None => s
      end
  end.

Definition TrimLeftSpace (s : string) : string :=
  trimLeftSpace (String.length s) s.

(** [s] is white space from end to end. *)
Definition allSpace (s : string) : bool := isEmpty (TrimLeftSpace s).

(** [TrimRightFunc(s, unicode.IsSpace)]: the longest suffix that is
    white space from end to end is removed. *)
Fixpoint TrimRightSpace (s : string) : string :=
  match s with
  | EmptyString => EmptyString
  | String c rest =>
      if allSpace (String c rest) then EmptyString
      else String c (TrimRightSpace rest)
  end.

(** [strings.TrimSpace]. *)
Definition TrimSpace (s : string) : string :=
  TrimRightSpace (TrimLeftSpace s).

End strings.

(* ===================================================================== *)
(** ** Errors *)
(* ===================================================================== *)

(** [APIError] (client.go): a non-2xx answer of the ApiService. *)
Record APIError : Type := mkAPIError {
  StatusCode : Z;
  Message : string;
  Body : string
}.

(** Go [error] values as the client makes and meets them.
    [Errorf_w prefix e] is [fmt.Errorf(prefix + ": %w", e)], which wraps
    [e]; [Foreign] is any error of a library (network, TLS, ...). *)
Inductive error : Type :=
| io_EOF
| context_Canceled
| context_DeadlineExceeded
| errors_New (msg : string)
| Errorf (msg : string)
| Errorf_w (prefix : string) (e : error)
| ErrAPI (e : APIError)
| Foreign (descr : string).

(** [err == io.EOF]. *)
Definition is_io_EOF (e : error) : bool :=
  match e with io_EOF => true | _ => false end.

(** [errors.Is(err, io.EOF)]: [err] is [io.EOF] or wraps it. *)
Fixpoint errors_Is_EOF (e : error) : bool :=
  match e with
  | io_EOF => true
  | Errorf_w _ e' => errors_Is_EOF e'
  | _ => false
  end.

(* ===================================================================== *)
(** ** sse.go: events and the reader *)
(* ===================================================================== *)

Record SSEEvent : Type := mkSSEEvent {
  Event : string;
  Data : string;
  ID : string;
  Retry : string;
  Comment : string
}.

(** The zero value [var event SSEEvent]. *)
Definition zeroEvent : SSEEvent := mkSSEEvent "" "" "" "" "".

(** The byte source under an [sseReader]: the bytes it still delivers, and
    the error its [Read] returns once they are gone ([io.EOF] for a body
    the server closed, anything else for a broken or cancelled read). *)
Record sseReader : Type := mkReader {
  pending : string;
  closing : error
}.

(** Cut the first line off, with its LF; [None] when there is no LF. *)
Fixpoint cutLine (s : string) : option (string * string) :=
  match s with
  | EmptyString => None
  | String c rest =>
      if Ascii.eqb c strings.LF then Some (String c EmptyString, rest)
      else match cutLine rest with
           | Some (line, rest') => Some (String c line, rest')
           | None => None
           end
  end.

(** [sr.r.ReadString('\n')]: the line up to and including the LF; or what
    was left before the source failed, with the source's error. *)
Definition ReadString (sr : sseReader) : string * option error * sseReader :=
  match cutLine (pending sr) with
  | Some (line, rest) => (line, None, mkReader rest (closing sr))
  | None => (pending sr, Some (closing sr), mkReader "" (closing sr))
  end.

(** The local variables of [ReadEvent]. *)
Record locals : Type := mkLocals {
  event : SSEEvent;
  dataBuf : string;
  hasData : bool;
  hasFields : bool;
  hasLines : bool
}.

Definition initLocals : locals := mkLocals zeroEvent "" false false false.

Definition setEvent (l : locals) (ev : SSEEvent) : locals :=
  mkLocals ev (dataBuf l) (hasData l) (hasFields l) (hasLines l).
Definition setHasFields (l : locals) : locals :=
  mkLocals (event l) (dataBuf l) (hasData l) true (hasLines l).
Definition setHasLines (l : locals) : locals :=
  mkLocals (event l) (dataBuf l) (hasData l) (hasFields l) true.

(** How one turn of the [for] loop ends. *)
Inductive control : Type :=
| Continue (l : locals)
| Break (l : locals).

(** The [switch field] of [ReadEvent]. *)
Definition setField (l : locals) (field value : string) : locals :=
  let ev := event l in
  if String.eqb field "event" then
    setHasFields (setEvent l (mkSSEEvent value (Data ev) (ID ev) (Retry ev) (Comment ev)))
  else if String.eqb field "data" then
    let buf := if negb (strings.isEmpty (dataBuf l))
               then dataBuf l ++ String strings.LF "" else dataBuf l in
    mkLocals ev (buf ++ value) true (hasFields l) (hasLines l)
  else if String.eqb field "id" then
    setHasFields (setEvent l (mkSSEEvent (Event ev) (Data ev) value (Retry ev) (Comment ev)))
  else if String.eqb field "retry" then
    setHasFields (setEvent l (mkSSEEvent (Event ev) (Data ev) (ID ev) value (Comment ev)))
  else l.

(** The field line split: ["name:value"] or ["name"]. *)
Definition splitField (line : string) : string * string :=
  let idx := strings.IndexByte line ":" in
  if idx >=? 0 then
    let field := strings.sliceTo line (Z.to_nat idx) in
    let value := strings.sliceFrom line (Z.to_nat (idx + 1)) in
    match value with
    | String " " value' => (field, value')
    | _ => (field, value)
    end
  else (line, "").

(** The body of the loop after a successful [ReadString]. *)
Definition ReadEvent_line (l : locals) (raw : string) : control :=
  let line := strings.TrimRight raw (String strings.CR (String strings.LF "")) in
  if strings.isEmpty line then
    if negb (hasLines l) then Continue l else Break l
  else
    let l := setHasLines l in
    if strings.HasPrefix line ":" then
      let comment := strings.TrimSpace (strings.sliceFrom line 1) in
      if negb (hasFields l) && negb (hasData l) then
        let ev := event l in
        Continue (setEvent l (mkSSEEvent (Event ev) (Data ev) (ID ev) (Retry ev) comment))
      else Continue l
    else
      let '(field, value) := splitField line in
      Continue (setField l field value).

Lemma cutLine_shorter s line rest :
  cutLine s = Some (line, rest) -> (String.length rest < String.length s)%nat.
Proof.
  revert line rest; induction s as [|c s IH]; intros line rest; simpl.
  - discriminate.
  - destruct (Ascii.eqb c strings.LF).
    + intros [= <- <-]. lia.
    + destruct (cutLine s) as [[l r]|] eqn:E; [|discriminate].
      intros [= <- <-]. specialize (IH _ _ eq_refl). lia.
Qed.

Lemma ReadString_shorter sr line sr' :
  ReadString sr = (line, None, sr') ->
  (String.length (pending sr') < String.length (pending sr))%nat.
Proof.
  unfold ReadString. destruct (cutLine (pending sr)) as [[l r]|] eqn:E.
  - intros [= <- <-]. simpl. eapply cutLine_shorter; eauto.
  - discriminate.
Qed.

(** A value together with the equation that says where it came from; the
    loops below need it to show that the reader moved on. *)
Definition inspect {A : Type} (a : A) : {b : A | a = b} := exist _ a eq_refl.

(** The [for] loop of [ReadEvent]: it leaves by [break] with the locals,
    or by [return nil, err]. *)
Equations? ReadEvent_loop (l : locals) (sr : sseReader)
  : (locals + error) * sseReader by wf (String.length (pending sr)) lt :=
  ReadEvent_loop l sr with inspect (ReadString sr) => {
    | exist _ (_, Some err, sr') _ =>
        if is_io_EOF err && negb (hasLines l) then (inr io_EOF, sr')
        else if is_io_EOF err then (inr io_EOF, sr')
        else (inr err, sr');
    | exist _ (raw, None, sr') Hread with ReadEvent_line l raw => {
        | Continue l' => ReadEvent_loop l' sr';
        | Break l' => (inl l', sr')
      }
  }.
Proof. eapply ReadString_shorter; eauto. Qed.

(** [ReadEvent]: the loop, then the two statements after it. *)
Definition ReadEvent (sr : sseReader)
  : option SSEEvent * option error * sseReader :=
  match ReadEvent_loop initLocals sr with
  | (inr err, sr') => (None, Some err, sr')
  | (inl l, sr') =>
      let ev := event l in
      let ev := if hasData l
                then mkSSEEvent (Event ev) (dataBuf l) (ID ev) (Retry ev) (Comment ev)
                else ev in
      if negb (hasLines l) then (None, Some io_EOF, sr')
      else (Some ev, None, sr')
  end.


(** *** Every frame costs bytes

    The lemmas the dispatch loop needs to end. *)

(** One turn of the loop of [ReadEvent], from the answer of [ReadString]. *)
Definition ReadEvent_turn (l : locals) (p : string * option error * sseReader)
  : (locals + error) * sseReader :=
  match p with
  | (_, Some err, sr') =>
      if is_io_EOF err && negb (hasLines l) then (inr io_EOF, sr')
      else if is_io_EOF err then (inr io_EOF, sr')
      else (inr err, sr')
  | (raw, None, sr') =>
      match ReadEvent_line l raw with
      | Continue l' => ReadEvent_loop l' sr'
      | Break l' => (inl l', sr')
      end
  end.

Lemma ReadEvent_loop_step l sr :
  ReadEvent_loop l sr = ReadEvent_turn l (ReadString sr).
Proof.
  rewrite ReadEvent_loop_equation_1. unfold inspect.
  enough (H : forall p (e : ReadString sr = p),
             ReadEvent_loop_unfold_clause_1 l sr (exist _ p e) = ReadEvent_turn l p)
    by apply H.
  intros [[raw [err|]] sr'] e; simpl.
  - reflexivity.
  - unfold ReadEvent_loop_unfold_clause_1_clause_2.
    destruct (ReadEvent_line l raw); reflexivity.
Qed.

(** A return of the loop without an error has read a line. *)
Lemma ReadEvent_loop_shorter l sr l' sr' :
  ReadEvent_loop l sr = (inl l', sr') ->
  (String.length (pending sr') < String.length (pending sr))%nat.
Proof.
  remember (String.length (pending sr)) as n eqn:Hn.
  revert l sr Hn. induction n as [n IH] using lt_wf_ind. intros l sr Hn.
  rewrite ReadEvent_loop_step.
  destruct (ReadString sr) as [[raw [err|]] sr1] eqn:Hread; simpl.
  - destruct (is_io_EOF err && negb (hasLines l)); [discriminate|].
    destruct (is_io_EOF err); discriminate.
  - apply ReadString_shorter in Hread.
    destruct (ReadEvent_line l raw) as [l1|l1].
    + intros H. apply (IH (String.length (pending sr1))) in H; try lia.
    + intros [= <- <-]. lia.
Qed.

Lemma ReadEvent_shorter sr ev sr' :
  ReadEvent sr = (ev, None, sr') ->
  (String.length (pending sr') < String.length (pending sr))%nat.
Proof.
  unfold ReadEvent.
  destruct (ReadEvent_loop initLocals sr) as [[l|err] sr1] eqn:Hloop.
  - destruct (negb (hasLines l)); [discriminate|].
    intros [= _ <-]. eapply ReadEvent_loop_shorter; eauto.
  - discriminate.
Qed.

(* ===================================================================== *)
(** ** types.go: the payloads of the two feeds *)
(* ===================================================================== *)

(** [time.Time] as an instant: seconds since January 1, year 1, 00:00:00
    UTC, and nanoseconds within the second. *)
Record Time : Type := mkTime { sec : Z; nsec : Z }.

(** [Time.IsZero]. *)
Definition Time_IsZero (t : Time) : bool := (sec t =? 0) && (nsec t =? 0).

(** The zero value [time.Time{}]. *)
Definition zeroTime : Time := mkTime 0 0.

Definition MatchingDirection : Type := string.
Definition MatchingDirectionOffer : MatchingDirection := "Offer".
Definition MatchingDirectionSeek : MatchingDirection := "Seek".

Module FactItem.
Record t : Type := mk {
  ID : Z;
  ProID : string;
  FactText : string;
  FactHash : string;
  Status : string;
  FalseReason : option string;
  CreatedUTC : Time;
  LastSeenUTC : Time;
  UpdatedUTC : Time;
  ReviewStatus : option string;
  ReviewUpdatedUTC : option Time;
  IsWritable : bool
}.
End FactItem.

Module FactsItemsResponse.
Record t : Type := mk {
  ProID : string;
  CursorUpdatedUTC : Time;
  CursorID : Z;
  Items : list FactItem.t
}.
End FactsItemsResponse.

Module MatchItem.
Record t : Type := mk {
  ID : Z;
  ProID : string;
  TargetProID : string;
  Direction : MatchingDirection;
  Score : float;
  Rationale : string;
  ModelID : string;
  CreatedUTC : Time;
  UpdatedUTC : Time
}.
End MatchItem.

Module MatchesUpdatesResponse.
Record t : Type := mk {
  ProID : string;
  Direction : option MatchingDirection;
  CursorUpdatedUTC : Time;
  CursorID : Z;
  Items : list MatchItem.t
}.
End MatchesUpdatesResponse.

(** [type FactsStreamChunk = FactsItemsResponse] and
    [type MatchesStreamChunk = MatchesUpdatesResponse]. *)
Definition FactsStreamChunk : Type := FactsItemsResponse.t.
Definition MatchesStreamChunk : Type := MatchesUpdatesResponse.t.

(** matches_stream.go: the cursor and the options of the matches feed. *)
Record MatchesStreamCursor : Type := mkCursor {
  cursor_UpdatedUTC : Time;
  cursor_ID : Z
}.

Record MatchesStreamOptions : Type := mkOptions {
  opt_Direction : MatchingDirection;
  opt_MinScore : float;
  opt_Limit : Z;
  opt_MinRationaleLength : Z;
  opt_MaxRationaleLength : Z
}.

(* ===================================================================== *)
(** ** HTTP: requests, responses, headers *)
(* ===================================================================== *)

Record URL : Type := mkURL {
  Scheme : string;
  Host : string;
  Path : string;
  RawQuery : string;
  Fragment : string
}.

(** [url.Values] and [http.Header], as the keys were set. *)
Definition Values : Type := list (string * string).
Definition Header : Type := list (string * list string).

Fixpoint Values_Set (q : Values) (key value : string) : Values :=
  match q with
  | [] => [(key, value)]
  | (k, v) :: rest =>
      if String.eqb k key then (key, value) :: rest
      else (k, v) :: Values_Set rest key value
  end.

Fixpoint Header_Set (h : Header) (key value : string) : Header :=
  match h with
  | [] => [(key, [value])]
  | (k, vs) :: rest =>
      if String.eqb k key then (key, [value]) :: rest
      else (k, vs) :: Header_Set rest key value
  end.

Fixpoint Header_Get (h : Header) (key : string) : string :=
  match h with
  | [] => ""
  | (k, vs) :: rest =>
      if String.eqb k key then hd "" vs else Header_Get rest key
  end.

Record Request : Type := mkRequest {
  Method : string;
  ReqURL : URL;
  ReqHeader : Header
}.

(** [http.Response]: [resp.StatusCode], [resp.Status] and the body, a byte
    source like the one under the frame reader. *)
Record Response : Type := mkResponse {
  resp_StatusCode : Z;
  resp_Status : string;
  resp_Body : sseReader
}.

(** The first [n] bytes of [s], at most. *)
Fixpoint limitBytes (s : string) (n : Z) : string :=
  match s with
  | EmptyString => EmptyString
  | String c rest => if n <=? 0 then EmptyString else String c (limitBytes rest (n - 1))
  end.

(** [io.ReadAll(body)]: all the bytes, and the source's error unless it is
    [io.EOF]. *)
Definition io_ReadAll (body : sseReader) : string * option error :=
  (pending body, if is_io_EOF (closing body) then None else Some (closing body)).

(** [io.ReadAll(io.LimitReader(body, n))]: the limit reader ends the read
    after [n] bytes without asking the source for more. *)
Definition io_ReadAll_Limit (body : sseReader) (n : Z) : string * option error :=
  if Z.of_nat (String.length (pending body)) >=? n
  then (limitBytes (pending body) n, None)
  else io_ReadAll body.

(** What one run of a driver did, in order: the request it sent, the
    chunks it gave to the handler, the closing of the response body. *)
Inductive Effect (Chunk : Type) : Type :=
| Sent (req : Request)
| Handled (chunk : Chunk)
| Closed.
Arguments Sent {Chunk} req.
Arguments Handled {Chunk} chunk.
Arguments Closed {Chunk}.

Definition quote : string := String (Ascii.ascii_of_nat 34) "".

(** JSON text is written with [quote] for the double quote. *)
Definition quoted (s : string) : string := quote ++ s ++ quote.

(* ===================================================================== *)
(** ** client.go, facts_stream.go, matches_stream.go *)
(* ===================================================================== *)

Section Client.

(** Everything of the caller that a run can touch: what the handler closes
    over, and whether the context was cancelled. *)
Variable World : Type.

(** [context.Context], as far as the client asks it: [ctx.Err()]. *)
Definition Context : Type := World -> option error.

(** The round trip of an [*http.Client]: [Do(req)]. *)
Definition RoundTrip : Type := Request -> World -> error + Response.

Record Client : Type := mkClient {
  baseURL : option URL;
  httpClient : option RoundTrip;
  proID : string;
  proToken : string
}.

(** Standard library calls the client makes. *)
Variable http_DefaultClient : RoundTrip.
Variable path_Join : string -> string -> string.
Variable Values_Encode : Values -> string.
Variable http_NewRequestWithContext : string -> URL -> error + Request.
Variable time_Format_RFC3339 : Time -> string.
Variable strconv_FormatFloat : float -> string.

(** [json.Unmarshal(data, &payload)] into [struct { Error string }]: the
    value of [payload.Error] afterwards (empty when the body is not JSON or
    has no string [error] member; the returned error is dropped). *)
Variable json_Unmarshal_Error : string -> string.

(** [strconv.FormatInt(i, 10)] and [strconv.Itoa]. *)
Definition strconv_FormatInt (i : Z) : string :=
  NilZero.string_of_int (Z.to_int i).

Definition HTTPClient (c : Client) : RoundTrip :=
  match httpClient c with
  | Some h => h
  | None => http_DefaultClient
  end.

(** [ctx.Err()]; the drivers ask it only after [newRequest] has refused a
    nil context. *)
Definition ctx_Err (ctx : option Context) (w : World) : option error :=
  match ctx with
  | Some cx => cx w
  | None => None
  end.

Definition newRequest (c : Client) (ctx : option Context)
    (method pathOrEndpoint : string) (query : option Values)
  : error + Request :=
  match ctx with
  | None => inl (errors_New "ctx must not be nil")
  | Some _ =>
      match baseURL c with
      | None => inl (errors_New "client baseURL is not initialized")
      | Some base =>
          let relPath := strings.TrimSpace pathOrEndpoint in
          let relPath := if negb (strings.HasPrefix relPath "/")
                         then "/" ++ relPath else relPath in
          let p := strings.TrimRight (Path base) "/" in
          let p := path_Join p relPath in
          let rawQuery := match query with
                          | Some q => Values_Encode q
                          | None => RawQuery base
                          end in
          let u := mkURL (Scheme base) (Host base) p rawQuery (Fragment base) in
          match http_NewRequestWithContext method u with
          | inl err => inl (Errorf_w "create request" err)
          | inr req => inr req
          end
      end
  end.

Definition applyHeaders (c : Client) (req : Request) (extra : Header) : Request :=
  let merged := extra in
  let merged := if negb (strings.isEmpty (proID c))
                then Header_Set merged "X-Pro-Id" (proID c) else merged in
  let merged := if negb (strings.isEmpty (proToken c))
                then Header_Set merged "X-Pro-Token" (proToken c) else merged in
  let merged := if strings.isEmpty (Header_Get merged "Accept")
                then Header_Set merged "Accept" "application/json" else merged in
  mkRequest (Method req) (ReqURL req) merged.

(** The block that [doJSON], [StreamFacts] and [StreamMatches] each run on
    a status outside 200..299 (the same statements in the three). *)
Definition apiError (resp : Response) (data : string) : APIError :=
  let payload_Error := json_Unmarshal_Error data in
  let msg := strings.TrimSpace payload_Error in
  let msg := if strings.isEmpty msg && (0 <? Z.of_nat (String.length data))
             then strings.TrimSpace data else msg in
  let msg := if strings.isEmpty msg then resp_Status resp else msg in
  mkAPIError (resp_StatusCode resp) msg data.

(** [resp.StatusCode < 200 || resp.StatusCode >= 300]. *)
Definition notSuccess (resp : Response) : bool :=
  (resp_StatusCode resp <? 200) || (resp_StatusCode resp >=? 300).

(** [doJSON(req, v)], where [v] says whether the pointer [v] is not nil:
    the error returned, and the value decoded into [*v] if any.  (The body
    is closed on every way out, which this function does not show.) *)
Definition doJSON (T : Type) (json_Unmarshal : string -> error + T)
    (c : Client) (w : World) (req : Request) (v : bool)
  : option error * option T :=
  match HTTPClient c req w with
  | inl err => (Some (Errorf_w "http request failed" err), None)
  | inr resp =>
      match io_ReadAll (resp_Body resp) with
      | (_, Some err) => (Some (Errorf_w "read response body" err), None)
      | (data, None) =>
          if notSuccess resp then (Some (ErrAPI (apiError resp data)), None)
          else if negb v || (Z.of_nat (String.length data) =? 0) then (None, None)
          else match json_Unmarshal data with
               | inl err => (Some (Errorf_w "decode JSON response" err), None)
               | inr x => (None, Some x)
               end
      end
  end.

(** *** The dispatch loop

    The [for] loops of [StreamFacts] and [StreamMatches] are the same
    statements up to the name of the function, the name of the event and
    the chunk type, which are the variables here. *)
Section Dispatch.

Variable Chunk : Type.
Variable who : string.        (* "StreamFacts" or "StreamMatches" *)
Variable feed : string.       (* "facts" or "matches" *)
Variable json_Unmarshal : string -> error + Chunk.
Variable ctx : option Context.
Variable handler : World -> Chunk -> World * option error.

(** What the loop did: the chunks handed to the handler in order, the
    caller's world and the reader at the end, and the returned error. *)
Record Run : Type := mkRun {
  calls : list Chunk;
  world : World;
  reader : sseReader;
  result : option error
}.

Definition after (chunk : Chunk) (r : Run) : Run :=
  mkRun (chunk :: calls r) (world r) (reader r) (result r).

Definition commentOnly (ev : SSEEvent) : bool :=
  negb (strings.isEmpty (Comment ev)) && strings.isEmpty (Event ev)
  && (Z.of_nat (String.length (Data ev)) =? 0).

Definition otherEvent (ev : SSEEvent) : bool :=
  negb (strings.isEmpty (Event ev)) && negb (String.eqb (Event ev) feed).

Definition errEmptyPayload : error :=
  Errorf (who ++ ": received event " ++ quote ++ feed ++ quote
          ++ " with empty data payload").

Equations? dispatch (w : World) (sr : sseReader) : Run
  by wf (String.length (pending sr)) lt :=
  dispatch w sr with inspect (ReadEvent sr) => {
    | exist _ (_, Some err, sr') _ =>
        if errors_Is_EOF err then mkRun [] w sr' None
        else match ctx_Err ctx w with
             | Some ctxErr => mkRun [] w sr' (Some ctxErr)
             | None => mkRun [] w sr' (Some (Errorf_w (who ++ ": read SSE event") err))
             end;
    | exist _ (None, None, sr') _ => dispatch w sr';
    | exist _ (Some ev, None, sr') _ =>
        if commentOnly ev then dispatch w sr'
        else if otherEvent ev then dispatch w sr'
        else if Z.of_nat (String.length (Data ev)) =? 0
             then mkRun [] w sr' (Some errEmptyPayload)
        else match json_Unmarshal (Data ev) with
             | inl err =>
                 mkRun [] w sr' (Some (Errorf_w (who ++ ": decode JSON payload") err))
             | inr chunk =>
                 match handler w chunk with
                 | (w', Some err) => mkRun [chunk] w' sr' (Some err)
                 | (w', None) => after chunk (dispatch w' sr')
                 end
             end
  }.
Proof. all: eapply ReadEvent_shorter; eauto. Qed.

(** One turn of the dispatch loop, from the answer of [ReadEvent]. *)
Definition dispatch_turn (w : World)
    (p : option SSEEvent * option error * sseReader) : Run :=
  match p with
  | (_, Some err, sr') =>
      if errors_Is_EOF err then mkRun [] w sr' None
      else match ctx_Err ctx w with
           | Some ctxErr => mkRun [] w sr' (Some ctxErr)
           | None => mkRun [] w sr' (Some (Errorf_w (who ++ ": read SSE event") err))
           end
  | (None, None, sr') => dispatch w sr'
  | (Some ev, None, sr') =>
      if commentOnly ev then dispatch w sr'
      else if otherEvent ev then dispatch w sr'
      else if Z.of_nat (String.length (Data ev)) =? 0
           then mkRun [] w sr' (Some errEmptyPayload)
      else match json_Unmarshal (Data ev) with
           | inl err =>
               mkRun [] w sr' (Some (Errorf_w (who ++ ": decode JSON payload") err))
           | inr chunk =>
               match handler w chunk with
               | (w', Some err) => mkRun [chunk] w' sr' (Some err)
               | (w', None) => after chunk (dispatch w' sr')
               end
           end
  end.

(** Steps 4 to 7 of a turn, for a frame that the two filters let through:
    the empty payload check, the decoding, the handler, the next turn. *)
Definition deliver (w : World) (ev : SSEEvent) (sr' : sseReader) : Run :=
  if Z.of_nat (String.length (Data ev)) =? 0
  then mkRun [] w sr' (Some errEmptyPayload)
  else match json_Unmarshal (Data ev) with
       | inl err =>
           mkRun [] w sr' (Some (Errorf_w (who ++ ": decode JSON payload") err))
       | inr chunk =>
           match handler w chunk with
           | (w', Some err) => mkRun [chunk] w' sr' (Some err)
           | (w', None) => after chunk (dispatch w' sr')
           end
       end.

End Dispatch.

(** What a call of a driver did and returned. *)
Record Outcome (Chunk : Type) : Type := mkOutcome {
  effects : list (Effect Chunk);
  finalWorld : World;
  returned : option error
}.

Definition FactsStreamHandler : Type :=
  World -> FactsStreamChunk -> World * option error.
Definition MatchesStreamHandler : Type :=
  World -> MatchesStreamChunk -> World * option error.

Variable json_Unmarshal_Facts : string -> error + FactsStreamChunk.
Variable json_Unmarshal_Matches : string -> error + MatchesStreamChunk.

Definition StreamFacts (c : Client) (ctx : option Context) (w : World)
    (proID : string) (handler : option FactsStreamHandler)
  : Outcome FactsStreamChunk :=
  let proID := strings.TrimSpace proID in
  if strings.isEmpty proID then
    mkOutcome [] w (Some (errors_New "StreamFacts: proID must not be empty"))
  else match handler with
  | None => mkOutcome [] w (Some (errors_New "StreamFacts: handler must not be nil"))
  | Some handler =>
      let q := Values_Set [] "proId" proID in
      match newRequest c ctx "GET" "/api/facts/items/stream" (Some q) with
      | inl err => mkOutcome [] w (Some (Errorf_w "StreamFacts: create request" err))
      | inr req =>
          let h := Header_Set [] "Accept" "text/event-stream" in
          let req := applyHeaders c req h in
          match HTTPClient c req w with
          | inl err =>
              match ctx_Err ctx w with
              | Some ctxErr => mkOutcome [Sent req] w (Some ctxErr)
              | None =>
                  mkOutcome [Sent req] w
                    (Some (Errorf_w "StreamFacts: http request failed" err))
              end
          | inr resp =>
              (* defer resp.Body.Close() *)
              if notSuccess resp then
                let '(data, _) := io_ReadAll_Limit (resp_Body resp) (64 * 1024) in
                mkOutcome [Sent req; Closed] w (Some (ErrAPI (apiError resp data)))
              else
                let r := dispatch "StreamFacts" "facts" json_Unmarshal_Facts
                           ctx handler w (resp_Body resp) in
                mkOutcome (Sent req :: map Handled (calls r) ++ [Closed])
                  (world r) (result r)
          end
      end
  end.

Definition StreamMatches (c : Client) (ctx : option Context) (w : World)
    (proID : string) (cursor : MatchesStreamCursor) (opt : MatchesStreamOptions)
    (handler : option MatchesStreamHandler)
  : Outcome MatchesStreamChunk :=
  let proID := strings.TrimSpace proID in
  if strings.isEmpty proID then
    mkOutcome [] w (Some (errors_New "StreamMatches: proID must not be empty"))
  else match handler with
  | None => mkOutcome [] w (Some (errors_New "StreamMatches: handler must not be nil"))
  | Some handler =>
      if strings.isEmpty (opt_Direction opt) then
        mkOutcome [] w (Some (errors_New "StreamMatches: Direction must not be empty"))
      else if cursor_ID cursor <? 0 then
        mkOutcome [] w (Some (errors_New "StreamMatches: cursor.ID must be >= 0"))
      else
      let q := Values_Set [] "proId" proID in
      if Time_IsZero (cursor_UpdatedUTC cursor) then
        mkOutcome [] w
          (Some (errors_New "StreamMatches: cursor.UpdatedUTC must not be zero"))
      else
      let q := Values_Set q "sinceUpdatedUtc"
                 (time_Format_RFC3339 (cursor_UpdatedUTC cursor)) in
      let q := Values_Set q "sinceId" (strconv_FormatInt (cursor_ID cursor)) in
      let q := Values_Set q "direction" (opt_Direction opt) in
      let q := if PrimFloat.ltb PrimFloat.zero (opt_MinScore opt)
               then Values_Set q "minScore" (strconv_FormatFloat (opt_MinScore opt))
               else q in
      let q := if opt_Limit opt >? 0
               then Values_Set q "limit" (strconv_FormatInt (opt_Limit opt)) else q in
      let q := if opt_MinRationaleLength opt >? 0
               then Values_Set q "minRationaleLength"
                      (strconv_FormatInt (opt_MinRationaleLength opt))
               else q in
      let q := if opt_MaxRationaleLength opt >? 0
               then Values_Set q "maxRationaleLength"
                      (strconv_FormatInt (opt_MaxRationaleLength opt))
               else q in
      match newRequest c ctx "GET" "/api/matches/items/stream" (Some q) with
      | inl err => mkOutcome [] w (Some (Errorf_w "StreamMatches: create request" err))
      | inr req =>
          let h := Header_Set [] "Accept" "text/event-stream" in
          let req := applyHeaders c req h in
          match HTTPClient c req w with
          | inl err =>
              match ctx_Err ctx w with
              | Some ctxErr => mkOutcome [Sent req] w (Some ctxErr)
              | None =>
                  mkOutcome [Sent req] w
                    (Some (Errorf_w "StreamMatches: http request failed" err))
              end
          | inr resp =>
              (* defer resp.Body.Close() *)
              if notSuccess resp then
                let '(data, _) := io_ReadAll_Limit (resp_Body resp) (64 * 1024) in
                mkOutcome [Sent req; Closed] w (Some (ErrAPI (apiError resp data)))
              else
                let r := dispatch "StreamMatches" "matches" json_Unmarshal_Matches
                           ctx handler w (resp_Body resp) in
                mkOutcome (Sent req :: map Handled (calls r) ++ [Closed])
                  (world r) (result r)
          end
      end
  end.

End Client.

(* ===================================================================== *)
(** ** types.go and client.go: the constructor and the calls that answer
       with one JSON document *)
(* ===================================================================== *)

Module CreateProWalletResponse.
Record t : Type := mk {
  ProID : string;
  Token : string;
  Mnemonic24 : string;
  CreatedUTC : Time
}.
Definition zero : t := mk "" "" "" zeroTime.
End CreateProWalletResponse.

Module VerifyProWalletResponse.
Record t : Type := mk {
  ProID : string;
  Valid : bool
}.
Definition zero : t := mk "" false.
End VerifyProWalletResponse.

Module SpeechStatusResponse.
Record t : Type := mk {
  Ok : bool;
  Found : bool;
  ID : option Z;
  ProID : string;
  SessionID : string;
  ChunkIndex : Z;
  AsrStatus : string;
  AsrError : option string;
  Transcript : string;
  DurationSec : option float;
  AudioSha256 : option string
}.
Definition zero : t := mk false false None "" "" 0 "" None "" None None.
End SpeechStatusResponse.

Module FactsUpdatesResponse.
Record t : Type := mk {
  ProID : string;
  CursorUpdatedUTC : Time;
  CursorID : Z;
  Items : list FactItem.t
}.
Definition zero : t := mk "" zeroTime 0 [].
End FactsUpdatesResponse.

Module MatchesItemsResponse.
Record t : Type := mk {
  ProID : string;
  Direction : MatchingDirection;
  CursorUpdatedUTC : Time;
  CursorID : Z;
  Items : list MatchItem.t
}.
Definition zero : t := mk "" "" zeroTime 0 [].
End MatchesItemsResponse.

(** The zero values [var out FactsItemsResponse] and
    [var out MatchesUpdatesResponse]. *)
Definition zeroFactsItemsResponse : FactsItemsResponse.t :=
  FactsItemsResponse.mk "" zeroTime 0 [].
Definition zeroMatchesUpdatesResponse : MatchesUpdatesResponse.t :=
  MatchesUpdatesResponse.mk "" None zeroTime 0 [].

Section Rest.

Variable World : Type.

Variable http_DefaultClient : RoundTrip World.
Variable path_Join : string -> string -> string.
Variable Values_Encode : Values -> string.
Variable http_NewRequestWithContext : string -> URL -> error + Request.
Variable time_Format_RFC3339 : Time -> string.
Variable strconv_FormatFloat : float -> string.
Variable json_Unmarshal_Error : string -> string.

(** [url.Parse], and [strconv.Quote] for the [%q] of the error texts. *)
Variable url_Parse : string -> error + URL.
Variable strconv_Quote : string -> string.

Definition NewClient (baseURL : string) (httpClient : option (RoundTrip World))
  : error + Client World :=
  let baseURL := strings.TrimSpace baseURL in
  if strings.isEmpty baseURL then inl (errors_New "baseURL must not be empty")
  else match url_Parse baseURL with
  | inl err => inl (Errorf_w ("invalid baseURL " ++ strconv_Quote baseURL) err)
  | inr u =>
      if strings.isEmpty (Scheme u) || strings.isEmpty (Host u) then
        inl (Errorf ("baseURL must include scheme and host: "
                     ++ strconv_Quote baseURL))
      else
        let u := mkURL (Scheme u) (Host u) (Path u) "" "" in
        inr (mkClient (Some u) httpClient "" "")
  end.

Definition SetAuth (c : Client World) (proID proToken : string) : Client World :=
  mkClient (baseURL c) (httpClient c)
    (strings.TrimSpace proID) (strings.TrimSpace proToken).

(** The end of every call below: [var out T], [doJSON(req, &out)], and
    [return &out, nil] or [return nil, err]. *)
Definition answer (T : Type) (zero : T) (r : option error * option T) : error + T :=
  match r with
  | (Some err, _) => inl err
  | (None, Some out) => inr out
  | (None, None) => inr zero
  end.

Local Abbreviation call := (doJSON http_DefaultClient json_Unmarshal_Error).
Local Abbreviation request :=
  (newRequest path_Join Values_Encode http_NewRequestWithContext).

Definition CreateProWallet
    (json_Unmarshal : string -> error + CreateProWalletResponse.t)
    (c : Client World) (ctx : option (Context World)) (w : World)
    (manaxKey : string) : error + CreateProWalletResponse.t :=
  match request c ctx "POST" "/api/crypto/pro-wallet/create" None with
  | inl err => inl err
  | inr req =>
      let h := if negb (strings.isEmpty (strings.TrimSpace manaxKey))
               then Header_Set [] "X-Manax-Key" (strings.TrimSpace manaxKey)
               else [] in
      let req := applyHeaders c req h in
      answer CreateProWalletResponse.zero (call json_Unmarshal c w req true)
  end.

Definition VerifyProWallet
    (json_Unmarshal : string -> error + VerifyProWalletResponse.t)
    (c : Client World) (ctx : option (Context World)) (w : World)
    (proID token : string) : error + VerifyProWalletResponse.t :=
  let proID := strings.TrimSpace proID in
  let token := strings.TrimSpace token in
  if strings.isEmpty proID then inl (errors_New "proID must not be empty")
  else if strings.isEmpty token then inl (errors_New "token must not be empty")
  else
    let q := Values_Set [] "proId" proID in
    let q := Values_Set q "token" token in
    match request c ctx "GET" "/api/crypto/pro-wallet/verify" (Some q) with
    | inl err => inl err
    | inr req =>
        let req := applyHeaders c req [] in
        answer VerifyProWalletResponse.zero (call json_Unmarshal c w req true)
    end.

Definition GetSpeechStatusByID
    (json_Unmarshal : string -> error + SpeechStatusResponse.t)
    (c : Client World) (ctx : option (Context World)) (w : World)
    (id : Z) : error + SpeechStatusResponse.t :=
  if id <=? 0 then inl (errors_New "GetSpeechStatusByID: id must be > 0")
  else
    let q := Values_Set [] "id" (strconv_FormatInt id) in
    match request c ctx "GET" "/api/speech/status" (Some q) with
    | inl err => inl err
    | inr req =>
        let req := applyHeaders c req [] in
        answer SpeechStatusResponse.zero (call json_Unmarshal c w req true)
    end.

Definition GetSpeechStatusByKey
    (json_Unmarshal : string -> error + SpeechStatusResponse.t)
    (c : Client World) (ctx : option (Context World)) (w : World)
    (proID sessionID : string) (chunkIndex : Z) : error + SpeechStatusResponse.t :=
  let sessionID := strings.TrimSpace sessionID in
  if strings.isEmpty sessionID then
    inl (errors_New "GetSpeechStatusByKey: sessionID must not be empty")
  else if chunkIndex <? 0 then
    inl (errors_New "GetSpeechStatusByKey: chunkIndex must be >= 0")
  else
    let q := if negb (strings.isEmpty (strings.TrimSpace proID))
             then Values_Set [] "proId" (strings.TrimSpace proID) else [] in
    let q := Values_Set q "sessionId" sessionID in
    let q := Values_Set q "chunkIndex" (strconv_FormatInt chunkIndex) in
    match request c ctx "GET" "/api/speech/status" (Some q) with
    | inl err => inl err
    | inr req =>
        let req := applyHeaders c req [] in
        answer SpeechStatusResponse.zero (call json_Unmarshal c w req true)
    end.

Definition GetFactsSnapshot
    (json_Unmarshal : string -> error + FactsItemsResponse.t)
    (c : Client World) (ctx : option (Context World)) (w : World)
    (proID : string) (limit : Z) : error + FactsItemsResponse.t :=
  let proID := strings.TrimSpace proID in
  if strings.isEmpty proID then
    inl (errors_New "GetFactsSnapshot: proID must not be empty")
  else
    let q := Values_Set [] "proId" proID in
    let q := if limit >? 0 then Values_Set q "limit" (strconv_FormatInt limit)
             else q in
    match request c ctx "GET" "/api/facts/items/snapshot" (Some q) with
    | inl err => inl err
    | inr req =>
        let req := applyHeaders c req [] in
        answer zeroFactsItemsResponse (call json_Unmarshal c w req true)
    end.

Definition GetFactsUpdates
    (json_Unmarshal : string -> error + FactsUpdatesResponse.t)
    (c : Client World) (ctx : option (Context World)) (w : World)
    (proID : string) (sinceUpdatedUtc : Time) (sinceID limit : Z)
  : error + FactsUpdatesResponse.t :=
  let proID := strings.TrimSpace proID in
  if strings.isEmpty proID then
    inl (errors_New "GetFactsUpdates: proID must not be empty")
  else if sinceID <? 0 then
    inl (errors_New "GetFactsUpdates: sinceID must be >= 0")
  else
    let q := Values_Set [] "proId" proID in
    let q := if negb (Time_IsZero sinceUpdatedUtc)
             then Values_Set q "sinceUpdatedUtc" (time_Format_RFC3339 sinceUpdatedUtc)
             else q in
    let q := Values_Set q "sinceId" (strconv_FormatInt sinceID) in
    let q := if limit >? 0 then Values_Set q "limit" (strconv_FormatInt limit)
             else q in
    match request c ctx "GET" "/api/facts/items/updates" (Some q) with
    | inl err => inl err
    | inr req =>
        let req := applyHeaders c req [] in
        answer FactsUpdatesResponse.zero (call json_Unmarshal c w req true)
    end.

(** The optional filters that the matches calls share. *)
Definition matchFilters (q : Values) (minScore : float)
    (limit minRationaleLength maxRationaleLength : Z) : Values :=
  let q := if PrimFloat.ltb PrimFloat.zero minScore
           then Values_Set q "minScore" (strconv_FormatFloat minScore) else q in
  let q := if limit >? 0 then Values_Set q "limit" (strconv_FormatInt limit)
           else q in
  let q := if minRationaleLength >? 0
           then Values_Set q "minRationaleLength"
                  (strconv_FormatInt minRationaleLength)
           else q in
  if maxRationaleLength >? 0
  then Values_Set q "maxRationaleLength" (strconv_FormatInt maxRationaleLength)
  else q.

Definition GetMatchesSnapshot
    (json_Unmarshal : string -> error + MatchesItemsResponse.t)
    (c : Client World) (ctx : option (Context World)) (w : World)
    (proID : string) (direction : MatchingDirection) (minScore : float)
    (limit minRationaleLength maxRationaleLength : Z)
  : error + MatchesItemsResponse.t :=
  let proID := strings.TrimSpace proID in
  if strings.isEmpty proID then
    inl (errors_New "GetMatchesSnapshot: proID must not be empty")
  else if strings.isEmpty direction then
    inl (errors_New "GetMatchesSnapshot: direction must not be empty")
  else
    let q := Values_Set [] "proId" proID in
    let q := Values_Set q "direction" direction in
    let q := matchFilters q minScore limit minRationaleLength maxRationaleLength in
    match request c ctx "GET" "/api/matches/items/snapshot" (Some q) with
    | inl err => inl err
    | inr req =>
        let req := applyHeaders c req [] in
        answer MatchesItemsResponse.zero (call json_Unmarshal c w req true)
    end.

Definition GetMatchesUpdates
    (json_Unmarshal : string -> error + MatchesUpdatesResponse.t)
    (c : Client World) (ctx : option (Context World)) (w : World)
    (proID : string) (direction : MatchingDirection) (sinceUpdatedUtc : Time)
    (sinceID : Z) (minScore : float)
    (limit minRationaleLength maxRationaleLength : Z)
  : error + MatchesUpdatesResponse.t :=
  let proID := strings.TrimSpace proID in
  if strings.isEmpty proID then
    inl (errors_New "GetMatchesUpdates: proID must not be empty")
  else if sinceID <? 0 then
    inl (errors_New "GetMatchesUpdates: sinceID must be >= 0")
  else
    let q := Values_Set [] "proId" proID in
    let q := if negb (strings.isEmpty direction)
             then Values_Set q "direction" direction else q in
    let q := if negb (Time_IsZero sinceUpdatedUtc)
             then Values_Set q "sinceUpdatedUtc" (time_Format_RFC3339 sinceUpdatedUtc)
             else q in
    let q := Values_Set q "sinceId" (strconv_FormatInt sinceID) in
    let q := matchFilters q minScore limit minRationaleLength maxRationaleLength in
    match request c ctx "GET" "/api/matches/items/updates" (Some q) with
    | inl err => inl err
    | inr req =>
        let req := applyHeaders c req [] in
        answer zeroMatchesUpdatesResponse (call json_Unmarshal c w req true)
    end.

End Rest.

(* ===================================================================== *)
(** ** Wire text *)
(* ===================================================================== *)

Unset Implicit Arguments.

(** A line as it is on the wire: its text and the LF that ends it. *)
Definition nl : string := String strings.LF "".
Definition crlf : string := String strings.CR (String strings.LF "").

Fixpoint wire (lines : list string) : string :=
  match lines with
  | [] => ""
  | line :: rest => line ++ nl ++ wire rest
  end.

(** No LF inside. *)
Fixpoint noLF (s : string) : bool :=
  match s with
  | EmptyString => true
  | String c rest => negb (Ascii.eqb c strings.LF) && noLF rest
  end.

(** The line is empty once its trailing CR and LF are removed. *)
Definition isBlank (line : string) : bool :=
  strings.isEmpty (strings.TrimRight line crlf).

(** The field name [ReadEvent] reads off a line. *)
Definition fieldName (line : string) : string :=
  fst (splitField (strings.TrimRight line crlf)).

(** The value [ReadEvent] reads off a line. *)
Definition fieldValue (line : string) : string :=
  snd (splitField (strings.TrimRight line crlf)).

(** [value[1:]] when [value] starts with a space. *)
Definition stripSpace (value : string) : string :=
  match value with
  | String " " value' => value'
  | _ => value
  end.

(** Strings joined by LF. *)
Fixpoint joinLF (values : list string) : string :=
  match values with
  | [] => ""
  | [v] => v
  | v :: rest => v ++ nl ++ joinLF rest
  end.

(** A frame breaks the invariant of the data model when it has a comment
    together with an event name or data. *)
Definition commentWithFields (ev : SSEEvent) : bool :=
  negb (strings.isEmpty (Comment ev))
  && (negb (strings.isEmpty (Event ev)) || negb (strings.isEmpty (Data ev))).

(** The locals have seen an event, data, id or retry line. *)
Definition fieldsSeen (l : locals) : bool := hasFields l || hasData l.

(** The line, without its line end, starts with a colon. *)
Definition isComment (line : string) : bool :=
  strings.HasPrefix (strings.TrimRight line crlf) ":".

(** The field names that the [switch] of [ReadEvent] has a case for. *)
Definition recognised (field : string) : bool :=
  String.eqb field "event" || String.eqb field "data"
  || String.eqb field "id" || String.eqb field "retry".

(** The locals a turn of the loop of [ReadEvent] ends with. *)
Definition control_locals (c : control) : locals :=
  match c with Continue l => l | Break l => l end.

(** The value of a field line whose text after the colon is [text]: the
    trailing CR are gone with the line end, and one leading space. *)
Definition valueOf (text : string) : string :=
  stripSpace (strings.TrimRight text crlf).

(** What the [data] case does to the buffer. *)
Definition WriteData (buf value : string) : string :=
  (if negb (strings.isEmpty buf) then buf ++ nl else buf) ++ value.

(** The locals after a [data] line. *)
Definition addData (l : locals) (text : string) : locals :=
  mkLocals (event l) (WriteData (dataBuf l) (valueOf text)) true (hasFields l) true.

(** The payload of the scenario of C6. *)
Definition pingPayload : string :=
  "{" ++ quoted "id" ++ ":1," ++ quoted "items" ++ ":[]}".

(** The stream of the scenario of C6: a ping, then one facts event. *)
Definition pingThenFacts : string :=
  wire [": ping"; ""] ++ wire ["event: facts"; "data: " ++ pingPayload; ""].

(** The rule of C8 for the message, in the words of the specification:
    the [error] member if it is there and not empty once trimmed; otherwise
    the trimmed body if the body is not empty; otherwise the status. *)
Definition claimedMessage (errorMember data status : string) : string :=
  if negb (strings.isEmpty (strings.TrimSpace errorMember))
  then strings.TrimSpace errorMember
  else if negb (strings.isEmpty data) then strings.TrimSpace data
  else status.

(** The rule with the second test on the trimmed body. *)
Definition fallbackMessage (errorMember data status : string) : string :=
  if negb (strings.isEmpty (strings.TrimSpace errorMember))
  then strings.TrimSpace errorMember
  else if negb (strings.isEmpty (strings.TrimSpace data)) then strings.TrimSpace data
  else status.

(** The body of the example of C8. *)
Definition badRequestBody : string :=
  "{" ++ quoted "error" ++ ":" ++ quoted "bad request" ++ "}".

(** The locals after the lines of a frame, none of them blank. *)
Definition afterLines (l : locals) (lines : list string) : locals :=
  fold_left (fun l line => control_locals (ReadEvent_line l (line ++ nl))) lines l.

(** The two statements of [ReadEvent] after its loop, for a frame that
    has lines. *)
Definition frameOf (l : locals) : SSEEvent :=
  if hasData l
  then mkSSEEvent (Event (event l)) (dataBuf l) (ID (event l)) (Retry (event l))
         (Comment (event l))
  else event l.

(** The value of the last line of a frame with the field name [name], or
    [init] when there is none. *)
Definition lastField (name : string) (lines : list string) (init : string) : string :=
  fold_left (fun acc line =>
               if String.eqb (fieldName line) name then fieldValue line else acc)
    lines init.

(** The buffer after the [data] lines of a frame were written to it. *)
Definition dataOf (lines : list string) (buf : string) : string :=
  fold_left (fun buf line =>
               if String.eqb (fieldName line) "data"
               then WriteData buf (fieldValue line) else buf)
    lines buf.

(** A stream of frames [event:name / data:text / blank line], one for each
    text. *)
Fixpoint framesOf (name : string) (texts : list string) : string :=
  match texts with
  | [] => ""
  | text :: rest =>
      wire [("event:" ++ name); ("data:" ++ text)] ++ wire [""] ++ framesOf name rest
  end.

(* ===================================================================== *)
(** ** A reader of JSON text, to run the scenarios

    [encoding/json] is not part of the repository: the drivers take
    [json.Unmarshal] as a parameter, and every general statement below
    holds for any decoder.  Where a statement is run on concrete bytes, this
    small reader stands in for it.  It reads objects, arrays, strings with
    the one-letter escapes, integers, [true], [false] and [null]; members
    whose Go type is [time.Time] or [float64] are refused. *)
(* ===================================================================== *)

Module json.

#[warnings="-register-all"]
Inductive value : Type :=
| Null
| Bool (b : bool)
| Number (text : string)
| Str (s : string)
| Array (elements : list value)
| Object (members : list (string * value)).

Definition isWS (c : ascii) : bool :=
  Ascii.eqb c " " || strings.byteIs c 9 || strings.byteIs c 10 || strings.byteIs c 13.

Fixpoint skipWS (s : string) : string :=
  match s with
  | String c rest => if isWS c then skipWS rest else s
  | EmptyString => s
  end.

(** The text of a string after its opening quote: the string and what
    follows the closing quote. *)
Fixpoint readString (s : string) : option (string * string) :=
  match s with
  | EmptyString => None
  | String c rest =>
      if strings.byteIs c 34 then Some ("", rest)
      else if strings.byteIs c 92 then
        match rest with
        | String e rest' =>
            let unescaped :=
              if strings.byteIs e 34 then Some e
              else if strings.byteIs e 92 then Some e
              else if Ascii.eqb e "/" then Some e
              else if Ascii.eqb e "b" then Some (Ascii.ascii_of_nat 8)
              else if Ascii.eqb e "f" then Some (Ascii.ascii_of_nat 12)
              else if Ascii.eqb e "n" then Some (Ascii.ascii_of_nat 10)
              else if Ascii.eqb e "r" then Some (Ascii.ascii_of_nat 13)
              else if Ascii.eqb e "t" then Some (Ascii.ascii_of_nat 9)
              else None in
            match unescaped, readString rest' with
            | Some u, Some (str, after) => Some (String u str, after)
            | _, _ => None
            end
        | EmptyString => None
        end
      else if (Ascii.nat_of_ascii c <? 32)%nat then None
      else match readString rest with
           | Some (str, after) => Some (String c str, after)
           | None => None
           end
  end.

Definition isDigit (c : ascii) : bool :=
  let n := Ascii.nat_of_ascii c in ((48 <=? n) && (n <=? 57))%nat.

Fixpoint readDigits (s : string) : string * string :=
  match s with
  | String c rest =>
      if isDigit c then let '(ds, after) := readDigits rest in (String c ds, after)
      else ("", s)
  | EmptyString => ("", s)
  end.

(** An integer: an optional minus sign and digits. *)
Definition readNumber (s : string) : option (string * string) :=
  match s with
  | String "-" rest =>
      match readDigits rest with
      | (EmptyString, _) => None
      | (ds, after) => Some (String "-" ds, after)
      end
  | _ =>
      match readDigits s with
      | (EmptyString, _) => None
      | (ds, after) => Some (ds, after)
      end
  end.

Definition readLiteral (word : string) (v : value) (s : string)
  : option (value * string) :=
  if strings.HasPrefix s word
  then Some (v, strings.sliceFrom s (String.length word)) else None.

Fixpoint readValue (fuel : nat) (s : string) : option (value * string) :=
  match fuel with
  | O => None
  | S fuel' =>
      match skipWS s with
      | String "{" rest =>
          match skipWS rest with
          | String "}" after => Some (Object [], after)
          | body => readMembers fuel' body []
          end
      | String "[" rest =>
          match skipWS rest with
          | String "]" after => Some (Array [], after)
          | body => readElements fuel' body []
          end
      | String "t" _ as text => readLiteral "true" (Bool true) text
      | String "f" _ as text => readLiteral "false" (Bool false) text
      | String "n" _ as text => readLiteral "null" Null text
      | String c rest as text =>
          if strings.byteIs c 34 then
            match readString rest with
            | Some (str, after) => Some (Str str, after)
            | None => None
            end
          else match readNumber text with
               | Some (num, after) => Some (Number num, after)
               | None => None
               end
      | EmptyString => None
      end
  end
with readElements (fuel : nat) (s : string) (acc : list value)
  : option (value * string) :=
  match fuel with
  | O => None
  | S fuel' =>
      match readValue fuel' s with
      | Some (v, after) =>
          match skipWS after with
          | String "," more => readElements fuel' more (v :: acc)
          | String "]" more => Some (Array (rev (v :: acc)), more)
          | _ => None
          end
      | None => None
      end
  end
with readMembers (fuel : nat) (s : string) (acc : list (string * value))
  : option (value * string) :=
  match fuel with
  | O => None
  | S fuel' =>
      match skipWS s with
      | String q rest =>
          if strings.byteIs q 34 then
            match readString rest with
            | Some (key, after) =>
                match skipWS after with
                | String ":" more =>
                    match readValue fuel' more with
                    | Some (v, after') =>
                        match skipWS after' with
                        | String "," more' => readMembers fuel' more' ((key, v) :: acc)
                        | String "}" more' => Some (Object (rev ((key, v) :: acc)), more')
                        | _ => None
                        end
                    | None => None
                    end
                | _ => None
                end
            | None => None
            end
          else None
      | EmptyString => None
      end
  end.

(** The whole text as one value. *)
Definition read (data : string) : option value :=
  match readValue (2 * String.length data + 2) data with
  | Some (v, after) => if strings.isEmpty (skipWS after) then Some v else None
  | None => None
  end.

(** Member names are matched without regard to the case of letters. *)
Definition lower (c : ascii) : ascii :=
  let n := Ascii.nat_of_ascii c in
  if ((65 <=? n) && (n <=? 90))%nat then Ascii.ascii_of_nat (n + 32) else c.

Fixpoint equalFold (a b : string) : bool :=
  match a, b with
  | EmptyString, EmptyString => true
  | String x a', String y b' => Ascii.eqb (lower x) (lower y) && equalFold a' b'
  | _, _ => false
  end.

Definition syntaxError : error := Foreign "json: syntax error".
Definition typeError : error := Foreign "json: cannot unmarshal into Go value".
Definition notRead : error := Foreign "json: member type not read by this reader".

(** [struct { Error string `json:"error"` }]: the last string member named
    [error] wins; other members and other types leave the field alone. *)
Fixpoint errorMember (members : list (string * value)) (current : string) : string :=
  match members with
  | [] => current
  | (key, Str s) :: rest =>
      errorMember rest (if equalFold key "error" then s else current)
  | _ :: rest => errorMember rest current
  end.

Definition Unmarshal_Error (data : string) : string :=
  match read data with
  | Some (Object members) => errorMember members ""
  | _ => ""
  end.

Definition toZ (text : string) : Z :=
  match NilZero.int_of_string text with
  | Some i => Z.of_int i
  | None => 0
  end.

Definition zeroFactItem : FactItem.t :=
  FactItem.mk 0 "" "" "" "" None zeroTime zeroTime zeroTime None None false.

Fixpoint factItemMembers (members : list (string * value)) (it : FactItem.t)
  : error + FactItem.t :=
  match members with
  | [] => inr it
  | (key, v) :: rest =>
      let '(FactItem.mk id pro text hash status reason created seen updated
              review reviewed writable) := it in
      let next (it' : FactItem.t) := factItemMembers rest it' in
      if equalFold key "id" then
        match v with
        | Number n => next (FactItem.mk (toZ n) pro text hash status reason created
                              seen updated review reviewed writable)
        | Null => next it
        | _ => inl typeError
        end
      else if equalFold key "proId" then
        match v with
        | Str s => next (FactItem.mk id s text hash status reason created seen
                           updated review reviewed writable)
        | Null => next it
        | _ => inl typeError
        end
      else if equalFold key "factText" then
        match v with
        | Str s => next (FactItem.mk id pro s hash status reason created seen
                           updated review reviewed writable)
        | Null => next it
        | _ => inl typeError
        end
      else if equalFold key "factHash" then
        match v with
        | Str s => next (FactItem.mk id pro text s status reason created seen
                           updated review reviewed writable)
        | Null => next it
        | _ => inl typeError
        end
      else if equalFold key "status" then
        match v with
        | Str s => next (FactItem.mk id pro text hash s reason created seen
                           updated review reviewed writable)
        | Null => next it
        | _ => inl typeError
        end
      else if equalFold key "isWritable" then
        match v with
        | Bool b => next (FactItem.mk id pro text hash status reason created seen
                            updated review reviewed b)
        | Null => next it
        | _ => inl typeError
        end
      else if equalFold key "falseReason" || equalFold key "reviewStatus"
              || equalFold key "createdUtc" || equalFold key "lastSeenUtc"
              || equalFold key "updatedUtc" || equalFold key "reviewUpdatedUtc"
      then inl notRead
      else next it
  end.

Fixpoint factItems (elements : list value) : error + list FactItem.t :=
  match elements with
  | [] => inr []
  | Object members :: rest =>
      match factItemMembers members zeroFactItem, factItems rest with
      | inr it, inr its => inr (it :: its)
      | inl err, _ => inl err
      | _, inl err => inl err
      end
  | Null :: rest =>
      match factItems rest with
      | inr its => inr (zeroFactItem :: its)
      | inl err => inl err
      end
  | _ :: _ => inl typeError
  end.

Definition zeroFacts : FactsStreamChunk := FactsItemsResponse.mk "" zeroTime 0 [].

Fixpoint factsMembers (members : list (string * value)) (chunk : FactsStreamChunk)
  : error + FactsStreamChunk :=
  match members with
  | [] => inr chunk
  | (key, v) :: rest =>
      let '(FactsItemsResponse.mk pro updated id items) := chunk in
      if equalFold key "proId" then
        match v with
        | Str s => factsMembers rest (FactsItemsResponse.mk s updated id items)
        | Null => factsMembers rest chunk
        | _ => inl typeError
        end
      else if equalFold key "cursorId" then
        match v with
        | Number n => factsMembers rest (FactsItemsResponse.mk pro updated (toZ n) items)
        | Null => factsMembers rest chunk
        | _ => inl typeError
        end
      else if equalFold key "items" then
        match v with
        | Array elements =>
            match factItems elements with
            | inr its => factsMembers rest (FactsItemsResponse.mk pro updated id its)
            | inl err => inl err
            end
        | Null => factsMembers rest (FactsItemsResponse.mk pro updated id [])
        | _ => inl typeError
        end
      else if equalFold key "cursorUpdatedUtc" then inl notRead
      else factsMembers rest chunk
  end.

Definition Unmarshal_Facts (data : string) : error + FactsStreamChunk :=
  match read data with
  | Some (Object members) => factsMembers members zeroFacts
  | Some Null => inr zeroFacts
  | Some _ => inl typeError
  | None => inl syntaxError
  end.

Definition zeroMatches : MatchesStreamChunk :=
  MatchesUpdatesResponse.mk "" None zeroTime 0 [].

Fixpoint matchesMembers (members : list (string * value)) (chunk : MatchesStreamChunk)
  : error + MatchesStreamChunk :=
  match members with
  | [] => inr chunk
  | (key, v) :: rest =>
      let '(MatchesUpdatesResponse.mk pro dir updated id items) := chunk in
      if equalFold key "proId" then
        match v with
        | Str s => matchesMembers rest (MatchesUpdatesResponse.mk s dir updated id items)
        | Null => matchesMembers rest chunk
        | _ => inl typeError
        end
      else if equalFold key "direction" then
        match v with
        | Str s => matchesMembers rest
                     (MatchesUpdatesResponse.mk pro (Some s) updated id items)
        | Null => matchesMembers rest
                    (MatchesUpdatesResponse.mk pro None updated id items)
        | _ => inl typeError
        end
      else if equalFold key "cursorId" then
        match v with
        | Number n => matchesMembers rest
                        (MatchesUpdatesResponse.mk pro dir updated (toZ n) items)
        | Null => matchesMembers rest chunk
        | _ => inl typeError
        end
      else if equalFold key "items" then
        match v with
        | Array [] => matchesMembers rest
                        (MatchesUpdatesResponse.mk pro dir updated id [])
        | Null => matchesMembers rest
                    (MatchesUpdatesResponse.mk pro dir updated id [])
        | Array _ => inl notRead
        | _ => inl typeError
        end
      else if equalFold key "cursorUpdatedUtc" then inl notRead
      else matchesMembers rest chunk
  end.

Definition Unmarshal_Matches (data : string) : error + MatchesStreamChunk :=
  match read data with
  | Some (Object members) => matchesMembers members zeroMatches
  | Some Null => inr zeroMatches
  | Some _ => inl typeError
  | None => inl syntaxError
  end.

End json.

(* ===================================================================== *)
(** ** A caller, a server and library stand-ins, to run the scenarios *)
(* ===================================================================== *)

Module Scenario.

(** The caller's world: how many chunks its handlers have taken, and
    whether it has cancelled the context. *)
Record World : Type := mkWorld { taken : nat; cancelled : bool }.

Definition start : World := mkWorld 0 false.
Definition stopped : World := mkWorld 0 true.

(** A context made by [context.WithCancel]. *)
Definition ctx : option (Context World) :=
  Some (fun w => if cancelled w then Some context_Canceled else None).

(** Handlers that count and return nil. *)
Definition onFacts : FactsStreamHandler World :=
  fun w _ => (mkWorld (S (taken w)) (cancelled w), None).
Definition onMatches : MatchesStreamHandler World :=
  fun w _ => (mkWorld (S (taken w)) (cancelled w), None).

(** A server that answers every request with [resp]. *)
Definition serve (resp : Response) : RoundTrip World := fun _ _ => inr resp.

Definition unreachable : RoundTrip World :=
  fun _ _ => inl (Foreign "dial tcp: connection refused").

Definition path_Join (a b : string) : string := a ++ b.

Fixpoint Values_Encode (q : Values) : string :=
  match q with
  | [] => ""
  | [(k, v)] => k ++ "=" ++ v
  | (k, v) :: rest => k ++ "=" ++ v ++ "&" ++ Values_Encode rest
  end.

Definition http_NewRequestWithContext (method : string) (u : URL)
  : error + Request := inr (mkRequest method u []).

Definition time_Format_RFC3339 (t : Time) : string :=
  "sec:" ++ NilZero.string_of_int (Z.to_int (sec t)).

Definition strconv_FormatFloat (f : float) : string := "float".

Definition client (resp : Response) : Client World :=
  mkClient (Some (mkURL "https" "api.manax.pro" "" "" "")) (Some (serve resp)) "" "".

(** The request [StreamFacts] sends for the identity [p_123]. *)
Definition factsRequest : Request :=
  mkRequest "GET"
    (mkURL "https" "api.manax.pro" "/api/facts/items/stream" "proId=p_123" "")
    [("Accept", ["text/event-stream"])].

Definition StreamFacts (resp : Response) :=
  StreamFacts unreachable path_Join Values_Encode http_NewRequestWithContext
    json.Unmarshal_Error json.Unmarshal_Facts (client resp) ctx.

Definition StreamMatches (resp : Response) :=
  StreamMatches unreachable path_Join Values_Encode http_NewRequestWithContext
    time_Format_RFC3339 strconv_FormatFloat
    json.Unmarshal_Error json.Unmarshal_Matches (client resp) ctx.

Definition factsLoop :=
  dispatch "StreamFacts" "facts" json.Unmarshal_Facts ctx onFacts.
Definition matchesLoop :=
  dispatch "StreamMatches" "matches" json.Unmarshal_Matches ctx onMatches.

End Scenario.

(* ===================================================================== *)
(** ** The frame reader: lemmas *)
(* ===================================================================== *)

Lemma cutLine_line raw rest :
  noLF raw = true ->
  cutLine (raw ++ nl ++ rest) = Some (raw ++ nl, rest).
Proof.
  induction raw as [|c raw IH]; cbn [append cutLine noLF]; intros H.
  - reflexivity.
  - apply andb_true_iff in H as [Hc Hraw].
    apply negb_true_iff in Hc. rewrite Hc, (IH Hraw). reflexivity.
Qed.

Lemma cutLine_none s : noLF s = true -> cutLine s = None.
Proof.
  induction s as [|c s IH]; simpl; intros H; [reflexivity|].
  apply andb_true_iff in H as [Hc Hs].
  apply negb_true_iff in Hc. rewrite Hc, (IH Hs). reflexivity.
Qed.

Lemma ReadString_line raw rest cl :
  noLF raw = true ->
  ReadString (mkReader (raw ++ nl ++ rest) cl)
  = (raw ++ nl, None, mkReader rest cl).
Proof.
  intros H. unfold ReadString; cbn [pending closing].
  rewrite (cutLine_line _ _ H). reflexivity.
Qed.

Lemma ReadString_tail s cl :
  noLF s = true ->
  ReadString (mkReader s cl) = (s, Some cl, mkReader "" cl).
Proof.
  intros H. unfold ReadString; cbn [pending closing].
  rewrite (cutLine_none _ H). reflexivity.
Qed.

Lemma ReadEvent_loop_line l raw rest cl :
  noLF raw = true ->
  ReadEvent_loop l (mkReader (raw ++ nl ++ rest) cl)
  = match ReadEvent_line l (raw ++ nl) with
    | Continue l' => ReadEvent_loop l' (mkReader rest cl)
    | Break l' => (inl l', mkReader rest cl)
    end.
Proof.
  intros H. rewrite ReadEvent_loop_step, (ReadString_line _ _ _ H). reflexivity.
Qed.

Lemma ReadEvent_loop_tail l s cl :
  noLF s = true ->
  ReadEvent_loop l (mkReader s cl)
  = (inr cl, mkReader "" cl).
Proof.
  intros H. rewrite ReadEvent_loop_step, (ReadString_tail _ _ H). simpl.
  destruct cl; simpl; try reflexivity.
  destruct (negb (hasLines l)); reflexivity.
Qed.

Lemma TrimRight_nl s : strings.TrimRight (s ++ nl) crlf = strings.TrimRight s crlf.
Proof.
  induction s as [|c s IH]; simpl.
  - reflexivity.
  - rewrite IH. reflexivity.
Qed.

(** A line with content never ends the frame. *)
Lemma ReadEvent_line_content l raw :
  isBlank raw = false ->
  exists l', ReadEvent_line l raw = Continue l' /\ hasLines l' = true.
Proof.
  unfold isBlank, ReadEvent_line. fold crlf. intros ->.
  destruct (strings.HasPrefix _ ":").
  - destruct (negb (hasFields (setHasLines l)) && negb (hasData (setHasLines l)));
      eexists; split; reflexivity.
  - destruct (splitField _) as [field value]. eexists; split; [reflexivity|].
    unfold setField.
    repeat match goal with |- context [if ?b then _ else _] => destruct b end;
      reflexivity.
Qed.

(** A blank line before any content is passed over. *)
Lemma ReadEvent_line_blank l raw :
  isBlank raw = true -> hasLines l = false -> ReadEvent_line l raw = Continue l.
Proof.
  unfold isBlank, ReadEvent_line. fold crlf. intros -> ->. reflexivity.
Qed.

(** A blank line after content ends the frame. *)
Lemma ReadEvent_line_end l raw :
  isBlank raw = true -> hasLines l = true -> ReadEvent_line l raw = Break l.
Proof.
  unfold isBlank, ReadEvent_line. fold crlf. intros -> ->. reflexivity.
Qed.

Lemma append_assoc (a b c : string) : (a ++ b) ++ c = a ++ b ++ c.
Proof. induction a as [|x a IH]; simpl; [reflexivity|now rewrite IH]. Qed.

Lemma append_empty_r (a : string) : a ++ "" = a.
Proof. induction a as [|x a IH]; simpl; [reflexivity|now rewrite IH]. Qed.

Lemma wire_cons_app line lines rest :
  wire (line :: lines) ++ rest = line ++ nl ++ wire lines ++ rest.
Proof. cbn [wire]. now rewrite !append_assoc. Qed.

Lemma isBlank_nl line : isBlank (line ++ nl) = isBlank line.
Proof. unfold isBlank. now rewrite TrimRight_nl. Qed.

(** Blank lines before any content are passed over. *)
Lemma ReadEvent_loop_blanks blanks rest cl l :
  Forall (fun b => noLF b = true /\ isBlank b = true) blanks ->
  hasLines l = false ->
  ReadEvent_loop l (mkReader (wire blanks ++ rest) cl)
  = ReadEvent_loop l (mkReader rest cl).
Proof.
  intros Hb Hl. induction Hb as [|b blanks [Hlf Hblank] _ IH].
  - reflexivity.
  - rewrite wire_cons_app, (ReadEvent_loop_line _ _ _ _ Hlf).
    rewrite ReadEvent_line_blank; [exact IH| now rewrite isBlank_nl | exact Hl].
Qed.

(** Content that no blank line ends is lost at the end of the stream. *)
Lemma ReadEvent_loop_truncated content partial cl l :
  Forall (fun c => noLF c = true /\ isBlank c = false) content ->
  noLF partial = true ->
  ReadEvent_loop l (mkReader (wire content ++ partial) cl)
  = (inr cl, mkReader "" cl).
Proof.
  intros Hc Hp. revert l. induction Hc as [|c content [Hlf Hcont] _ IH]; intros l.
  - apply ReadEvent_loop_tail, Hp.
  - rewrite wire_cons_app, (ReadEvent_loop_line _ _ _ _ Hlf).
    destruct (ReadEvent_line_content l (c ++ nl)) as (l' & -> & _).
    + now rewrite isBlank_nl.
    + apply IH.
Qed.

Lemma setField_Comment l field value :
  Comment (event (setField l field value)) = Comment (event l).
Proof.
  unfold setField.
  repeat match goal with |- context [if ?b then _ else _] => destruct b end;
    reflexivity.
Qed.

Lemma setField_fieldsSeen l field value :
  fieldsSeen l = true -> fieldsSeen (setField l field value) = true.
Proof.
  unfold setField, fieldsSeen. intros H.
  repeat match goal with |- context [if ?b then _ else _] => destruct b end;
    simpl; rewrite ?orb_true_r; auto.
Qed.

Lemma setField_recognised l field value :
  recognised field = true -> fieldsSeen (setField l field value) = true.
Proof.
  unfold setField, fieldsSeen, recognised.
  destruct (String.eqb field "event"); [reflexivity|].
  destruct (String.eqb field "data"); [simpl; now rewrite orb_true_r|].
  destruct (String.eqb field "id"); [reflexivity|].
  destruct (String.eqb field "retry"); [reflexivity|discriminate].
Qed.

(** Once a field was seen, no line changes the comment. *)
Lemma ReadEvent_line_keeps_comment l raw :
  fieldsSeen l = true ->
  fieldsSeen (control_locals (ReadEvent_line l raw)) = true
  /\ Comment (event (control_locals (ReadEvent_line l raw))) = Comment (event l).
Proof.
  intros Hseen. unfold ReadEvent_line.
  destruct (strings.isEmpty _).
  - destruct (negb (hasLines l)); simpl; auto.
  - destruct (strings.HasPrefix _ ":").
    + replace (negb (hasFields (setHasLines l)) && negb (hasData (setHasLines l)))
        with false; [simpl; auto|].
      unfold fieldsSeen in Hseen. simpl.
      destruct (hasFields l), (hasData l); simpl in *; congruence.
    + destruct (splitField _) as [field value]. simpl. split.
      * apply (setField_fieldsSeen (setHasLines l)). exact Hseen.
      * apply (setField_Comment (setHasLines l)).
Qed.

Lemma ReadEvent_loop_keeps_comment sr : forall l l' sr',
  fieldsSeen l = true ->
  ReadEvent_loop l sr = (inl l', sr') ->
  Comment (event l') = Comment (event l).
Proof.
  remember (String.length (pending sr)) as n eqn:Hn.
  revert sr Hn. induction n as [n IH] using lt_wf_ind. intros sr Hn l l' sr' Hseen.
  rewrite ReadEvent_loop_step.
  destruct (ReadString sr) as [[raw [err|]] sr1] eqn:Hread; simpl.
  - destruct (is_io_EOF err && negb (hasLines l)); [discriminate|].
    destruct (is_io_EOF err); discriminate.
  - apply ReadString_shorter in Hread.
    destruct (ReadEvent_line_keeps_comment l raw Hseen) as [Hs Hc].
    destruct (ReadEvent_line l raw) as [l1|l1]; simpl in Hs, Hc.
    + intros H. rewrite <- Hc.
      eapply (IH (String.length (pending sr1))); eauto. lia.
    + intros [= <- <-]. exact Hc.
Qed.

Lemma recognised_line first :
  recognised (fieldName first) = true ->
  isBlank first = false /\ isComment first = false.
Proof.
  unfold fieldName, isBlank, isComment.
  destruct (strings.TrimRight first crlf) as [|c line]; [discriminate|].
  intros H. split; [reflexivity|].
  simpl. destruct (Ascii.eqb c ":") eqn:E; [|reflexivity].
  unfold splitField in H. simpl in H. rewrite E in H. simpl in H.
  destruct line as [|[[] [] [] [] [] [] [] []] ?]; discriminate.
Qed.

(** A content line that is no comment leaves the comment as it is. *)
Lemma ReadEvent_line_field l raw :
  isBlank raw = false -> isComment raw = false ->
  ReadEvent_line l raw
  = Continue (setField (setHasLines l) (fieldName raw) (fieldValue raw)).
Proof.
  unfold isBlank, isComment, ReadEvent_line, fieldName, fieldValue. fold crlf.
  intros -> ->. destruct (splitField _); reflexivity.
Qed.

Lemma fieldName_nl line : fieldName (line ++ nl) = fieldName line.
Proof. unfold fieldName. now rewrite TrimRight_nl. Qed.

Lemma fieldValue_nl line : fieldValue (line ++ nl) = fieldValue line.
Proof. unfold fieldValue. now rewrite TrimRight_nl. Qed.

Lemma isComment_nl line : isComment (line ++ nl) = isComment line.
Proof. unfold isComment. now rewrite TrimRight_nl. Qed.

(** Field lines, whatever their names, leave the comment as it is. *)
Lemma ReadEvent_loop_fields pre rest cl : forall l,
  Forall (fun p => noLF p = true /\ isBlank p = false /\ isComment p = false) pre ->
  exists l1,
    ReadEvent_loop l (mkReader (wire pre ++ rest) cl)
    = ReadEvent_loop l1 (mkReader rest cl)
    /\ Comment (event l1) = Comment (event l).
Proof.
  intros l Hpre. revert l.
  induction Hpre as [|p pre (Hlf & Hcont & Hnc) _ IH]; intros l.
  - exists l. split; reflexivity.
  - rewrite wire_cons_app, (ReadEvent_loop_line _ _ _ _ Hlf).
    rewrite ReadEvent_line_field
      by (now rewrite ?isBlank_nl, ?isComment_nl).
    destruct (IH (setField (setHasLines l) (fieldName (p ++ nl)) (fieldValue (p ++ nl))))
      as (l1 & Hloop & Hc).
    exists l1. split; [exact Hloop|].
    rewrite Hc. apply (setField_Comment (setHasLines l)).
Qed.

(** The frame that [ReadEvent] returns has the comment of the locals. *)
Lemma ReadEvent_Comment sr ev e sr' :
  ReadEvent sr = (Some ev, e, sr') ->
  exists l, ReadEvent_loop initLocals sr = (inl l, sr')
            /\ Comment ev = Comment (event l).
Proof.
  unfold ReadEvent.
  destruct (ReadEvent_loop initLocals sr) as [[l|err] sr1]; [|discriminate].
  destruct (negb (hasLines l)); [discriminate|].
  intros [= <- _ <-]. exists l. split; [reflexivity|].
  destruct (hasData l); reflexivity.
Qed.

(* ===================================================================== *)
(** ** The frame reader: properties *)
(* ===================================================================== *)

Example ReadEvent_comment_then_fields :
  ReadEvent (mkReader (wire [": hello"; "event: facts"; "data: x"; ""]) io_EOF)
  = (Some (mkSSEEvent "facts" "x" "" "" "hello"), None, mkReader "" io_EOF).
Proof. reflexivity. Qed.

(** C1, as the data model states it, fails: the frame
    [: hello / event: facts / data: x / blank line] comes back with the
    comment "hello" together with the event name "facts" and the data "x".
    The comment line is read while no field has been seen, and the field
    lines that follow do not clear it. *)
Lemma C1_comment_with_fields_returned :
  ~ (forall sr ev sr',
        ReadEvent sr = (Some ev, None, sr') -> commentWithFields ev = false).
Proof.
  intros H.
  specialize (H _ _ _ ReadEvent_comment_then_fields). discriminate H.
Qed.

(** C1 (amended): a frame in which no comment line comes before the first
    event, data, id or retry line is returned with an empty Comment;
    comment lines after that field line are dropped.  Here [blanks] are
    the blank lines before the frame, [pre] its lines before the first
    recognised field line (none of them a comment), [first] that field
    line, and [rest] all that follows, comment lines included. *)
Theorem C1_no_comment_once_field_seen
    (blanks pre : list string) (first rest : string) (cl : error)
    (ev : SSEEvent) (e : option error) (sr' : sseReader) :
  Forall (fun b => noLF b = true /\ isBlank b = true) blanks ->
  Forall (fun p => noLF p = true /\ isBlank p = false /\ isComment p = false) pre ->
  noLF first = true ->
  recognised (fieldName first) = true ->
  ReadEvent (mkReader (wire blanks ++ wire pre ++ first ++ nl ++ rest) cl)
  = (Some ev, e, sr') ->
  Comment ev = "".
Proof.
  intros Hblanks Hpre Hlf Hrec Hread.
  apply ReadEvent_Comment in Hread as (l & Hloop & ->).
  rewrite (ReadEvent_loop_blanks _ _ _ initLocals Hblanks eq_refl) in Hloop.
  destruct (ReadEvent_loop_fields pre (first ++ nl ++ rest) cl initLocals Hpre)
    as (l1 & Hfields & Hc1).
  rewrite Hfields, (ReadEvent_loop_line _ _ _ _ Hlf) in Hloop.
  destruct (recognised_line _ Hrec) as [Hcont Hnc].
  rewrite ReadEvent_line_field in Hloop
    by (now rewrite ?isBlank_nl, ?isComment_nl).
  apply ReadEvent_loop_keeps_comment in Hloop.
  - rewrite Hloop, (setField_Comment (setHasLines l1)). exact Hc1.
  - apply setField_recognised. now rewrite fieldName_nl.
Qed.

Lemma C1_no_comment_once_field_seen_witness :
  ReadEvent (mkReader (wire [""] ++ wire ["foo: bar"] ++ "data: x" ++ nl
                         ++ wire [": late"; ""]) io_EOF)
  = (Some (mkSSEEvent "" "x" "" "" ""), None, mkReader "" io_EOF)
  /\ Comment (mkSSEEvent "" "x" "" "" "") = "".
Proof.
  split; [reflexivity|].
  apply (C1_no_comment_once_field_seen
           [""] ["foo: bar"] "data: x" (wire [": late"; ""]) io_EOF
           (mkSSEEvent "" "x" "" "" "") None (mkReader "" io_EOF)).
  - repeat constructor.
  - repeat constructor.
  - reflexivity.
  - reflexivity.
  - reflexivity.
Defined.

(** C7: at the end of the stream [ReadEvent] returns [io.EOF] and no
    frame.  Whatever blank lines come first, whatever content lines follow
    them, and whatever unfinished last line there is: when no blank line
    ends the content before the source is exhausted, the lines read so far
    are dropped and the answer is [(nil, io.EOF)].  With no content and no
    last line this is the plain end of the stream. *)
Theorem C7_truncated_stream_is_EOF
    (blanks content : list string) (partial : string) :
  Forall (fun b => noLF b = true /\ isBlank b = true) blanks ->
  Forall (fun c => noLF c = true /\ isBlank c = false) content ->
  noLF partial = true ->
  ReadEvent (mkReader (wire blanks ++ wire content ++ partial) io_EOF)
  = (None, Some io_EOF, mkReader "" io_EOF).
Proof.
  intros Hblanks Hcontent Hpartial. unfold ReadEvent.
  rewrite (ReadEvent_loop_blanks _ _ _ initLocals Hblanks eq_refl).
  rewrite (ReadEvent_loop_truncated _ _ _ _ Hcontent Hpartial).
  reflexivity.
Qed.

Lemma C7_truncated_stream_is_EOF_witness :
  ReadEvent (mkReader (wire [""; ""] ++ wire ["event: facts"; "data: {"] ++ "data: }")
               io_EOF)
  = (None, Some io_EOF, mkReader "" io_EOF).
Proof.
  apply (C7_truncated_stream_is_EOF [""; ""] ["event: facts"; "data: {"] "data: }").
  - repeat constructor.
  - repeat constructor.
  - reflexivity.
Defined.

(** An exhausted source: nothing left to read. *)
Example ReadEvent_exhausted :
  ReadEvent (mkReader "" io_EOF) = (None, Some io_EOF, mkReader "" io_EOF).
Proof. reflexivity. Qed.

(** A frame is returned only from a source that still had bytes. *)
Lemma ReadEvent_frame_consumes sr ev sr' :
  ReadEvent sr = (Some ev, None, sr') ->
  (String.length (pending sr') < String.length (pending sr))%nat.
Proof. apply ReadEvent_shorter. Qed.

(* ===================================================================== *)
(** ** The dispatch loop: lemmas *)
(* ===================================================================== *)

Section DispatchFacts.

Variable World : Type.
Variable Chunk : Type.
Variable who feed : string.
Variable json_Unmarshal : string -> error + Chunk.
Variable ctx : option (Context World).
Variable handler : World -> Chunk -> World * option error.

Local Abbreviation loop := (dispatch who feed json_Unmarshal ctx handler).
Local Abbreviation turn := (dispatch_turn who feed json_Unmarshal ctx handler).
Local Abbreviation deliver := (deliver who feed json_Unmarshal ctx handler).

Lemma dispatch_step w sr : loop w sr = turn w (ReadEvent sr).
Proof.
  rewrite dispatch_equation_1. unfold inspect.
  enough (H : forall p (e : ReadEvent sr = p),
             dispatch_unfold_clause_1 who feed json_Unmarshal ctx handler w sr
               (exist _ p e) = turn w p)
    by apply H.
  intros [[[ev|] [err|]] sr'] e; reflexivity.
Qed.

Lemma isEmpty_false s : s <> "" -> strings.isEmpty s = false.
Proof. destruct s; [congruence|reflexivity]. Qed.

Lemma isEmpty_true s : strings.isEmpty s = true -> s = "".
Proof. destruct s; [reflexivity|discriminate]. Qed.

Lemma length_zero s : (Z.of_nat (String.length s) =? 0) = strings.isEmpty s.
Proof. destruct s; reflexivity. Qed.

(** A frame with a foreign event name: the turn is the next turn. *)
Lemma dispatch_other_event w sr ev sr' :
  ReadEvent sr = (Some ev, None, sr') ->
  Event ev <> "" -> Event ev <> feed ->
  loop w sr = loop w sr'.
Proof.
  intros Hread Hnamed Hother. rewrite dispatch_step, Hread. simpl.
  unfold commentOnly, otherEvent.
  rewrite (isEmpty_false _ Hnamed).
  apply String.eqb_neq in Hother. rewrite Hother.
  rewrite andb_false_r. reflexivity.
Qed.

(** A comment-only frame: the turn is the next turn. *)
Lemma dispatch_comment_only w sr ev sr' :
  ReadEvent sr = (Some ev, None, sr') ->
  commentOnly ev = true ->
  loop w sr = loop w sr'.
Proof. intros Hread Hc. rewrite dispatch_step, Hread. simpl. now rewrite Hc. Qed.

(** A frame that both filters let through is delivered. *)
Lemma dispatch_delivers w sr ev sr' :
  ReadEvent sr = (Some ev, None, sr') ->
  commentOnly ev = false -> otherEvent feed ev = false ->
  loop w sr = deliver w ev sr'.
Proof.
  intros Hread Hc Ho. rewrite dispatch_step, Hread. simpl.
  rewrite Hc, Ho. reflexivity.
Qed.

(** A read error. *)
Lemma dispatch_read_error w sr ev err sr' :
  ReadEvent sr = (ev, Some err, sr') ->
  loop w sr
  = if errors_Is_EOF err then mkRun [] w sr' None
    else match ctx_Err ctx w with
         | Some ctxErr => mkRun [] w sr' (Some ctxErr)
         | None => mkRun [] w sr' (Some (Errorf_w (who ++ ": read SSE event") err))
         end.
Proof. intros Hread. rewrite dispatch_step, Hread. destruct ev; reflexivity. Qed.

End DispatchFacts.

(* ===================================================================== *)
(** ** The dispatch loop: properties

    [StreamFacts] runs [dispatch "StreamFacts" "facts"] and [StreamMatches]
    runs [dispatch "StreamMatches" "matches"] on the body of the response;
    the statements are about these two loops, at any point of the stream. *)
(* ===================================================================== *)

(** C3: in both drivers a frame with a name that is not empty and is not
    the name of the feed is skipped: the run from this frame on is the run
    from the next frame on, in the same world, so the handler is not called
    for it and the loop goes on.  A frame with the empty name and with data
    is not skipped: its data is decoded, and the decoder's answer and then
    the handler decide how the turn ends. *)
Theorem C3_other_event_names_skipped
    (World : Type)
    (unmarshalFacts : string -> error + FactsStreamChunk)
    (unmarshalMatches : string -> error + MatchesStreamChunk)
    (ctx : option (Context World))
    (onFacts : FactsStreamHandler World) (onMatches : MatchesStreamHandler World)
    (w : World) (sr : sseReader) (ev : SSEEvent) (sr' : sseReader) :
  ReadEvent sr = (Some ev, None, sr') ->
  (Event ev <> "" -> Event ev <> "facts" ->
     dispatch "StreamFacts" "facts" unmarshalFacts ctx onFacts w sr
     = dispatch "StreamFacts" "facts" unmarshalFacts ctx onFacts w sr')
  /\ (Event ev <> "" -> Event ev <> "matches" ->
     dispatch "StreamMatches" "matches" unmarshalMatches ctx onMatches w sr
     = dispatch "StreamMatches" "matches" unmarshalMatches ctx onMatches w sr')
  /\ (Event ev = "" -> Data ev <> "" ->
     dispatch "StreamFacts" "facts" unmarshalFacts ctx onFacts w sr
     = match unmarshalFacts (Data ev) with
       | inl err =>
           mkRun [] w sr' (Some (Errorf_w "StreamFacts: decode JSON payload" err))
       | inr chunk =>
           match onFacts w chunk with
           | (w', Some err) => mkRun [chunk] w' sr' (Some err)
           | (w', None) =>
               after chunk
                 (dispatch "StreamFacts" "facts" unmarshalFacts ctx onFacts w' sr')
           end
       end)
  /\ (Event ev = "" -> Data ev <> "" ->
     dispatch "StreamMatches" "matches" unmarshalMatches ctx onMatches w sr
     = match unmarshalMatches (Data ev) with
       | inl err =>
           mkRun [] w sr' (Some (Errorf_w "StreamMatches: decode JSON payload" err))
       | inr chunk =>
           match onMatches w chunk with
           | (w', Some err) => mkRun [chunk] w' sr' (Some err)
           | (w', None) =>
               after chunk
                 (dispatch "StreamMatches" "matches" unmarshalMatches ctx onMatches
                    w' sr')
           end
       end).
Proof.
  intros Hread. repeat split.
  - intros. eapply dispatch_other_event; eauto.
  - intros. eapply dispatch_other_event; eauto.
  - intros Hname Hdata.
    rewrite (dispatch_delivers _ _ _ _ _ _ _ _ _ _ _ Hread).
    + unfold deliver. rewrite length_zero, (isEmpty_false _ Hdata). reflexivity.
    + unfold commentOnly. rewrite length_zero, (isEmpty_false _ Hdata).
      apply andb_false_r.
    + unfold otherEvent. now rewrite Hname.
  - intros Hname Hdata.
    rewrite (dispatch_delivers _ _ _ _ _ _ _ _ _ _ _ Hread).
    + unfold deliver. rewrite length_zero, (isEmpty_false _ Hdata). reflexivity.
    + unfold commentOnly. rewrite length_zero, (isEmpty_false _ Hdata).
      apply andb_false_r.
    + unfold otherEvent. now rewrite Hname.
Qed.

(** C4: in both drivers a frame that is not comment-only, that has the
    empty name or the name of the feed, and that has no data, ends the
    loop at once with the empty payload error: no chunk is handed to the
    handler, the world is as it was, and the reader stands right after
    the frame. *)
Theorem C4_empty_payload_is_fatal
    (World : Type)
    (unmarshalFacts : string -> error + FactsStreamChunk)
    (unmarshalMatches : string -> error + MatchesStreamChunk)
    (ctx : option (Context World))
    (onFacts : FactsStreamHandler World) (onMatches : MatchesStreamHandler World)
    (w : World) (sr : sseReader) (ev : SSEEvent) (sr' : sseReader) :
  ReadEvent sr = (Some ev, None, sr') ->
  commentOnly ev = false ->
  Data ev = "" ->
  (Event ev = "" \/ Event ev = "facts" ->
     dispatch "StreamFacts" "facts" unmarshalFacts ctx onFacts w sr
     = mkRun [] w sr' (Some (errEmptyPayload "StreamFacts" "facts")))
  /\ (Event ev = "" \/ Event ev = "matches" ->
     dispatch "StreamMatches" "matches" unmarshalMatches ctx onMatches w sr
     = mkRun [] w sr' (Some (errEmptyPayload "StreamMatches" "matches"))).
Proof.
  intros Hread Hcomment Hdata. split; intros Hname.
  - rewrite (dispatch_delivers _ _ _ _ _ _ _ _ _ _ _ Hread Hcomment).
    + unfold deliver. now rewrite Hdata.
    + unfold otherEvent. destruct Hname as [-> | ->]; reflexivity.
  - rewrite (dispatch_delivers _ _ _ _ _ _ _ _ _ _ _ Hread Hcomment).
    + unfold deliver. now rewrite Hdata.
    + unfold otherEvent. destruct Hname as [-> | ->]; reflexivity.
Qed.

(** C5: in both drivers, when [ReadEvent] fails with an error that is not
    the end of the stream, the loop returns [ctx.Err()] if that is not nil,
    and otherwise the read error wrapped with the name of the driver. *)
Theorem C5_cancellation_preferred
    (World : Type)
    (unmarshalFacts : string -> error + FactsStreamChunk)
    (unmarshalMatches : string -> error + MatchesStreamChunk)
    (ctx : option (Context World))
    (onFacts : FactsStreamHandler World) (onMatches : MatchesStreamHandler World)
    (w : World) (sr : sseReader) (ev : option SSEEvent) (err : error)
    (sr' : sseReader) :
  ReadEvent sr = (ev, Some err, sr') ->
  errors_Is_EOF err = false ->
  dispatch "StreamFacts" "facts" unmarshalFacts ctx onFacts w sr
  = mkRun [] w sr'
      (Some match ctx_Err ctx w with
            | Some ctxErr => ctxErr
            | None => Errorf_w "StreamFacts: read SSE event" err
            end)
  /\ dispatch "StreamMatches" "matches" unmarshalMatches ctx onMatches w sr
  = mkRun [] w sr'
      (Some match ctx_Err ctx w with
            | Some ctxErr => ctxErr
            | None => Errorf_w "StreamMatches: read SSE event" err
            end).
Proof.
  intros Hread Hnot. split.
  - rewrite (dispatch_read_error _ _ _ _ _ _ _ _ _ _ _ _ Hread), Hnot.
    destruct (ctx_Err ctx w); reflexivity.
  - rewrite (dispatch_read_error _ _ _ _ _ _ _ _ _ _ _ _ Hread), Hnot.
    destruct (ctx_Err ctx w); reflexivity.
Qed.

Lemma C3_other_event_names_skipped_witness :
  Scenario.factsLoop Scenario.start
    (mkReader (wire ["event: matches"; "data: {}"; ""; ": ping"; ""]) io_EOF)
  = Scenario.factsLoop Scenario.start (mkReader (wire [": ping"; ""]) io_EOF).
Proof.
  refine (proj1 (C3_other_event_names_skipped Scenario.World
                   json.Unmarshal_Facts json.Unmarshal_Matches Scenario.ctx
                   Scenario.onFacts Scenario.onMatches Scenario.start
                   (mkReader (wire ["event: matches"; "data: {}"; ""; ": ping"; ""]) io_EOF)
                   (mkSSEEvent "matches" "{}" "" "" "")
                   (mkReader (wire [": ping"; ""]) io_EOF) eq_refl) _ _);
    discriminate.
Defined.

Lemma C4_empty_payload_is_fatal_witness :
  Scenario.factsLoop Scenario.start
    (mkReader (wire ["event: facts"; ""; "event: facts"; "data: {}"; ""]) io_EOF)
  = mkRun [] Scenario.start
      (mkReader (wire ["event: facts"; "data: {}"; ""]) io_EOF)
      (Some (errEmptyPayload "StreamFacts" "facts")).
Proof.
  refine (proj1 (C4_empty_payload_is_fatal Scenario.World
                   json.Unmarshal_Facts json.Unmarshal_Matches Scenario.ctx
                   Scenario.onFacts Scenario.onMatches Scenario.start
                   (mkReader (wire ["event: facts"; ""; "event: facts"; "data: {}"; ""])
                      io_EOF)
                   (mkSSEEvent "facts" "" "" "" "")
                   (mkReader (wire ["event: facts"; "data: {}"; ""]) io_EOF)
                   eq_refl eq_refl eq_refl) _).
  right. reflexivity.
Defined.

Lemma C5_cancellation_preferred_witness :
  Scenario.factsLoop Scenario.stopped
    (mkReader "event: fa" (Foreign "read tcp: connection reset by peer"))
  = mkRun [] Scenario.stopped
      (mkReader "" (Foreign "read tcp: connection reset by peer"))
      (Some context_Canceled)
  /\ Scenario.matchesLoop Scenario.start
    (mkReader "event: ma" (Foreign "read tcp: connection reset by peer"))
  = mkRun [] Scenario.start
      (mkReader "" (Foreign "read tcp: connection reset by peer"))
      (Some (Errorf_w "StreamMatches: read SSE event"
               (Foreign "read tcp: connection reset by peer"))).
Proof.
  split.
  - exact (proj1 (C5_cancellation_preferred Scenario.World
                    json.Unmarshal_Facts json.Unmarshal_Matches Scenario.ctx
                    Scenario.onFacts Scenario.onMatches Scenario.stopped
                    (mkReader "event: fa" (Foreign "read tcp: connection reset by peer"))
                    None (Foreign "read tcp: connection reset by peer")
                    (mkReader "" (Foreign "read tcp: connection reset by peer"))
                    eq_refl eq_refl)).
  - exact (proj2 (C5_cancellation_preferred Scenario.World
                    json.Unmarshal_Facts json.Unmarshal_Matches Scenario.ctx
                    Scenario.onFacts Scenario.onMatches Scenario.start
                    (mkReader "event: ma" (Foreign "read tcp: connection reset by peer"))
                    None (Foreign "read tcp: connection reset by peer")
                    (mkReader "" (Foreign "read tcp: connection reset by peer"))
                    eq_refl eq_refl)).
Defined.

(* ===================================================================== *)
(** ** The drivers: from the call to the response *)
(* ===================================================================== *)

Lemma limitBytes_all s n :
  Z.of_nat (String.length s) <= n -> limitBytes s n = s.
Proof.
  revert n. induction s as [|c s IH]; intros n Hn; cbn [limitBytes]; [reflexivity|].
  cbn [String.length] in Hn.
  destruct (n <=? 0) eqn:E; [apply Z.leb_le in E; lia|].
  rewrite IH by lia. reflexivity.
Qed.

(** What the drivers read of the body of a refused request: its first
    64 KiB. *)
Lemma io_ReadAll_Limit_data body :
  fst (io_ReadAll_Limit body (64 * 1024)) = limitBytes (pending body) 65536.
Proof.
  unfold io_ReadAll_Limit, io_ReadAll. change (64 * 1024) with 65536.
  destruct (Z.of_nat (String.length (pending body)) >=? 65536) eqn:E; cbn [fst].
  - reflexivity.
  - symmetry. apply limitBytes_all.
    rewrite Z.geb_leb in E. apply Z.leb_gt in E. lia.
Qed.

Section Served.

Variable World : Type.
Variable http_DefaultClient : RoundTrip World.
Variable path_Join : string -> string -> string.
Variable Values_Encode : Values -> string.
Variable http_NewRequestWithContext : string -> URL -> error + Request.
Variable time_Format_RFC3339 : Time -> string.
Variable strconv_FormatFloat : float -> string.
Variable json_Unmarshal_Error : string -> string.
Variable json_Unmarshal_Facts : string -> error + FactsStreamChunk.
Variable json_Unmarshal_Matches : string -> error + MatchesStreamChunk.

Variable c : Client World.
Variable ctx : option (Context World).
Variable w : World.
Variable resp : Response.

(** The call can be made: there is a context and a base URL, the request
    can be built, and the server answers [resp]. *)
Hypothesis Hctx : ctx <> None.
Hypothesis Hbase : baseURL c <> None.
Hypothesis Hbuild : forall method u,
  exists req, http_NewRequestWithContext method u = inr req.
Hypothesis Hserve : forall req, HTTPClient http_DefaultClient c req w = inr resp.

Lemma newRequest_built method endpoint query :
  exists req,
    newRequest path_Join Values_Encode http_NewRequestWithContext
      c ctx method endpoint query = inr req.
Proof.
  unfold newRequest.
  destruct ctx as [cx|]; [|congruence].
  destruct (baseURL c) as [base|]; [|congruence].
  match goal with |- context [http_NewRequestWithContext ?m ?u] =>
    destruct (Hbuild m u) as [req ->] end.
  exists req. reflexivity.
Qed.

(** [StreamFacts] once its preconditions hold. *)
Lemma StreamFacts_served proID handler :
  strings.TrimSpace proID <> "" ->
  exists req,
    StreamFacts http_DefaultClient path_Join Values_Encode
      http_NewRequestWithContext json_Unmarshal_Error json_Unmarshal_Facts
      c ctx w proID (Some handler)
    = if notSuccess resp then
        mkOutcome [Sent req; Closed] w
          (Some (ErrAPI (apiError json_Unmarshal_Error resp
                           (limitBytes (pending (resp_Body resp)) 65536))))
      else
        let r := dispatch "StreamFacts" "facts" json_Unmarshal_Facts ctx handler
                   w (resp_Body resp) in
        mkOutcome (Sent req :: map Handled (calls r) ++ [Closed])
          (world r) (result r).
Proof.
  intros Hid. unfold StreamFacts.
  rewrite (isEmpty_false _ Hid).
  match goal with |- context [newRequest _ _ _ _ _ ?m ?e ?q] =>
    destruct (newRequest_built m e q) as [req ->] end.
  rewrite Hserve. eexists.
  destruct (notSuccess resp); [|reflexivity].
  rewrite <- io_ReadAll_Limit_data.
  destruct (io_ReadAll_Limit (resp_Body resp) (64 * 1024)); reflexivity.
Qed.

(** [StreamMatches] once its preconditions hold. *)
Lemma StreamMatches_served proID cursor opt handler :
  strings.TrimSpace proID <> "" ->
  opt_Direction opt <> "" ->
  0 <= cursor_ID cursor ->
  Time_IsZero (cursor_UpdatedUTC cursor) = false ->
  exists req,
    StreamMatches http_DefaultClient path_Join Values_Encode
      http_NewRequestWithContext time_Format_RFC3339 strconv_FormatFloat
      json_Unmarshal_Error json_Unmarshal_Matches
      c ctx w proID cursor opt (Some handler)
    = if notSuccess resp then
        mkOutcome [Sent req; Closed] w
          (Some (ErrAPI (apiError json_Unmarshal_Error resp
                           (limitBytes (pending (resp_Body resp)) 65536))))
      else
        let r := dispatch "StreamMatches" "matches" json_Unmarshal_Matches ctx
                   handler w (resp_Body resp) in
        mkOutcome (Sent req :: map Handled (calls r) ++ [Closed])
          (world r) (result r).
Proof.
  intros Hid Hdir Hcur Hzero. unfold StreamMatches.
  rewrite (isEmpty_false _ Hid), (isEmpty_false _ Hdir), Hzero.
  replace (cursor_ID cursor <? 0) with false by (symmetry; apply Z.ltb_ge; lia).
  match goal with |- context [newRequest _ _ _ _ _ ?m ?e ?q] =>
    destruct (newRequest_built m e q) as [req ->] end.
  rewrite Hserve. eexists.
  destruct (notSuccess resp); [|reflexivity].
  rewrite <- io_ReadAll_Limit_data.
  destruct (io_ReadAll_Limit (resp_Body resp) (64 * 1024)); reflexivity.
Qed.

End Served.

(* ===================================================================== *)
(** ** The drivers: properties *)
(* ===================================================================== *)

(** C9: both drivers check their preconditions before any network call.
    [StreamFacts] with an identity that is empty once trimmed, or with a
    nil handler, returns an error and has sent nothing; so does
    [StreamMatches], also when the direction is empty or the time of the
    cursor is the zero time.  No request is sent, no chunk handled, and the
    caller's world is as it was. *)
Theorem C9_preconditions_before_network
    (World : Type)
    (http_DefaultClient : RoundTrip World)
    (path_Join : string -> string -> string)
    (Values_Encode : Values -> string)
    (http_NewRequestWithContext : string -> URL -> error + Request)
    (time_Format_RFC3339 : Time -> string)
    (strconv_FormatFloat : float -> string)
    (json_Unmarshal_Error : string -> string)
    (json_Unmarshal_Facts : string -> error + FactsStreamChunk)
    (json_Unmarshal_Matches : string -> error + MatchesStreamChunk)
    (c : Client World) (ctx : option (Context World)) (w : World)
    (proID : string) (cursor : MatchesStreamCursor) (opt : MatchesStreamOptions)
    (onFacts : option (FactsStreamHandler World))
    (onMatches : option (MatchesStreamHandler World)) :
  (strings.TrimSpace proID = "" \/ onFacts = None ->
   exists err,
     StreamFacts http_DefaultClient path_Join Values_Encode
       http_NewRequestWithContext json_Unmarshal_Error json_Unmarshal_Facts
       c ctx w proID onFacts
     = mkOutcome [] w (Some err))
  /\ (strings.TrimSpace proID = "" \/ onMatches = None
      \/ opt_Direction opt = ""
      \/ Time_IsZero (cursor_UpdatedUTC cursor) = true ->
   exists err,
     StreamMatches http_DefaultClient path_Join Values_Encode
       http_NewRequestWithContext time_Format_RFC3339 strconv_FormatFloat
       json_Unmarshal_Error json_Unmarshal_Matches
       c ctx w proID cursor opt onMatches
     = mkOutcome [] w (Some err)).
Proof.
  split.
  - intros H. unfold StreamFacts.
    destruct (strings.isEmpty (strings.TrimSpace proID)) eqn:Eid;
      [eexists; reflexivity|].
    destruct H as [H | H]; [rewrite H in Eid; discriminate|].
    rewrite H. eexists; reflexivity.
  - intros H. unfold StreamMatches.
    destruct (strings.isEmpty (strings.TrimSpace proID)) eqn:Eid;
      [eexists; reflexivity|].
    destruct onMatches as [handler|]; [|eexists; reflexivity].
    destruct (strings.isEmpty (opt_Direction opt)) eqn:Edir;
      [eexists; reflexivity|].
    destruct (cursor_ID cursor <? 0); [eexists; reflexivity|].
    destruct (Time_IsZero (cursor_UpdatedUTC cursor)) eqn:Ezero;
      [eexists; reflexivity|].
    destruct H as [H | [H | [H | H]]].
    + rewrite H in Eid; discriminate.
    + discriminate.
    + rewrite H in Edir; discriminate.
    + discriminate.
Qed.

Lemma C9_preconditions_before_network_witness :
  (exists err,
     Scenario.StreamFacts (mkResponse 200 "200 OK" (mkReader "" io_EOF))
       Scenario.start "   " (Some Scenario.onFacts)
     = mkOutcome [] Scenario.start (Some err))
  /\ (exists err,
     Scenario.StreamMatches (mkResponse 200 "200 OK" (mkReader "" io_EOF))
       Scenario.start "p_123" (mkCursor zeroTime 5)
       (mkOptions MatchingDirectionOffer PrimFloat.zero 0 0 0)
       (Some Scenario.onMatches)
     = mkOutcome [] Scenario.start (Some err)).
Proof.
  split.
  - apply (proj1 (C9_preconditions_before_network Scenario.World
                    Scenario.unreachable Scenario.path_Join Scenario.Values_Encode
                    Scenario.http_NewRequestWithContext Scenario.time_Format_RFC3339
                    Scenario.strconv_FormatFloat json.Unmarshal_Error
                    json.Unmarshal_Facts json.Unmarshal_Matches
                    (Scenario.client (mkResponse 200 "200 OK" (mkReader "" io_EOF)))
                    Scenario.ctx Scenario.start "   " (mkCursor zeroTime 5)
                    (mkOptions MatchingDirectionOffer PrimFloat.zero 0 0 0)
                    (Some Scenario.onFacts) (Some Scenario.onMatches))).
    left. reflexivity.
  - apply (proj2 (C9_preconditions_before_network Scenario.World
                    Scenario.unreachable Scenario.path_Join Scenario.Values_Encode
                    Scenario.http_NewRequestWithContext Scenario.time_Format_RFC3339
                    Scenario.strconv_FormatFloat json.Unmarshal_Error
                    json.Unmarshal_Facts json.Unmarshal_Matches
                    (Scenario.client (mkResponse 200 "200 OK" (mkReader "" io_EOF)))
                    Scenario.ctx Scenario.start "p_123" (mkCursor zeroTime 5)
                    (mkOptions MatchingDirectionOffer PrimFloat.zero 0 0 0)
                    (Some Scenario.onFacts) (Some Scenario.onMatches))).
    right. right. right. reflexivity.
Defined.

(** The frame that is a lone colon and a blank line. *)
Lemma ReadEvent_lone_colon rest cl :
  ReadEvent (mkReader (wire [":"; ""] ++ rest) cl)
  = (Some zeroEvent, None, mkReader rest cl).
Proof.
  unfold ReadEvent.
  rewrite wire_cons_app, (ReadEvent_loop_line _ ":" _ _ eq_refl).
  change (ReadEvent_line initLocals (":" ++ nl))
    with (Continue (mkLocals zeroEvent "" false false true)).
  rewrite wire_cons_app, (ReadEvent_loop_line _ "" _ _ eq_refl).
  reflexivity.
Qed.

(** C10: the frame made of the line [:] and a blank line comes back from
    [ReadEvent] with empty Comment, Event and Data.  It is not comment-only
    for the drivers, whose test asks for a Comment that is not empty, so
    in both of them it reaches the empty payload check and ends the loop
    with that error: nothing is handed to the handler and what follows in
    the stream is not read. *)
Theorem C10_lone_colon_keepalive_is_fatal
    (World : Type)
    (unmarshalFacts : string -> error + FactsStreamChunk)
    (unmarshalMatches : string -> error + MatchesStreamChunk)
    (ctx : option (Context World))
    (onFacts : FactsStreamHandler World) (onMatches : MatchesStreamHandler World)
    (w : World) (rest : string) (cl : error) :
  ReadEvent (mkReader (wire [":"; ""] ++ rest) cl)
  = (Some (mkSSEEvent "" "" "" "" ""), None, mkReader rest cl)
  /\ commentOnly (mkSSEEvent "" "" "" "" "") = false
  /\ dispatch "StreamFacts" "facts" unmarshalFacts ctx onFacts w
       (mkReader (wire [":"; ""] ++ rest) cl)
     = mkRun [] w (mkReader rest cl) (Some (errEmptyPayload "StreamFacts" "facts"))
  /\ dispatch "StreamMatches" "matches" unmarshalMatches ctx onMatches w
       (mkReader (wire [":"; ""] ++ rest) cl)
     = mkRun [] w (mkReader rest cl)
         (Some (errEmptyPayload "StreamMatches" "matches")).
Proof.
  split; [apply ReadEvent_lone_colon|]. split; [reflexivity|]. split.
  - rewrite (dispatch_delivers _ _ _ _ _ _ _ _ _ _ _ (ReadEvent_lone_colon rest cl));
      reflexivity.
  - rewrite (dispatch_delivers _ _ _ _ _ _ _ _ _ _ _ (ReadEvent_lone_colon rest cl));
      reflexivity.
Qed.

(** The same through [StreamFacts]: a 200 response whose body starts with
    the lone colon frame, and then carries a good event, fails without a
    call of the handler. *)
Example StreamFacts_lone_colon :
  Scenario.StreamFacts
    (mkResponse 200 "200 OK"
       (mkReader (wire [":"; ""; "event: facts"; "data: {}"; ""]) io_EOF))
    Scenario.start "p_123" (Some Scenario.onFacts)
  = mkOutcome [Sent Scenario.factsRequest; Closed] Scenario.start
      (Some (errEmptyPayload "StreamFacts" "facts")).
Proof. reflexivity. Qed.

Example StreamMatches_lone_colon :
  returned
    (Scenario.StreamMatches
       (mkResponse 200 "200 OK"
          (mkReader (wire [":"; ""; "event: matches"; "data: {}"; ""]) io_EOF))
       Scenario.start "p_123" (mkCursor (mkTime 63800000000 0) 5)
       (mkOptions MatchingDirectionOffer PrimFloat.zero 0 0 0)
       (Some Scenario.onMatches))
  = Some (errEmptyPayload "StreamMatches" "matches").
Proof. reflexivity. Qed.

Lemma ReadEvent_ping :
  ReadEvent (mkReader pingThenFacts io_EOF)
  = (Some (mkSSEEvent "" "" "" "" "ping"), None,
     mkReader (wire ["event: facts"; "data: " ++ pingPayload; ""]) io_EOF).
Proof. reflexivity. Qed.

Lemma ReadEvent_facts_after_ping :
  ReadEvent (mkReader (wire ["event: facts"; "data: " ++ pingPayload; ""]) io_EOF)
  = (Some (mkSSEEvent "facts" pingPayload "" "" ""), None, mkReader "" io_EOF).
Proof. reflexivity. Qed.

(** C6: the server answers 2xx and sends [: ping], a blank line,
    [event: facts], [data: {"id":1,"items":[]}], a blank line, and closes.
    [json.Unmarshal] decodes the data into a chunk with no items, and the
    handler returns nil on it.  Then [StreamFacts] sends its request, hands
    that one chunk to the handler and nothing else, closes the body, and
    returns nil: the ping is skipped and the end of the stream is the
    normal end. *)
Theorem C6_ping_then_facts
    (World : Type)
    (http_DefaultClient : RoundTrip World)
    (path_Join : string -> string -> string)
    (Values_Encode : Values -> string)
    (http_NewRequestWithContext : string -> URL -> error + Request)
    (json_Unmarshal_Error : string -> string)
    (json_Unmarshal_Facts : string -> error + FactsStreamChunk)
    (c : Client World) (ctx : option (Context World)) (w w' : World)
    (resp : Response) (proID : string) (handler : FactsStreamHandler World)
    (chunk : FactsStreamChunk) :
  ctx <> None ->
  baseURL c <> None ->
  (forall method u, exists req, http_NewRequestWithContext method u = inr req) ->
  (forall req, HTTPClient http_DefaultClient c req w = inr resp) ->
  strings.TrimSpace proID <> "" ->
  notSuccess resp = false ->
  resp_Body resp = mkReader pingThenFacts io_EOF ->
  json_Unmarshal_Facts pingPayload = inr chunk ->
  FactsItemsResponse.Items chunk = [] ->
  handler w chunk = (w', None) ->
  exists req payload,
    StreamFacts http_DefaultClient path_Join Values_Encode
      http_NewRequestWithContext json_Unmarshal_Error json_Unmarshal_Facts
      c ctx w proID (Some handler)
    = mkOutcome [Sent req; Handled payload; Closed] w' None
    /\ FactsItemsResponse.Items payload = [].
Proof.
  intros Hctx Hbase Hbuild Hserve Hid Hok Hbody Hjson Hitems Hhandler.
  destruct (StreamFacts_served World http_DefaultClient path_Join Values_Encode
              http_NewRequestWithContext json_Unmarshal_Error json_Unmarshal_Facts
              c ctx w resp Hctx Hbase Hbuild Hserve proID handler Hid)
    as [req ->].
  exists req, chunk. split; [|exact Hitems]. rewrite Hok, Hbody. cbv zeta.
  rewrite (dispatch_comment_only _ _ _ _ _ _ _ _ _ _ _ ReadEvent_ping eq_refl).
  rewrite (dispatch_delivers _ _ "StreamFacts" "facts" _ _ _ _ _ _ _
             ReadEvent_facts_after_ping eq_refl eq_refl).
  unfold deliver. cbn [Data].
  replace (Z.of_nat (String.length pingPayload) =? 0) with false by reflexivity.
  rewrite Hjson, Hhandler.
  rewrite dispatch_step.
  change (ReadEvent (mkReader "" io_EOF))
    with (@None SSEEvent, Some io_EOF, mkReader "" io_EOF).
  reflexivity.
Qed.

Lemma C6_ping_then_facts_witness :
  json.Unmarshal_Facts pingPayload = inr json.zeroFacts
  /\ exists req payload,
    Scenario.StreamFacts (mkResponse 200 "200 OK" (mkReader pingThenFacts io_EOF))
      Scenario.start "p_123" (Some Scenario.onFacts)
    = mkOutcome [Sent req; Handled payload; Closed]
        (Scenario.mkWorld 1 false) None
    /\ FactsItemsResponse.Items payload = [].
Proof.
  split; [reflexivity|].
  apply (C6_ping_then_facts Scenario.World Scenario.unreachable
           Scenario.path_Join Scenario.Values_Encode
           Scenario.http_NewRequestWithContext json.Unmarshal_Error
           json.Unmarshal_Facts
           (Scenario.client (mkResponse 200 "200 OK" (mkReader pingThenFacts io_EOF)))
           Scenario.ctx Scenario.start (Scenario.mkWorld 1 false)
           (mkResponse 200 "200 OK" (mkReader pingThenFacts io_EOF))
           "p_123" Scenario.onFacts json.zeroFacts).
  - discriminate.
  - discriminate.
  - intros method u. eexists. reflexivity.
  - intros req. reflexivity.
  - discriminate.
  - reflexivity.
  - reflexivity.
  - reflexivity.
  - reflexivity.
  - reflexivity.
Defined.

(** The same run, computed. *)
Example StreamFacts_ping_then_facts :
  Scenario.StreamFacts (mkResponse 200 "200 OK" (mkReader pingThenFacts io_EOF))
    Scenario.start "p_123" (Some Scenario.onFacts)
  = mkOutcome [Sent Scenario.factsRequest; Handled json.zeroFacts; Closed]
      (Scenario.mkWorld 1 false) None.
Proof. reflexivity. Qed.

Lemma TrimSpace_empty : strings.TrimSpace "" = "".
Proof. reflexivity. Qed.

Lemma apiError_message
    (json_Unmarshal_Error : string -> string) (resp : Response) (data : string) :
  apiError json_Unmarshal_Error resp data
  = mkAPIError (resp_StatusCode resp)
      (fallbackMessage (json_Unmarshal_Error data) data (resp_Status resp)) data.
Proof.
  unfold apiError, fallbackMessage. f_equal.
  destruct (strings.isEmpty (strings.TrimSpace (json_Unmarshal_Error data))) eqn:E;
    cbn [negb andb]; [|now rewrite E].
  rewrite (isEmpty_true _ E).
  destruct data as [|d data].
  - reflexivity.
  - change (0 <? Z.of_nat (String.length (String d data))) with true.
    destruct (strings.isEmpty (strings.TrimSpace (String d data))) eqn:E2.
    + reflexivity.
    + cbn [negb]. reflexivity.
Qed.

(** A body of one space, with status 502: the message of the error is the
    status, where the rule in the words of the specification gives the
    trimmed body, the empty string. *)
Example apiError_blank_body :
  apiError json.Unmarshal_Error
    (mkResponse 502 "502 Bad Gateway" (mkReader " " io_EOF)) " "
  = mkAPIError 502 "502 Bad Gateway" " "
  /\ claimedMessage (json.Unmarshal_Error " ") " " "502 Bad Gateway" = "".
Proof. split; reflexivity. Qed.

(** C8, as stated, fails: the message is not always the one that the
    stated rule picks.  For a body that is not empty but blank the rule
    gives the trimmed body, which is empty, and the client gives the
    status. *)
Lemma C8_blank_body_gets_status :
  ~ (forall resp data,
        notSuccess resp = true ->
        Message (apiError json.Unmarshal_Error resp data)
        = claimedMessage (json.Unmarshal_Error data) data (resp_Status resp)).
Proof.
  intros H.
  specialize (H (mkResponse 502 "502 Bad Gateway" (mkReader " " io_EOF)) " " eq_refl).
  discriminate H.
Qed.

(** C8 (amended): for a response with a status outside 200..299 the client
    returns an [APIError] with the status code and the body it read, and
    with the message: the [error] member of the JSON body if it is not
    empty once trimmed; otherwise the trimmed body if that is not empty;
    otherwise [resp.Status].  [doJSON] reads the whole body (and the read
    must end with [io.EOF]); the two drivers read its first 64 KiB, send
    one request, close the body, hand nothing to the handler and never
    start the dispatch loop. *)
Theorem C8_api_error
    (World : Type)
    (http_DefaultClient : RoundTrip World)
    (path_Join : string -> string -> string)
    (Values_Encode : Values -> string)
    (http_NewRequestWithContext : string -> URL -> error + Request)
    (time_Format_RFC3339 : Time -> string)
    (strconv_FormatFloat : float -> string)
    (json_Unmarshal_Error : string -> string)
    (json_Unmarshal_Facts : string -> error + FactsStreamChunk)
    (json_Unmarshal_Matches : string -> error + MatchesStreamChunk)
    (c : Client World) (ctx : option (Context World)) (w : World)
    (resp : Response) :
  notSuccess resp = true ->
  (forall req, HTTPClient http_DefaultClient c req w = inr resp) ->
  let answer (data : string) : error :=
    ErrAPI (mkAPIError (resp_StatusCode resp)
              (fallbackMessage (json_Unmarshal_Error data) data (resp_Status resp))
              data) in
  (forall (T : Type) (json_Unmarshal : string -> error + T) req v,
      closing (resp_Body resp) = io_EOF ->
      doJSON http_DefaultClient json_Unmarshal_Error json_Unmarshal c w req v
      = (Some (answer (pending (resp_Body resp))), None))
  /\ (ctx <> None -> baseURL c <> None ->
      (forall method u, exists req, http_NewRequestWithContext method u = inr req) ->
      (forall proID handler,
          strings.TrimSpace proID <> "" ->
          exists req,
            StreamFacts http_DefaultClient path_Join Values_Encode
              http_NewRequestWithContext json_Unmarshal_Error json_Unmarshal_Facts
              c ctx w proID (Some handler)
            = mkOutcome [Sent req; Closed] w
                (Some (answer (limitBytes (pending (resp_Body resp)) 65536))))
      /\ (forall proID cursor opt handler,
          strings.TrimSpace proID <> "" ->
          opt_Direction opt <> "" ->
          0 <= cursor_ID cursor ->
          Time_IsZero (cursor_UpdatedUTC cursor) = false ->
          exists req,
            StreamMatches http_DefaultClient path_Join Values_Encode
              http_NewRequestWithContext time_Format_RFC3339 strconv_FormatFloat
              json_Unmarshal_Error json_Unmarshal_Matches
              c ctx w proID cursor opt (Some handler)
            = mkOutcome [Sent req; Closed] w
                (Some (answer (limitBytes (pending (resp_Body resp)) 65536))))).
Proof.
  intros Hbad Hserve answer. split.
  - intros T json_Unmarshal req v Heof. unfold doJSON, io_ReadAll.
    rewrite Hserve, Heof, Hbad. cbn [is_io_EOF].
    unfold answer. now rewrite apiError_message.
  - intros Hctx Hbase Hbuild. split.
    + intros proID handler Hid.
      destruct (StreamFacts_served World http_DefaultClient path_Join Values_Encode
                  http_NewRequestWithContext json_Unmarshal_Error
                  json_Unmarshal_Facts c ctx w resp Hctx Hbase Hbuild Hserve
                  proID handler Hid) as [req ->].
      exists req. rewrite Hbad. unfold answer. now rewrite apiError_message.
    + intros proID cursor opt handler Hid Hdir Hcur Hzero.
      destruct (StreamMatches_served World http_DefaultClient path_Join
                  Values_Encode http_NewRequestWithContext time_Format_RFC3339
                  strconv_FormatFloat json_Unmarshal_Error json_Unmarshal_Matches
                  c ctx w resp Hctx Hbase Hbuild Hserve
                  proID cursor opt handler Hid Hdir Hcur Hzero) as [req ->].
      exists req. rewrite Hbad. unfold answer. now rewrite apiError_message.
Qed.

Lemma C8_api_error_witness :
  json.Unmarshal_Error badRequestBody = "bad request"
  /\ exists req,
    Scenario.StreamFacts
      (mkResponse 400 "400 Bad Request" (mkReader badRequestBody io_EOF))
      Scenario.start "p_123" (Some Scenario.onFacts)
    = mkOutcome [Sent req; Closed] Scenario.start
        (Some (ErrAPI (mkAPIError 400 "bad request" badRequestBody))).
Proof.
  split; [reflexivity|].
  refine (proj1 (proj2 (C8_api_error Scenario.World Scenario.unreachable
           Scenario.path_Join Scenario.Values_Encode
           Scenario.http_NewRequestWithContext Scenario.time_Format_RFC3339
           Scenario.strconv_FormatFloat json.Unmarshal_Error
           json.Unmarshal_Facts json.Unmarshal_Matches
           (Scenario.client
              (mkResponse 400 "400 Bad Request" (mkReader badRequestBody io_EOF)))
           Scenario.ctx Scenario.start
           (mkResponse 400 "400 Bad Request" (mkReader badRequestBody io_EOF))
           eq_refl (fun _ => eq_refl)) _ _ _) "p_123" Scenario.onFacts _).
  - discriminate.
  - discriminate.
  - intros method u. eexists. reflexivity.
  - discriminate.
Defined.

(** The same answer, computed, from the three entry points. *)
Example doJSON_bad_request :
  doJSON Scenario.unreachable json.Unmarshal_Error json.Unmarshal_Facts
    (Scenario.client
       (mkResponse 400 "400 Bad Request" (mkReader badRequestBody io_EOF)))
    Scenario.start Scenario.factsRequest true
  = (Some (ErrAPI (mkAPIError 400 "bad request" badRequestBody)), None).
Proof. reflexivity. Qed.

Example StreamMatches_bad_request :
  effects
    (Scenario.StreamMatches
       (mkResponse 400 "400 Bad Request" (mkReader badRequestBody io_EOF))
       Scenario.start "p_123" (mkCursor (mkTime 63800000000 0) 5)
       (mkOptions MatchingDirectionOffer PrimFloat.zero 0 0 0)
       (Some Scenario.onMatches))
  = [Sent (mkRequest "GET"
       (mkURL "https" "api.manax.pro" "/api/matches/items/stream"
          "proId=p_123&sinceUpdatedUtc=sec:63800000000&sinceId=5&direction=Offer" "")
       [("Accept", ["text/event-stream"])]);
     Closed].
Proof. reflexivity. Qed.

(* ===================================================================== *)
(** ** The frame reader: data lines *)
(* ===================================================================== *)

Lemma TrimRight_keep c s :
  strings.inCutset crlf c = false ->
  strings.TrimRight (String c s) crlf = String c (strings.TrimRight s crlf).
Proof. intros H. cbn [strings.TrimRight]. rewrite H, andb_false_r. reflexivity. Qed.

Lemma stripSpace_split (field text : string) :
  match text with
  | String " " text' => (field, text')
  | _ => (field, text)
  end = (field, stripSpace text).
Proof.
  destruct text as [|[[] [] [] [] [] [] [] []] text]; reflexivity.
Qed.

Lemma splitField_data text :
  splitField (strings.TrimRight ("data:" ++ text) crlf) = ("data", valueOf text).
Proof.
  cbn [append]. rewrite !TrimRight_keep by reflexivity.
  unfold splitField, valueOf.
  change (strings.IndexByte (String "d" (String "a" (String "t" (String "a"
            (String ":" (strings.TrimRight text crlf)))))) ":") with 4.
  change (4 >=? 0) with true. cbv iota.
  change (Z.to_nat 4) with 4%nat. change (Z.to_nat (4 + 1)) with 5%nat.
  cbn [strings.sliceTo strings.sliceFrom].
  apply stripSpace_split.
Qed.

Lemma splitField_event text :
  splitField (strings.TrimRight ("event:" ++ text) crlf) = ("event", valueOf text).
Proof.
  cbn [append]. rewrite !TrimRight_keep by reflexivity.
  unfold splitField, valueOf.
  change (strings.IndexByte (String "e" (String "v" (String "e" (String "n"
            (String "t" (String ":" (strings.TrimRight text crlf))))))) ":") with 5.
  change (5 >=? 0) with true. cbv iota.
  change (Z.to_nat 5) with 5%nat. change (Z.to_nat (5 + 1)) with 6%nat.
  cbn [strings.sliceTo strings.sliceFrom].
  apply stripSpace_split.
Qed.

Lemma ReadEvent_line_data l text :
  ReadEvent_line l ("data:" ++ text ++ nl) = Continue (addData l text).
Proof.
  change ("data:" ++ text ++ nl) with (("data:" ++ text) ++ nl).
  rewrite ReadEvent_line_field.
  - unfold fieldName, fieldValue.
    rewrite TrimRight_nl, splitField_data. reflexivity.
  - unfold isBlank. rewrite TrimRight_nl. cbn [append].
    now rewrite TrimRight_keep by reflexivity.
  - unfold isComment. rewrite TrimRight_nl. cbn [append].
    now rewrite TrimRight_keep by reflexivity.
Qed.

Lemma ReadEvent_line_event text :
  ReadEvent_line initLocals ("event:" ++ text ++ nl)
  = Continue (mkLocals (mkSSEEvent (valueOf text) "" "" "" "") "" false true true).
Proof.
  change ("event:" ++ text ++ nl) with (("event:" ++ text) ++ nl).
  rewrite ReadEvent_line_field.
  - unfold fieldName, fieldValue.
    rewrite TrimRight_nl, splitField_event. reflexivity.
  - unfold isBlank. rewrite TrimRight_nl. cbn [append].
    now rewrite TrimRight_keep by reflexivity.
  - unfold isComment. rewrite TrimRight_nl. cbn [append].
    now rewrite TrimRight_keep by reflexivity.
Qed.

Lemma noLF_app a b : noLF a = true -> noLF b = true -> noLF (a ++ b) = true.
Proof.
  induction a as [|c a IH]; cbn [append noLF]; intros Ha Hb; [exact Hb|].
  apply andb_true_iff in Ha as [Hc Ha]. rewrite Hc, (IH Ha Hb). reflexivity.
Qed.

(** The loop over the [data:] lines of a frame. *)
Lemma ReadEvent_loop_data texts rest cl : forall l,
  Forall (fun t => noLF t = true) texts ->
  ReadEvent_loop l (mkReader (wire (map (append "data:") texts) ++ rest) cl)
  = ReadEvent_loop (fold_left addData texts l) (mkReader rest cl).
Proof.
  intros l Htexts. revert l.
  induction Htexts as [|t texts Ht _ IH]; intros l; [reflexivity|].
  cbn [map fold_left].
  rewrite wire_cons_app, ReadEvent_loop_line by (now apply noLF_app).
  rewrite append_assoc, ReadEvent_line_data. apply IH.
Qed.

Lemma fold_addData texts : forall l,
  texts <> [] ->
  fold_left addData texts l
  = mkLocals (event l) (fold_left WriteData (map valueOf texts) (dataBuf l))
      true (hasFields l) true.
Proof.
  induction texts as [|t texts IH]; intros l Hne; [congruence|].
  cbn [fold_left map]. destruct texts as [|t' texts].
  - reflexivity.
  - rewrite IH by discriminate. reflexivity.
Qed.

(** The frame [event:], [data:] lines, blank line: what [ReadEvent] returns.
    The data is what the buffer holds after the values were written to it
    in order. *)
Lemma ReadEvent_data_frame name texts rest cl :
  noLF name = true ->
  Forall (fun t => noLF t = true) texts ->
  texts <> [] ->
  ReadEvent (mkReader (wire (("event:" ++ name) :: map (append "data:") texts)
                         ++ wire [""] ++ rest) cl)
  = (Some (mkSSEEvent (valueOf name)
             (fold_left WriteData (map valueOf texts) "") "" "" ""),
     None, mkReader rest cl).
Proof.
  intros Hname Htexts Hne. unfold ReadEvent.
  rewrite wire_cons_app, ReadEvent_loop_line by (now apply noLF_app).
  rewrite append_assoc, ReadEvent_line_event.
  rewrite (ReadEvent_loop_data _ _ _ _ Htexts).
  rewrite (fold_addData _ _ Hne).
  rewrite wire_cons_app, (ReadEvent_loop_line _ "" _ _ eq_refl).
  reflexivity.
Qed.

(** Once the buffer is not empty, writing values joins them by LF. *)
Lemma WriteData_join values : forall buf,
  buf <> "" ->
  fold_left WriteData values buf = joinLF (buf :: values).
Proof.
  induction values as [|v values IH]; intros buf Hbuf; [reflexivity|].
  cbn [fold_left]. unfold WriteData at 2.
  rewrite (isEmpty_false _ Hbuf). cbn [negb].
  rewrite IH.
  - destruct values as [|v' values]; cbn [joinLF]; now rewrite !append_assoc.
  - destruct buf; [congruence|discriminate].
Qed.

(** The frame of C2 when its first value is not empty: the data is the
    values joined by LF, in order. *)
Lemma ReadEvent_data_joined name text texts rest cl :
  noLF name = true ->
  Forall (fun t => noLF t = true) (text :: texts) ->
  valueOf text <> "" ->
  ReadEvent (mkReader (wire (("event:" ++ name) :: map (append "data:") (text :: texts))
                         ++ wire [""] ++ rest) cl)
  = (Some (mkSSEEvent (valueOf name) (joinLF (map valueOf (text :: texts))) "" "" ""),
     None, mkReader rest cl).
Proof.
  intros Hname Htexts Hfirst.
  rewrite (ReadEvent_data_frame _ _ _ _ Hname Htexts) by discriminate.
  cbn [map fold_left]. change (WriteData "" (valueOf text)) with (valueOf text).
  rewrite (WriteData_join _ _ Hfirst). reflexivity.
Qed.

(** C2 fails on the code where a [data:] line with an empty value comes
    first.  For the frame [event: facts / data: / data: x / blank line]
    the values are the empty string and "x", which joined by LF are LF
    followed by "x"; [ReadEvent] returns the data "x".  The separator is
    written only when the buffer already holds bytes, so an empty first
    value leaves no trace. *)
Theorem C2_empty_first_data_line_lost :
  ReadEvent (mkReader (wire ["event: facts"; "data:"; "data: x"; ""]) io_EOF)
  = (Some (mkSSEEvent "facts" "x" "" "" ""), None, mkReader "" io_EOF)
  /\ joinLF (map valueOf [""; " x"]) = nl ++ "x"
  /\ "x" <> nl ++ "x".
Proof. repeat split. discriminate. Qed.

(* ===================================================================== *)
(** ** The frame reader: more properties *)
(* ===================================================================== *)

(** Content lines, whatever they are, move the loop on to the locals
    [afterLines]. *)
Lemma ReadEvent_loop_lines content rest cl : forall l,
  Forall (fun c => noLF c = true /\ isBlank c = false) content ->
  ReadEvent_loop l (mkReader (wire content ++ rest) cl)
  = ReadEvent_loop (afterLines l content) (mkReader rest cl).
Proof.
  intros l Hc. revert l. induction Hc as [|c content [Hlf Hcont] _ IH]; intros l.
  - reflexivity.
  - rewrite wire_cons_app, (ReadEvent_loop_line _ _ _ _ Hlf).
    destruct (ReadEvent_line_content l (c ++ nl)) as (l' & Hline & _).
    + now rewrite isBlank_nl.
    + cbn [afterLines fold_left]. rewrite Hline. cbn [control_locals]. apply IH.
Qed.

Lemma afterLines_hasLines content : forall l,
  Forall (fun c => noLF c = true /\ isBlank c = false) content ->
  content <> [] ->
  hasLines (afterLines l content) = true.
Proof.
  induction content as [|c content IH]; intros l Hc Hne; [congruence|].
  inversion Hc as [|? ? [Hlf Hcont] Hrest]; subst.
  cbn [afterLines fold_left].
  destruct (ReadEvent_line_content l (c ++ nl)) as (l' & Hline & Hl').
  - now rewrite isBlank_nl.
  - rewrite Hline. cbn [control_locals].
    destruct content as [|c' content]; [exact Hl'|].
    apply (IH l' Hrest). discriminate.
Qed.

(** Content lines and the blank line that ends them: the frame. *)
Lemma ReadEvent_frame content blank rest cl :
  Forall (fun c => noLF c = true /\ isBlank c = false) content ->
  content <> [] ->
  noLF blank = true -> isBlank blank = true ->
  ReadEvent (mkReader (wire content ++ blank ++ nl ++ rest) cl)
  = (Some (frameOf (afterLines initLocals content)), None, mkReader rest cl).
Proof.
  intros Hc Hne Hlf Hblank. unfold ReadEvent.
  rewrite (ReadEvent_loop_lines _ _ _ _ Hc), (ReadEvent_loop_line _ _ _ _ Hlf).
  rewrite ReadEvent_line_end;
    [| now rewrite isBlank_nl | now apply afterLines_hasLines].
  rewrite (afterLines_hasLines _ initLocals Hc Hne). reflexivity.
Qed.

(** X1: blank lines ahead of a frame are passed over: reading from a
    source that starts with blank lines (empty, or only CR before the LF)
    gives what reading from the source after them gives.  No empty frame
    is returned for them. *)
Theorem X1_leading_blank_lines_skipped (blanks : list string) (rest : string)
    (cl : error) :
  Forall (fun b => noLF b = true /\ isBlank b = true) blanks ->
  ReadEvent (mkReader (wire blanks ++ rest) cl) = ReadEvent (mkReader rest cl).
Proof.
  intros Hb. unfold ReadEvent.
  now rewrite (ReadEvent_loop_blanks _ _ _ initLocals Hb eq_refl).
Qed.

Lemma X1_leading_blank_lines_skipped_witness :
  ReadEvent (mkReader (wire [""; String strings.CR ""; ""] ++ wire ["data: x"; ""])
               io_EOF)
  = ReadEvent (mkReader (wire ["data: x"; ""]) io_EOF).
Proof.
  apply (X1_leading_blank_lines_skipped [""; String strings.CR ""; ""]).
  repeat constructor.
Defined.

(** X2: framing.  Content lines followed by a blank line are one frame:
    [ReadEvent] returns it without error and leaves the reader right after
    the blank line, and the frame is the same whatever follows in the
    stream and however the stream ends. *)
Theorem X2_frame_read_whole (content : list string) (blank : string) :
  Forall (fun c => noLF c = true /\ isBlank c = false) content ->
  content <> [] ->
  noLF blank = true -> isBlank blank = true ->
  exists ev, forall rest cl,
    ReadEvent (mkReader (wire content ++ blank ++ nl ++ rest) cl)
    = (Some ev, None, mkReader rest cl).
Proof.
  intros Hc Hne Hlf Hblank.
  exists (frameOf (afterLines initLocals content)). intros rest cl.
  now apply ReadEvent_frame.
Qed.

Lemma X2_frame_read_whole_witness :
  exists ev, forall rest cl,
    ReadEvent (mkReader (wire ["id: 7"; "event: facts"; "data: {}"]
                           ++ String strings.CR "" ++ nl ++ rest) cl)
    = (Some ev, None, mkReader rest cl).
Proof.
  apply (X2_frame_read_whole ["id: 7"; "event: facts"; "data: {}"]
           (String strings.CR "")).
  - repeat constructor.
  - discriminate.
  - reflexivity.
  - reflexivity.
Defined.

(** X3: the error of the source comes back unchanged.  When the source
    fails before a blank line has ended the content, with [io.EOF] or with
    any other error, [ReadEvent] returns no frame and that very error, and
    the lines read so far are dropped. *)
Theorem X3_read_error_unchanged (blanks content : list string) (partial : string)
    (cl : error) :
  Forall (fun b => noLF b = true /\ isBlank b = true) blanks ->
  Forall (fun c => noLF c = true /\ isBlank c = false) content ->
  noLF partial = true ->
  ReadEvent (mkReader (wire blanks ++ wire content ++ partial) cl)
  = (None, Some cl, mkReader "" cl).
Proof.
  intros Hb Hc Hp. unfold ReadEvent.
  rewrite (ReadEvent_loop_blanks _ _ _ initLocals Hb eq_refl).
  rewrite (ReadEvent_loop_truncated _ _ _ _ Hc Hp). reflexivity.
Qed.

Lemma X3_read_error_unchanged_witness :
  ReadEvent (mkReader (wire [""] ++ wire ["event: facts"] ++ "data: {")
               (Errorf_w "read tcp" (Foreign "connection reset by peer")))
  = (None, Some (Errorf_w "read tcp" (Foreign "connection reset by peer")),
     mkReader "" (Errorf_w "read tcp" (Foreign "connection reset by peer"))).
Proof.
  apply (X3_read_error_unchanged [""] ["event: facts"] "data: {").
  - repeat constructor.
  - repeat constructor.
  - reflexivity.
Defined.

Lemma HasPrefix_empty s : strings.HasPrefix s "" = true.
Proof. destruct s; reflexivity. Qed.

(** A comment line read before any field sets the comment. *)
Lemma ReadEvent_line_comment c b text :
  ReadEvent_line (mkLocals (mkSSEEvent "" "" "" "" c) "" false false b)
    (":" ++ text ++ nl)
  = Continue (mkLocals
                (mkSSEEvent "" "" "" ""
                   (strings.TrimSpace (strings.TrimRight text crlf)))
                "" false false true).
Proof.
  unfold ReadEvent_line. fold crlf.
  change (":" ++ text ++ nl) with ((":" ++ text) ++ nl).
  rewrite TrimRight_nl. cbn [append].
  rewrite TrimRight_keep by reflexivity.
  cbn [strings.isEmpty strings.HasPrefix]. rewrite HasPrefix_empty. reflexivity.
Qed.

Lemma ReadEvent_loop_comments rest cl : forall texts c b,
  Forall (fun t => noLF t = true) texts ->
  texts <> [] ->
  ReadEvent_loop (mkLocals (mkSSEEvent "" "" "" "" c) "" false false b)
    (mkReader (wire (map (append ":") texts) ++ rest) cl)
  = ReadEvent_loop
      (mkLocals
         (mkSSEEvent "" "" "" ""
            (strings.TrimSpace (strings.TrimRight (last texts "") crlf)))
         "" false false true)
      (mkReader rest cl).
Proof.
  induction texts as [|t texts IH]; intros c b Ht Hne; [congruence|].
  inversion Ht as [|? ? Hlf Hrest]; subst.
  cbn [map]. rewrite wire_cons_app, ReadEvent_loop_line by (now apply noLF_app).
  rewrite append_assoc, ReadEvent_line_comment.
  destruct texts as [|t' texts].
  - reflexivity.
  - rewrite IH by (auto; discriminate). reflexivity.
Qed.

Lemma ReadEvent_comments texts rest cl :
  Forall (fun t => noLF t = true) texts ->
  texts <> [] ->
  ReadEvent (mkReader (wire (map (append ":") texts) ++ nl ++ rest) cl)
  = (Some (mkSSEEvent "" "" "" ""
             (strings.TrimSpace (strings.TrimRight (last texts "") crlf))),
     None, mkReader rest cl).
Proof.
  intros Ht Hne. unfold ReadEvent, initLocals, zeroEvent.
  rewrite (ReadEvent_loop_comments _ _ _ _ _ Ht Hne).
  change (nl ++ rest) with ("" ++ nl ++ rest).
  rewrite (ReadEvent_loop_line _ "" _ _ eq_refl). reflexivity.
Qed.

(** X4: a frame made of comment lines only comes back as a comment: the
    Comment is the text of the last comment line, trimmed, and Event,
    Data, ID and Retry are empty.  The reader stands right after the
    blank line. *)
Theorem X4_comment_only_frame (texts : list string) (rest : string) (cl : error) :
  Forall (fun t => noLF t = true) texts ->
  texts <> [] ->
  ReadEvent (mkReader (wire (map (append ":") texts) ++ nl ++ rest) cl)
  = (Some (mkSSEEvent "" "" "" ""
             (strings.TrimSpace (strings.TrimRight (last texts "") crlf))),
     None, mkReader rest cl).
Proof.
  intros Ht Hne. unfold ReadEvent, initLocals, zeroEvent.
  rewrite (ReadEvent_loop_comments _ _ _ _ _ Ht Hne).
  change (nl ++ rest) with ("" ++ nl ++ rest).
  rewrite (ReadEvent_loop_line _ "" _ _ eq_refl). reflexivity.
Qed.

Lemma X4_comment_only_frame_witness :
  ReadEvent (mkReader (wire (map (append ":") [" matches-stream-start"; " idle  "])
                         ++ nl ++ "event: matches") io_EOF)
  = (Some (mkSSEEvent "" "" "" "" "idle"), None, mkReader "event: matches" io_EOF).
Proof.
  apply (X4_comment_only_frame [" matches-stream-start"; " idle  "]
           "event: matches" io_EOF).
  - repeat constructor.
  - discriminate.
Defined.

(** X5: when the value of the first [data:] line is not empty, the Data of
    the frame [event: / data: lines / blank line] is the values of the
    data lines joined by LF, in order; the Event is the value of the event
    line. *)
Theorem X5_data_lines_joined (name text : string) (texts : list string)
    (rest : string) (cl : error) :
  noLF name = true ->
  Forall (fun t => noLF t = true) (text :: texts) ->
  valueOf text <> "" ->
  ReadEvent (mkReader (wire (("event:" ++ name) :: map (append "data:") (text :: texts))
                         ++ wire [""] ++ rest) cl)
  = (Some (mkSSEEvent (valueOf name) (joinLF (map valueOf (text :: texts))) "" "" ""),
     None, mkReader rest cl).
Proof.
  intros Hname Htexts Hfirst.
  rewrite (ReadEvent_data_frame _ _ _ _ Hname Htexts) by discriminate.
  cbn [map fold_left]. change (WriteData "" (valueOf text)) with (valueOf text).
  rewrite (WriteData_join _ _ Hfirst). reflexivity.
Qed.

Lemma X5_data_lines_joined_witness :
  ReadEvent (mkReader (wire ["event: facts"; "data: line1"; "data:"; "data:  line3"; ""]
                         ++ ": ping") io_EOF)
  = (Some (mkSSEEvent "facts" ("line1" ++ nl ++ "" ++ nl ++ " line3") "" "" ""),
     None, mkReader ": ping" io_EOF).
Proof.
  apply (X5_data_lines_joined " facts" " line1" [""; "  line3"] ": ping" io_EOF).
  - reflexivity.
  - repeat constructor.
  - discriminate.
Defined.

(** What [setField] does to each of the locals. *)
Lemma setField_Event l field value :
  Event (event (setField l field value))
  = if String.eqb field "event" then value else Event (event l).
Proof.
  unfold setField.
  repeat match goal with |- context [if String.eqb field ?k then _ else _] =>
    destruct (String.eqb field k) end; reflexivity.
Qed.

Lemma setField_ID l field value :
  ID (event (setField l field value))
  = if String.eqb field "id" then value else ID (event l).
Proof.
  unfold setField.
  destruct (String.eqb field "event") eqn:E1;
    [apply String.eqb_eq in E1; subst; reflexivity|].
  destruct (String.eqb field "data") eqn:E2;
    [apply String.eqb_eq in E2; subst; reflexivity|].
  destruct (String.eqb field "id"); [reflexivity|].
  destruct (String.eqb field "retry"); reflexivity.
Qed.

Lemma setField_Retry l field value :
  Retry (event (setField l field value))
  = if String.eqb field "retry" then value else Retry (event l).
Proof.
  unfold setField.
  destruct (String.eqb field "event") eqn:E1;
    [apply String.eqb_eq in E1; subst; reflexivity|].
  destruct (String.eqb field "data") eqn:E2;
    [apply String.eqb_eq in E2; subst; reflexivity|].
  destruct (String.eqb field "id") eqn:E3;
    [apply String.eqb_eq in E3; subst; reflexivity|].
  destruct (String.eqb field "retry"); reflexivity.
Qed.

Lemma setField_Data l field value :
  Data (event (setField l field value)) = Data (event l).
Proof.
  unfold setField.
  repeat match goal with |- context [if ?b then _ else _] => destruct b end;
    reflexivity.
Qed.

Lemma setField_dataBuf l field value :
  dataBuf (setField l field value)
  = if String.eqb field "data" then WriteData (dataBuf l) value else dataBuf l.
Proof.
  unfold setField.
  destruct (String.eqb field "event") eqn:E1;
    [apply String.eqb_eq in E1; subst; reflexivity|].
  destruct (String.eqb field "data"); [reflexivity|].
  destruct (String.eqb field "id"); [reflexivity|].
  destruct (String.eqb field "retry"); reflexivity.
Qed.

Lemma setField_hasData l field value :
  hasData (setField l field value) = hasData l || String.eqb field "data".
Proof.
  unfold setField.
  destruct (String.eqb field "event") eqn:E1;
    [apply String.eqb_eq in E1; subst; simpl; now rewrite orb_false_r|].
  destruct (String.eqb field "data"); [simpl; now rewrite orb_true_r|].
  destruct (String.eqb field "id"); [simpl; now rewrite orb_false_r|].
  destruct (String.eqb field "retry"); simpl; now rewrite orb_false_r.
Qed.

(** The locals after field lines, none of them a comment. *)
Lemma afterLines_fields lines : forall l,
  Forall (fun p => noLF p = true /\ isBlank p = false /\ isComment p = false) lines ->
  let L := afterLines l lines in
  Event (event L) = lastField "event" lines (Event (event l))
  /\ ID (event L) = lastField "id" lines (ID (event l))
  /\ Retry (event L) = lastField "retry" lines (Retry (event l))
  /\ Comment (event L) = Comment (event l)
  /\ Data (event L) = Data (event l)
  /\ dataBuf L = dataOf lines (dataBuf l)
  /\ (hasData L = false -> hasData l = false /\ dataBuf L = dataBuf l).
Proof.
  induction lines as [|p lines IH]; intros l Hl.
  - cbn. repeat split; auto.
  - inversion Hl as [|? ? (Hlf & Hcont & Hnc) Hrest]; subst.
    cbn [afterLines fold_left lastField dataOf].
    rewrite ReadEvent_line_field by (now rewrite ?isBlank_nl, ?isComment_nl).
    cbn [control_locals]. rewrite fieldName_nl, fieldValue_nl.
    set (l1 := setField (setHasLines l) (fieldName p) (fieldValue p)).
    destruct (IH l1 Hrest) as (HE & HI & HR & HC & HD & HB & HN).
    fold (afterLines l1 lines).
    unfold l1 in HE, HI, HR, HC, HD, HB, HN.
    rewrite setField_Event in HE. rewrite setField_ID in HI.
    rewrite setField_Retry in HR. rewrite setField_Comment in HC.
    rewrite setField_Data in HD. rewrite setField_dataBuf in HB.
    rewrite setField_hasData, setField_dataBuf in HN.
    fold l1. do 6 (split; [assumption|]).
    intros Hno. destruct (HN Hno) as [H1 H2].
    apply orb_false_iff in H1 as [H1 H3]. rewrite H3 in H2. split; assumption.
Qed.

(** The frame after field lines. *)
Lemma frameOf_fields lines :
  Forall (fun p => noLF p = true /\ isBlank p = false /\ isComment p = false) lines ->
  frameOf (afterLines initLocals lines)
  = mkSSEEvent (lastField "event" lines "") (dataOf lines "")
      (lastField "id" lines "") (lastField "retry" lines "") "".
Proof.
  intros Hl.
  destruct (afterLines_fields lines initLocals Hl)
    as (HE & HI & HR & HC & HD & HB & HN).
  cbn [initLocals event zeroEvent Event ID Retry Comment Data dataBuf] in *.
  unfold frameOf.
  destruct (hasData (afterLines initLocals lines)) eqn:Hd.
  - now rewrite HE, HI, HR, HC, HB.
  - destruct (HN eq_refl) as [_ HB']. rewrite <- HB, HB'.
    destruct (event (afterLines initLocals lines)); cbn in *; congruence.
Qed.

Lemma fields_are_content lines :
  Forall (fun p => noLF p = true /\ isBlank p = false /\ isComment p = false) lines ->
  Forall (fun c => noLF c = true /\ isBlank c = false) lines.
Proof. intros Hl. eapply Forall_impl; [|exact Hl]. cbv beta. tauto. Qed.

(** X6: a frame of field lines (no comment line) comes back with, for
    event, id and retry, the value of the last line of that name (the last
    write wins, and the empty string when there is none), with the data
    lines written to the buffer in order, and with an empty Comment; lines
    with other field names change nothing. *)
Theorem X6_fields_last_write_wins (lines : list string) (rest : string) (cl : error) :
  Forall (fun p => noLF p = true /\ isBlank p = false /\ isComment p = false) lines ->
  lines <> [] ->
  ReadEvent (mkReader (wire lines ++ nl ++ rest) cl)
  = (Some (mkSSEEvent (lastField "event" lines "") (dataOf lines "")
             (lastField "id" lines "") (lastField "retry" lines "") ""),
     None, mkReader rest cl).
Proof.
  intros Hl Hne.
  change (nl ++ rest) with ("" ++ nl ++ rest).
  rewrite (ReadEvent_frame lines "" rest cl (fields_are_content _ Hl) Hne eq_refl eq_refl).
  now rewrite (frameOf_fields _ Hl).
Qed.

Lemma X6_fields_last_write_wins_witness :
  ReadEvent (mkReader (wire ["id: 1"; "event: a"; "foo: bar"; "id: 2"; "data: x";
                             "event: facts"; "retry"] ++ nl ++ "tail") io_EOF)
  = (Some (mkSSEEvent "facts" "x" "2" "" ""), None, mkReader "tail" io_EOF).
Proof.
  apply (X6_fields_last_write_wins
           ["id: 1"; "event: a"; "foo: bar"; "id: 2"; "data: x"; "event: facts"; "retry"]
           "tail" io_EOF).
  - repeat constructor.
  - discriminate.
Defined.

(* ===================================================================== *)
(** ** The dispatch loop: more properties *)
(* ===================================================================== *)

Lemma lastField_none name lines init :
  Forall (fun p => String.eqb (fieldName p) name = false) lines ->
  lastField name lines init = init.
Proof.
  intros H. revert init. induction H as [|p lines Hp _ IH]; intros init.
  - reflexivity.
  - cbn [lastField fold_left]. rewrite Hp. apply IH.
Qed.

Lemma dataOf_none lines buf :
  Forall (fun p => String.eqb (fieldName p) "data" = false) lines ->
  dataOf lines buf = buf.
Proof.
  intros H. revert buf. induction H as [|p lines Hp _ IH]; intros buf.
  - reflexivity.
  - cbn [dataOf fold_left]. rewrite Hp. apply IH.
Qed.

(** X7: a frame of field lines with no [event] and no [data] line (for
    instance a lone [retry: 3000] or [id: 7], or fields the reader does
    not know) is not skipped by either driver: it has no comment, no name
    and no data, so the loop ends with the empty payload error, without a
    call of the handler and without reading further. *)
Theorem X7_frame_without_event_and_data_is_fatal
    (World : Type)
    (unmarshalFacts : string -> error + FactsStreamChunk)
    (unmarshalMatches : string -> error + MatchesStreamChunk)
    (ctx : option (Context World))
    (onFacts : FactsStreamHandler World) (onMatches : MatchesStreamHandler World)
    (w : World) (lines : list string) (rest : string) (cl : error) :
  Forall (fun p => noLF p = true /\ isBlank p = false /\ isComment p = false) lines ->
  Forall (fun p => String.eqb (fieldName p) "event" = false) lines ->
  Forall (fun p => String.eqb (fieldName p) "data" = false) lines ->
  lines <> [] ->
  dispatch "StreamFacts" "facts" unmarshalFacts ctx onFacts w
    (mkReader (wire lines ++ nl ++ rest) cl)
  = mkRun [] w (mkReader rest cl) (Some (errEmptyPayload "StreamFacts" "facts"))
  /\ dispatch "StreamMatches" "matches" unmarshalMatches ctx onMatches w
    (mkReader (wire lines ++ nl ++ rest) cl)
  = mkRun [] w (mkReader rest cl)
      (Some (errEmptyPayload "StreamMatches" "matches")).
Proof.
  intros Hl He Hd Hne.
  pose proof (ReadEvent_frame lines "" rest cl (fields_are_content _ Hl) Hne
                eq_refl eq_refl) as Hread.
  rewrite (frameOf_fields _ Hl) in Hread.
  rewrite (lastField_none _ _ _ He), (dataOf_none _ _ Hd) in Hread.
  change ("" ++ nl ++ rest) with (nl ++ rest) in Hread.
  split.
  - rewrite (dispatch_delivers _ _ _ _ _ _ _ _ _ _ _ Hread); reflexivity.
  - rewrite (dispatch_delivers _ _ _ _ _ _ _ _ _ _ _ Hread); reflexivity.
Qed.

Lemma X7_frame_without_event_and_data_is_fatal_witness :
  Scenario.factsLoop Scenario.start
    (mkReader (wire ["retry: 3000"] ++ nl ++ wire ["event: facts"; "data: {}"; ""])
       io_EOF)
  = mkRun [] Scenario.start
      (mkReader (wire ["event: facts"; "data: {}"; ""]) io_EOF)
      (Some (errEmptyPayload "StreamFacts" "facts")).
Proof.
  refine (proj1 (X7_frame_without_event_and_data_is_fatal Scenario.World
                   json.Unmarshal_Facts json.Unmarshal_Matches Scenario.ctx
                   Scenario.onFacts Scenario.onMatches Scenario.start
                   ["retry: 3000"] (wire ["event: facts"; "data: {}"; ""]) io_EOF
                   _ _ _ _)).
  - repeat constructor.
  - repeat constructor.
  - repeat constructor.
  - discriminate.
Defined.

(** X8: a keepalive, a frame of comment lines whose last comment is not
    blank, is skipped by both drivers: the run from it is the run from
    what follows it, in the same world. *)
Theorem X8_keepalive_skipped
    (World : Type)
    (unmarshalFacts : string -> error + FactsStreamChunk)
    (unmarshalMatches : string -> error + MatchesStreamChunk)
    (ctx : option (Context World))
    (onFacts : FactsStreamHandler World) (onMatches : MatchesStreamHandler World)
    (w : World) (texts : list string) (rest : string) (cl : error) :
  Forall (fun t => noLF t = true) texts ->
  strings.TrimSpace (strings.TrimRight (last texts "") crlf) <> "" ->
  dispatch "StreamFacts" "facts" unmarshalFacts ctx onFacts w
    (mkReader (wire (map (append ":") texts) ++ nl ++ rest) cl)
  = dispatch "StreamFacts" "facts" unmarshalFacts ctx onFacts w (mkReader rest cl)
  /\ dispatch "StreamMatches" "matches" unmarshalMatches ctx onMatches w
    (mkReader (wire (map (append ":") texts) ++ nl ++ rest) cl)
  = dispatch "StreamMatches" "matches" unmarshalMatches ctx onMatches w
      (mkReader rest cl).
Proof.
  intros Ht Hlast.
  assert (Hne : texts <> []) by (intros ->; now apply Hlast).
  pose proof (ReadEvent_comments texts rest cl Ht Hne) as Hread.
  assert (Hc : commentOnly
                 (mkSSEEvent "" "" "" ""
                    (strings.TrimSpace (strings.TrimRight (last texts "") crlf)))
               = true).
  { unfold commentOnly. cbn [Comment Event Data].
    now rewrite (isEmpty_false _ Hlast). }
  split.
  - exact (dispatch_comment_only _ _ _ _ _ _ _ _ _ _ _ Hread Hc).
  - exact (dispatch_comment_only _ _ _ _ _ _ _ _ _ _ _ Hread Hc).
Qed.

Lemma X8_keepalive_skipped_witness :
  Scenario.matchesLoop Scenario.start
    (mkReader (wire (map (append ":") [" idle"]) ++ nl ++ wire ["event: x"]) io_EOF)
  = Scenario.matchesLoop Scenario.start (mkReader (wire ["event: x"]) io_EOF).
Proof.
  refine (proj2 (X8_keepalive_skipped Scenario.World
                   json.Unmarshal_Facts json.Unmarshal_Matches Scenario.ctx
                   Scenario.onFacts Scenario.onMatches Scenario.start
                   [" idle"] (wire ["event: x"]) io_EOF _ _)).
  - repeat constructor.
  - discriminate.
Defined.

Lemma ReadEvent_source_error blanks content partial cl :
  Forall (fun b => noLF b = true /\ isBlank b = true) blanks ->
  Forall (fun c => noLF c = true /\ isBlank c = false) content ->
  noLF partial = true ->
  ReadEvent (mkReader (wire blanks ++ wire content ++ partial) cl)
  = (None, Some cl, mkReader "" cl).
Proof.
  intros Hb Hc Hp. unfold ReadEvent.
  rewrite (ReadEvent_loop_blanks _ _ _ initLocals Hb eq_refl).
  rewrite (ReadEvent_loop_truncated _ _ _ _ Hc Hp). reflexivity.
Qed.

(** The frame [event:name / data:text / blank line]. *)
Lemma ReadEvent_event_data name text rest cl :
  noLF name = true -> noLF text = true ->
  ReadEvent (mkReader (wire [("event:" ++ name); ("data:" ++ text)]
                         ++ wire [""] ++ rest) cl)
  = (Some (mkSSEEvent (valueOf name) (valueOf text) "" "" ""), None,
     mkReader rest cl).
Proof.
  intros Hname Htext.
  exact (ReadEvent_data_frame name [text] rest cl Hname
           (Forall_cons _ Htext (Forall_nil _)) ltac:(discriminate)).
Qed.

Section DispatchStreams.

Variable World : Type.
Variable Chunk : Type.
Variable who feed : string.
Variable json_Unmarshal : string -> error + Chunk.
Variable ctx : option (Context World).
Variable handler : World -> Chunk -> World * option error.

Local Abbreviation loop := (dispatch who feed json_Unmarshal ctx handler).

(** A frame with the name of the feed and with data passes both filters. *)
Lemma dispatch_event_data name text rest cl w :
  noLF name = true -> noLF text = true ->
  valueOf name = feed ->
  loop w (mkReader (wire [("event:" ++ name); ("data:" ++ text)]
                      ++ wire [""] ++ rest) cl)
  = deliver who feed json_Unmarshal ctx handler w
      (mkSSEEvent feed (valueOf text) "" "" "") (mkReader rest cl).
Proof.
  intros Hname Htext Hfeed.
  pose proof (ReadEvent_event_data name text rest cl Hname Htext) as Hread.
  rewrite Hfeed in Hread.
  apply (dispatch_delivers _ _ _ _ _ _ _ _ _ _ _ Hread).
  - reflexivity.
  - unfold otherEvent. cbn [Event]. rewrite String.eqb_refl.
    now rewrite andb_false_r.
Qed.

(** The end of the stream. *)
Lemma dispatch_end w : loop w (mkReader "" io_EOF) = mkRun [] w (mkReader "" io_EOF) None.
Proof.
  rewrite dispatch_step.
  change (ReadEvent (mkReader "" io_EOF))
    with (@None SSEEvent, Some io_EOF, mkReader "" io_EOF).
  reflexivity.
Qed.

(** The world after the handler took the chunks of the texts in order. *)
Definition worldAfter (decoded : string -> Chunk) (w : World) (texts : list string)
  : World :=
  fold_left (fun w t => fst (handler w (decoded t))) texts w.

Lemma dispatch_frames name decoded texts : forall w,
  noLF name = true ->
  valueOf name = feed ->
  Forall (fun t => noLF t = true /\ valueOf t <> ""
                   /\ json_Unmarshal (valueOf t) = inr (decoded t)) texts ->
  (forall w chunk, snd (handler w chunk) = None) ->
  loop w (mkReader (framesOf name texts) io_EOF)
  = mkRun (map decoded texts) (worldAfter decoded w texts) (mkReader "" io_EOF) None.
Proof.
  intros w Hname Hfeed Htexts Hnil. revert w.
  induction Htexts as [|t texts (Hlf & Hdata & Hjson) _ IH]; intros w.
  - apply dispatch_end.
  - cbn [framesOf].
    rewrite (dispatch_event_data _ _ _ _ _ Hname Hlf Hfeed).
    unfold deliver. cbn [Data].
    rewrite length_zero, (isEmpty_false _ Hdata), Hjson.
    specialize (Hnil w (decoded t)).
    destruct (handler w (decoded t)) as [w' r] eqn:Hh. cbn [snd] in Hnil. subst r.
    rewrite IH. cbn [map worldAfter fold_left]. rewrite Hh. reflexivity.
Qed.

End DispatchStreams.

(** X9: order and count.  For a stream of frames that carry the name of
    the feed and data that the decoder accepts, and a handler that returns
    nil, the loop of the drivers hands the decoded chunks to the handler
    once each, in the order of the frames, threads the caller's world
    through the calls, and returns nil at the end of the stream. *)
Theorem X9_frames_dispatched_in_order
    (World Chunk : Type) (who feed : string)
    (json_Unmarshal : string -> error + Chunk) (ctx : option (Context World))
    (handler : World -> Chunk -> World * option error)
    (name : string) (decoded : string -> Chunk) (texts : list string) (w : World) :
  noLF name = true ->
  valueOf name = feed ->
  Forall (fun t => noLF t = true /\ valueOf t <> ""
                   /\ json_Unmarshal (valueOf t) = inr (decoded t)) texts ->
  (forall w chunk, snd (handler w chunk) = None) ->
  dispatch who feed json_Unmarshal ctx handler w
    (mkReader (framesOf name texts) io_EOF)
  = mkRun (map decoded texts)
      (fold_left (fun w t => fst (handler w (decoded t))) texts w)
      (mkReader "" io_EOF) None.
Proof.
  intros Hname Hfeed Htexts Hnil.
  exact (dispatch_frames World Chunk who feed json_Unmarshal ctx handler
           name decoded texts w Hname Hfeed Htexts Hnil).
Qed.

Lemma X9_frames_dispatched_in_order_witness :
  Scenario.factsLoop Scenario.start
    (mkReader (framesOf " facts"
                 [" {" ++ quoted "cursorId" ++ ":1}";
                  " {" ++ quoted "cursorId" ++ ":2}";
                  " {" ++ quoted "cursorId" ++ ":3}"]) io_EOF)
  = mkRun [FactsItemsResponse.mk "" zeroTime 1 [];
           FactsItemsResponse.mk "" zeroTime 2 [];
           FactsItemsResponse.mk "" zeroTime 3 []]
      (Scenario.mkWorld 3 false) (mkReader "" io_EOF) None.
Proof.
  apply (X9_frames_dispatched_in_order Scenario.World FactsStreamChunk
           "StreamFacts" "facts" json.Unmarshal_Facts Scenario.ctx Scenario.onFacts
           " facts"
           (fun t => match json.Unmarshal_Facts (valueOf t) with
                     | inr chunk => chunk
                     | inl _ => json.zeroFacts
                     end)
           [" {" ++ quoted "cursorId" ++ ":1}";
            " {" ++ quoted "cursorId" ++ ":2}";
            " {" ++ quoted "cursorId" ++ ":3}"]
           Scenario.start).
  - reflexivity.
  - reflexivity.
  - repeat constructor; discriminate.
  - intros w chunk. reflexivity.
Defined.

(** X10: an error of the handler ends the loop and is returned as it is,
    not wrapped.  The chunk of that frame is the only one handed over in
    the turn, the world is the one the handler left, and the reader stays
    right after the frame: what follows is not read. *)
Theorem X10_handler_error_returned_verbatim
    (World Chunk : Type) (who feed : string)
    (json_Unmarshal : string -> error + Chunk) (ctx : option (Context World))
    (handler : World -> Chunk -> World * option error)
    (name text rest : string) (cl : error) (w w' : World) (chunk : Chunk)
    (err : error) :
  noLF name = true -> noLF text = true ->
  valueOf name = feed ->
  valueOf text <> "" ->
  json_Unmarshal (valueOf text) = inr chunk ->
  handler w chunk = (w', Some err) ->
  dispatch who feed json_Unmarshal ctx handler w
    (mkReader (wire [("event:" ++ name); ("data:" ++ text)] ++ wire [""] ++ rest) cl)
  = mkRun [chunk] w' (mkReader rest cl) (Some err).
Proof.
  intros Hname Htext Hfeed Hdata Hjson Hh.
  rewrite (dispatch_event_data World Chunk who feed json_Unmarshal ctx handler
             name text rest cl w Hname Htext Hfeed).
  unfold deliver. cbn [Data].
  now rewrite length_zero, (isEmpty_false _ Hdata), Hjson, Hh.
Qed.

Lemma X10_handler_error_returned_verbatim_witness :
  dispatch "StreamFacts" "facts" json.Unmarshal_Facts Scenario.ctx
    (fun w _ => (Scenario.mkWorld 1 true, Some (errors_New "stop")))
    Scenario.start
    (mkReader (wire ["event: facts"; "data: {}"] ++ wire [""]
                 ++ wire ["event: facts"; "data: {}"; ""]) io_EOF)
  = mkRun [json.zeroFacts] (Scenario.mkWorld 1 true)
      (mkReader (wire ["event: facts"; "data: {}"; ""]) io_EOF)
      (Some (errors_New "stop")).
Proof.
  apply (X10_handler_error_returned_verbatim Scenario.World FactsStreamChunk
           "StreamFacts" "facts" json.Unmarshal_Facts Scenario.ctx
           (fun w _ => (Scenario.mkWorld 1 true, Some (errors_New "stop")))
           " facts" " {}" (wire ["event: facts"; "data: {}"; ""]) io_EOF
           Scenario.start (Scenario.mkWorld 1 true) json.zeroFacts
           (errors_New "stop")).
  - reflexivity.
  - reflexivity.
  - reflexivity.
  - discriminate.
  - reflexivity.
  - reflexivity.
Defined.

(** X11: data that the decoder refuses ends the loop: the decoder's error
    is returned wrapped with the name of the driver, the handler is not
    called, and the reader stays right after the frame. *)
Theorem X11_decode_failure_is_fatal
    (World Chunk : Type) (who feed : string)
    (json_Unmarshal : string -> error + Chunk) (ctx : option (Context World))
    (handler : World -> Chunk -> World * option error)
    (name text rest : string) (cl : error) (w : World) (err : error) :
  noLF name = true -> noLF text = true ->
  valueOf name = feed ->
  valueOf text <> "" ->
  json_Unmarshal (valueOf text) = inl err ->
  dispatch who feed json_Unmarshal ctx handler w
    (mkReader (wire [("event:" ++ name); ("data:" ++ text)] ++ wire [""] ++ rest) cl)
  = mkRun [] w (mkReader rest cl)
      (Some (Errorf_w (who ++ ": decode JSON payload") err)).
Proof.
  intros Hname Htext Hfeed Hdata Hjson.
  rewrite (dispatch_event_data World Chunk who feed json_Unmarshal ctx handler
             name text rest cl w Hname Htext Hfeed).
  unfold deliver. cbn [Data].
  now rewrite length_zero, (isEmpty_false _ Hdata), Hjson.
Qed.

Lemma X11_decode_failure_is_fatal_witness :
  Scenario.matchesLoop Scenario.start
    (mkReader (wire ["event: matches"; "data: {oops"] ++ wire [""] ++ ": idle") io_EOF)
  = mkRun [] Scenario.start (mkReader ": idle" io_EOF)
      (Some (Errorf_w "StreamMatches: decode JSON payload" json.syntaxError)).
Proof.
  apply (X11_decode_failure_is_fatal Scenario.World MatchesStreamChunk
           "StreamMatches" "matches" json.Unmarshal_Matches Scenario.ctx
           Scenario.onMatches " matches" " {oops" ": idle" io_EOF Scenario.start
           json.syntaxError).
  - reflexivity.
  - reflexivity.
  - reflexivity.
  - discriminate.
  - reflexivity.
Defined.

(** X12: the end of the stream is a normal end, also for a cancelled
    context.  When the source ends with [io.EOF], or with an error that
    wraps [io.EOF], before a blank line has ended the content, both loops
    return nil, whatever [ctx.Err()] says; the handler is not called. *)
Theorem X12_end_of_stream_returns_nil
    (World Chunk : Type) (who feed : string)
    (json_Unmarshal : string -> error + Chunk) (ctx : option (Context World))
    (handler : World -> Chunk -> World * option error)
    (blanks content : list string) (partial : string) (cl : error) (w : World) :
  Forall (fun b => noLF b = true /\ isBlank b = true) blanks ->
  Forall (fun c => noLF c = true /\ isBlank c = false) content ->
  noLF partial = true ->
  errors_Is_EOF cl = true ->
  dispatch who feed json_Unmarshal ctx handler w
    (mkReader (wire blanks ++ wire content ++ partial) cl)
  = mkRun [] w (mkReader "" cl) None.
Proof.
  intros Hb Hc Hp Heof.
  rewrite (dispatch_read_error _ _ _ _ _ _ _ _ _ _ _ _
             (ReadEvent_source_error blanks content partial cl Hb Hc Hp)).
  now rewrite Heof.
Qed.

Lemma X12_end_of_stream_returns_nil_witness :
  Scenario.factsLoop Scenario.stopped
    (mkReader (wire [""] ++ wire ["event: facts"] ++ "data: {")
       (Errorf_w "body closed" io_EOF))
  = mkRun [] Scenario.stopped (mkReader "" (Errorf_w "body closed" io_EOF)) None.
Proof.
  apply (X12_end_of_stream_returns_nil Scenario.World FactsStreamChunk
           "StreamFacts" "facts" json.Unmarshal_Facts Scenario.ctx Scenario.onFacts
           [""] ["event: facts"] "data: {" (Errorf_w "body closed" io_EOF)
           Scenario.stopped).
  - repeat constructor.
  - repeat constructor.
  - reflexivity.
  - reflexivity.
Defined.

(* ===================================================================== *)
(** ** The drivers: more properties *)
(* ===================================================================== *)

Section Unserved.

Variable World : Type.
Variable http_DefaultClient : RoundTrip World.
Variable path_Join : string -> string -> string.
Variable Values_Encode : Values -> string.
Variable http_NewRequestWithContext : string -> URL -> error + Request.
Variable time_Format_RFC3339 : Time -> string.
Variable strconv_FormatFloat : float -> string.
Variable json_Unmarshal_Error : string -> string.
Variable json_Unmarshal_Facts : string -> error + FactsStreamChunk.
Variable json_Unmarshal_Matches : string -> error + MatchesStreamChunk.

Variable c : Client World.
Variable ctx : option (Context World).
Variable w : World.
Variable failure : error.

Hypothesis Hctx : ctx <> None.
Hypothesis Hbase : baseURL c <> None.
Hypothesis Hbuild : forall method u,
  exists req, http_NewRequestWithContext method u = inr req.
Hypothesis Hfail : forall req, HTTPClient http_DefaultClient c req w = inl failure.

(** [StreamFacts] when the round trip fails. *)
Lemma StreamFacts_unserved proID handler :
  strings.TrimSpace proID <> "" ->
  exists req,
    StreamFacts http_DefaultClient path_Join Values_Encode
      http_NewRequestWithContext json_Unmarshal_Error json_Unmarshal_Facts
      c ctx w proID (Some handler)
    = mkOutcome [Sent req] w
        (Some match ctx_Err ctx w with
              | Some ctxErr => ctxErr
              | None => Errorf_w "StreamFacts: http request failed" failure
              end).
Proof.
  intros Hid. unfold StreamFacts.
  rewrite (isEmpty_false _ Hid).
  match goal with |- context [newRequest _ _ _ _ _ ?m ?e ?q] =>
    destruct (newRequest_built World path_Join Values_Encode
                http_NewRequestWithContext c ctx Hctx Hbase Hbuild m e q)
      as [req ->] end.
  rewrite Hfail. eexists. destruct (ctx_Err ctx w); reflexivity.
Qed.

(** [StreamMatches] when the round trip fails. *)
Lemma StreamMatches_unserved proID cursor opt handler :
  strings.TrimSpace proID <> "" ->
  opt_Direction opt <> "" ->
  0 <= cursor_ID cursor ->
  Time_IsZero (cursor_UpdatedUTC cursor) = false ->
  exists req,
    StreamMatches http_DefaultClient path_Join Values_Encode
      http_NewRequestWithContext time_Format_RFC3339 strconv_FormatFloat
      json_Unmarshal_Error json_Unmarshal_Matches
      c ctx w proID cursor opt (Some handler)
    = mkOutcome [Sent req] w
        (Some match ctx_Err ctx w with
              | Some ctxErr => ctxErr
              | None => Errorf_w "StreamMatches: http request failed" failure
              end).
Proof.
  intros Hid Hdir Hcur Hzero. unfold StreamMatches.
  rewrite (isEmpty_false _ Hid), (isEmpty_false _ Hdir), Hzero.
  replace (cursor_ID cursor <? 0) with false by (symmetry; apply Z.ltb_ge; lia).
  match goal with |- context [newRequest _ _ _ _ _ ?m ?e ?q] =>
    destruct (newRequest_built World path_Join Values_Encode
                http_NewRequestWithContext c ctx Hctx Hbase Hbuild m e q)
      as [req ->] end.
  rewrite Hfail. eexists. destruct (ctx_Err ctx w); reflexivity.
Qed.

End Unserved.

(** X13: when the HTTP round trip itself fails, both drivers return
    [ctx.Err()] if it is not nil and otherwise the transport error wrapped
    with "http request failed".  One request was tried; there is no body
    to close and the handler is not called. *)
Theorem X13_transport_failure
    (World : Type)
    (http_DefaultClient : RoundTrip World)
    (path_Join : string -> string -> string)
    (Values_Encode : Values -> string)
    (http_NewRequestWithContext : string -> URL -> error + Request)
    (time_Format_RFC3339 : Time -> string)
    (strconv_FormatFloat : float -> string)
    (json_Unmarshal_Error : string -> string)
    (json_Unmarshal_Facts : string -> error + FactsStreamChunk)
    (json_Unmarshal_Matches : string -> error + MatchesStreamChunk)
    (c : Client World) (ctx : option (Context World)) (w : World)
    (failure : error) (proID : string)
    (cursor : MatchesStreamCursor) (opt : MatchesStreamOptions)
    (onFacts : FactsStreamHandler World) (onMatches : MatchesStreamHandler World) :
  ctx <> None ->
  baseURL c <> None ->
  (forall method u, exists req, http_NewRequestWithContext method u = inr req) ->
  (forall req, HTTPClient http_DefaultClient c req w = inl failure) ->
  strings.TrimSpace proID <> "" ->
  (exists req,
     StreamFacts http_DefaultClient path_Join Values_Encode
       http_NewRequestWithContext json_Unmarshal_Error json_Unmarshal_Facts
       c ctx w proID (Some onFacts)
     = mkOutcome [Sent req] w
         (Some match ctx_Err ctx w with
               | Some ctxErr => ctxErr
               | None => Errorf_w "StreamFacts: http request failed" failure
               end))
  /\ (opt_Direction opt <> "" -> 0 <= cursor_ID cursor ->
      Time_IsZero (cursor_UpdatedUTC cursor) = false ->
      exists req,
        StreamMatches http_DefaultClient path_Join Values_Encode
          http_NewRequestWithContext time_Format_RFC3339 strconv_FormatFloat
          json_Unmarshal_Error json_Unmarshal_Matches
          c ctx w proID cursor opt (Some onMatches)
        = mkOutcome [Sent req] w
            (Some match ctx_Err ctx w with
                  | Some ctxErr => ctxErr
                  | None => Errorf_w "StreamMatches: http request failed" failure
                  end)).
Proof.
  intros Hctx Hbase Hbuild Hfail Hid. split.
  - now apply StreamFacts_unserved.
  - intros Hdir Hcur Hzero. now apply StreamMatches_unserved.
Qed.

Lemma X13_transport_failure_witness :
  (exists req,
     StreamFacts Scenario.unreachable Scenario.path_Join Scenario.Values_Encode
       Scenario.http_NewRequestWithContext json.Unmarshal_Error json.Unmarshal_Facts
       (mkClient (Some (mkURL "https" "api.manax.pro" "" "" "")) None "" "")
       Scenario.ctx Scenario.stopped "p_123" (Some Scenario.onFacts)
     = mkOutcome [Sent req] Scenario.stopped (Some context_Canceled))
  /\ (exists req,
     StreamMatches Scenario.unreachable Scenario.path_Join Scenario.Values_Encode
       Scenario.http_NewRequestWithContext Scenario.time_Format_RFC3339
       Scenario.strconv_FormatFloat json.Unmarshal_Error json.Unmarshal_Matches
       (mkClient (Some (mkURL "https" "api.manax.pro" "" "" "")) None "" "")
       Scenario.ctx Scenario.start "p_123" (mkCursor (mkTime 63800000000 0) 0)
       (mkOptions MatchingDirectionSeek PrimFloat.zero 0 0 0)
       (Some Scenario.onMatches)
     = mkOutcome [Sent req] Scenario.start
         (Some (Errorf_w "StreamMatches: http request failed"
                  (Foreign "dial tcp: connection refused")))).
Proof.
  split.
  - refine (proj1 (X13_transport_failure Scenario.World Scenario.unreachable
             Scenario.path_Join Scenario.Values_Encode
             Scenario.http_NewRequestWithContext Scenario.time_Format_RFC3339
             Scenario.strconv_FormatFloat json.Unmarshal_Error
             json.Unmarshal_Facts json.Unmarshal_Matches
             (mkClient (Some (mkURL "https" "api.manax.pro" "" "" "")) None "" "")
             Scenario.ctx Scenario.stopped (Foreign "dial tcp: connection refused")
             "p_123" (mkCursor (mkTime 63800000000 0) 0)
             (mkOptions MatchingDirectionSeek PrimFloat.zero 0 0 0)
             Scenario.onFacts Scenario.onMatches _ _ _ _ _)).
    + discriminate.
    + discriminate.
    + intros method u. eexists. reflexivity.
    + intros req. reflexivity.
    + discriminate.
  - refine (proj2 (X13_transport_failure Scenario.World Scenario.unreachable
             Scenario.path_Join Scenario.Values_Encode
             Scenario.http_NewRequestWithContext Scenario.time_Format_RFC3339
             Scenario.strconv_FormatFloat json.Unmarshal_Error
             json.Unmarshal_Facts json.Unmarshal_Matches
             (mkClient (Some (mkURL "https" "api.manax.pro" "" "" "")) None "" "")
             Scenario.ctx Scenario.start (Foreign "dial tcp: connection refused")
             "p_123" (mkCursor (mkTime 63800000000 0) 0)
             (mkOptions MatchingDirectionSeek PrimFloat.zero 0 0 0)
             Scenario.onFacts Scenario.onMatches _ _ _ _ _) _ _ _).
    + discriminate.
    + discriminate.
    + intros method u. eexists. reflexivity.
    + intros req. reflexivity.
    + discriminate.
    + discriminate.
    + simpl. lia.
    + reflexivity.
Defined.

(** X14: when the request cannot be made, both drivers return the error
    of [newRequest] wrapped with "create request" and send nothing: for a
    nil context the error is "ctx must not be nil", and for a client
    without base URL "client baseURL is not initialized". *)
Theorem X14_request_not_created
    (World : Type)
    (http_DefaultClient : RoundTrip World)
    (path_Join : string -> string -> string)
    (Values_Encode : Values -> string)
    (http_NewRequestWithContext : string -> URL -> error + Request)
    (time_Format_RFC3339 : Time -> string)
    (strconv_FormatFloat : float -> string)
    (json_Unmarshal_Error : string -> string)
    (json_Unmarshal_Facts : string -> error + FactsStreamChunk)
    (json_Unmarshal_Matches : string -> error + MatchesStreamChunk)
    (c : Client World) (ctx : option (Context World)) (w : World)
    (proID : string) (cursor : MatchesStreamCursor) (opt : MatchesStreamOptions)
    (onFacts : FactsStreamHandler World) (onMatches : MatchesStreamHandler World) :
  strings.TrimSpace proID <> "" ->
  opt_Direction opt <> "" ->
  0 <= cursor_ID cursor ->
  Time_IsZero (cursor_UpdatedUTC cursor) = false ->
  ctx = None \/ baseURL c = None ->
  let cause := match ctx with
               | None => errors_New "ctx must not be nil"
               | Some _ => errors_New "client baseURL is not initialized"
               end in
  StreamFacts http_DefaultClient path_Join Values_Encode
    http_NewRequestWithContext json_Unmarshal_Error json_Unmarshal_Facts
    c ctx w proID (Some onFacts)
  = mkOutcome [] w (Some (Errorf_w "StreamFacts: create request" cause))
  /\ StreamMatches http_DefaultClient path_Join Values_Encode
    http_NewRequestWithContext time_Format_RFC3339 strconv_FormatFloat
    json_Unmarshal_Error json_Unmarshal_Matches
    c ctx w proID cursor opt (Some onMatches)
  = mkOutcome [] w (Some (Errorf_w "StreamMatches: create request" cause)).
Proof.
  intros Hid Hdir Hcur Hzero Hnil cause. split.
  - unfold StreamFacts. rewrite (isEmpty_false _ Hid). unfold newRequest.
    destruct ctx as [cx|]; [|reflexivity].
    destruct Hnil as [Hnil | Hnil]; [discriminate|]. rewrite Hnil. reflexivity.
  - unfold StreamMatches.
    rewrite (isEmpty_false _ Hid), (isEmpty_false _ Hdir), Hzero.
    replace (cursor_ID cursor <? 0) with false by (symmetry; apply Z.ltb_ge; lia).
    unfold newRequest.
    destruct ctx as [cx|]; [|reflexivity].
    destruct Hnil as [Hnil | Hnil]; [discriminate|]. rewrite Hnil. reflexivity.
Qed.

Lemma X14_request_not_created_witness :
  StreamFacts Scenario.unreachable Scenario.path_Join Scenario.Values_Encode
    Scenario.http_NewRequestWithContext json.Unmarshal_Error json.Unmarshal_Facts
    (mkClient None None "" "") Scenario.ctx Scenario.start "p_123"
    (Some Scenario.onFacts)
  = mkOutcome [] Scenario.start
      (Some (Errorf_w "StreamFacts: create request"
               (errors_New "client baseURL is not initialized"))).
Proof.
  refine (proj1 (X14_request_not_created Scenario.World Scenario.unreachable
           Scenario.path_Join Scenario.Values_Encode
           Scenario.http_NewRequestWithContext Scenario.time_Format_RFC3339
           Scenario.strconv_FormatFloat json.Unmarshal_Error
           json.Unmarshal_Facts json.Unmarshal_Matches
           (mkClient None None "" "") Scenario.ctx Scenario.start "p_123"
           (mkCursor (mkTime 63800000000 0) 0)
           (mkOptions MatchingDirectionSeek PrimFloat.zero 0 0 0)
           Scenario.onFacts Scenario.onMatches _ _ _ _ _)).
  - discriminate.
  - discriminate.
  - simpl. lia.
  - reflexivity.
  - right. reflexivity.
Defined.

(** X15: [StreamMatches] refuses a negative cursor id before any network
    call: it returns an error and has sent nothing. *)
Theorem X15_negative_cursor_id_refused
    (World : Type)
    (http_DefaultClient : RoundTrip World)
    (path_Join : string -> string -> string)
    (Values_Encode : Values -> string)
    (http_NewRequestWithContext : string -> URL -> error + Request)
    (time_Format_RFC3339 : Time -> string)
    (strconv_FormatFloat : float -> string)
    (json_Unmarshal_Error : string -> string)
    (json_Unmarshal_Matches : string -> error + MatchesStreamChunk)
    (c : Client World) (ctx : option (Context World)) (w : World)
    (proID : string) (cursor : MatchesStreamCursor) (opt : MatchesStreamOptions)
    (onMatches : option (MatchesStreamHandler World)) :
  cursor_ID cursor < 0 ->
  exists err,
    StreamMatches http_DefaultClient path_Join Values_Encode
      http_NewRequestWithContext time_Format_RFC3339 strconv_FormatFloat
      json_Unmarshal_Error json_Unmarshal_Matches
      c ctx w proID cursor opt onMatches
    = mkOutcome [] w (Some err)
    /\ (strings.TrimSpace proID <> "" -> onMatches <> None ->
        opt_Direction opt <> "" ->
        err = errors_New "StreamMatches: cursor.ID must be >= 0").
Proof.
  intros Hneg. unfold StreamMatches.
  destruct (strings.isEmpty (strings.TrimSpace proID)) eqn:Eid.
  - eexists. split; [reflexivity|]. intros H. apply isEmpty_true in Eid. congruence.
  - destruct onMatches as [handler|].
    + destruct (strings.isEmpty (opt_Direction opt)) eqn:Edir.
      * eexists. split; [reflexivity|]. intros _ _ H.
        apply isEmpty_true in Edir. congruence.
      * replace (cursor_ID cursor <? 0) with true by (symmetry; apply Z.ltb_lt; lia).
        eexists. split; reflexivity.
    + eexists. split; [reflexivity|]. intros _ H. congruence.
Qed.

Lemma X15_negative_cursor_id_refused_witness :
  exists err,
    Scenario.StreamMatches (mkResponse 200 "200 OK" (mkReader "" io_EOF))
      Scenario.start "p_123" (mkCursor (mkTime 63800000000 0) (-1))
      (mkOptions MatchingDirectionOffer PrimFloat.zero 0 0 0)
      (Some Scenario.onMatches)
    = mkOutcome [] Scenario.start (Some err)
    /\ (strings.TrimSpace "p_123" <> "" -> Some Scenario.onMatches <> None ->
        opt_Direction (mkOptions MatchingDirectionOffer PrimFloat.zero 0 0 0) <> "" ->
        err = errors_New "StreamMatches: cursor.ID must be >= 0").
Proof.
  apply (X15_negative_cursor_id_refused Scenario.World Scenario.unreachable
           Scenario.path_Join Scenario.Values_Encode
           Scenario.http_NewRequestWithContext Scenario.time_Format_RFC3339
           Scenario.strconv_FormatFloat json.Unmarshal_Error json.Unmarshal_Matches
           (Scenario.client (mkResponse 200 "200 OK" (mkReader "" io_EOF)))
           Scenario.ctx Scenario.start "p_123"
           (mkCursor (mkTime 63800000000 0) (-1))
           (mkOptions MatchingDirectionOffer PrimFloat.zero 0 0 0)
           (Some Scenario.onMatches)).
  simpl. lia.
Defined.

(** The shapes the effects of a run can have, against what the transport
    answers to the request ([answer]): nothing at all; the request alone,
    when the transport failed on it; or the request, the handler's calls
    and the closing of the body, when the transport gave a response.  A
    response that is refused for its status reaches no handler. *)
Definition runShape {Chunk : Type} (answer : Request -> error + Response)
    (effects : list (Effect Chunk)) : Prop :=
  effects = []
  \/ (exists req err, answer req = inl err /\ effects = [Sent req])
  \/ (exists req resp chunks,
        answer req = inr resp
        /\ effects = Sent req :: map Handled chunks ++ [Closed]
        /\ (notSuccess resp = true -> chunks = [])).

(** X16: what a run of a driver never does.  Whatever the arguments and
    whatever the server does, [StreamFacts] and [StreamMatches] send at
    most one request and call the handler only after it.  The body is
    closed exactly when the transport gave a response to that request,
    whatever its status; it is closed once, as the last thing.  When the
    transport failed, nothing follows the request.  A nil return means that
    a request was sent, answered with a status in 200..299, and the body
    closed. *)
Theorem X16_one_request_body_closed_once
    (World : Type)
    (http_DefaultClient : RoundTrip World)
    (path_Join : string -> string -> string)
    (Values_Encode : Values -> string)
    (http_NewRequestWithContext : string -> URL -> error + Request)
    (time_Format_RFC3339 : Time -> string)
    (strconv_FormatFloat : float -> string)
    (json_Unmarshal_Error : string -> string)
    (json_Unmarshal_Facts : string -> error + FactsStreamChunk)
    (json_Unmarshal_Matches : string -> error + MatchesStreamChunk)
    (c : Client World) (ctx : option (Context World)) (w : World)
    (proID : string) (cursor : MatchesStreamCursor) (opt : MatchesStreamOptions)
    (onFacts : option (FactsStreamHandler World))
    (onMatches : option (MatchesStreamHandler World)) :
  let answer := fun req => HTTPClient http_DefaultClient c req w in
  let facts :=
    StreamFacts http_DefaultClient path_Join Values_Encode
      http_NewRequestWithContext json_Unmarshal_Error json_Unmarshal_Facts
      c ctx w proID onFacts in
  let matches :=
    StreamMatches http_DefaultClient path_Join Values_Encode
      http_NewRequestWithContext time_Format_RFC3339 strconv_FormatFloat
      json_Unmarshal_Error json_Unmarshal_Matches
      c ctx w proID cursor opt onMatches in
  runShape answer (effects facts)
  /\ runShape answer (effects matches)
  /\ (returned facts = None ->
      exists req resp chunks,
        answer req = inr resp /\ notSuccess resp = false
        /\ effects facts = Sent req :: map Handled chunks ++ [Closed])
  /\ (returned matches = None ->
      exists req resp chunks,
        answer req = inr resp /\ notSuccess resp = false
        /\ effects matches = Sent req :: map Handled chunks ++ [Closed]).
Proof.
  assert (Hf : let answer := fun req => HTTPClient http_DefaultClient c req w in
               let facts :=
                 StreamFacts http_DefaultClient path_Join Values_Encode
                   http_NewRequestWithContext json_Unmarshal_Error
                   json_Unmarshal_Facts c ctx w proID onFacts in
               runShape answer (effects facts)
               /\ (returned facts = None ->
                   exists req resp chunks,
                     answer req = inr resp /\ notSuccess resp = false
                     /\ effects facts
                        = Sent req :: map Handled chunks ++ [Closed])).
  { unfold StreamFacts, runShape.
    destruct (strings.isEmpty (strings.TrimSpace proID));
      [split; [now left|discriminate]|].
    destruct onFacts as [handler|]; [|split; [now left|discriminate]].
    destruct (newRequest _ _ _ _ _ _ _ _) as [err|req];
      [split; [now left|discriminate]|].
    cbv zeta.
    destruct (HTTPClient _ _ _ _) as [err|resp] eqn:Hsend.
    - destruct (ctx_Err ctx w);
        (split; [right; left; eexists; eexists; split; [exact Hsend|reflexivity]
                |discriminate]).
    - destruct (notSuccess resp) eqn:Hstatus.
      + destruct (io_ReadAll_Limit _ _) as [data e].
        split; [|discriminate].
        right; right. eexists; exists resp, [].
        split; [exact Hsend|]. split; [reflexivity|reflexivity].
      + split.
        * right; right. eexists; eexists; eexists.
          split; [exact Hsend|]. split; [reflexivity|].
          rewrite Hstatus. discriminate.
        * intros _. eexists; eexists; eexists.
          split; [exact Hsend|]. split; [exact Hstatus|reflexivity]. }
  assert (Hm : let answer := fun req => HTTPClient http_DefaultClient c req w in
               let matches :=
                 StreamMatches http_DefaultClient path_Join Values_Encode
                   http_NewRequestWithContext time_Format_RFC3339
                   strconv_FormatFloat json_Unmarshal_Error json_Unmarshal_Matches
                   c ctx w proID cursor opt onMatches in
               runShape answer (effects matches)
               /\ (returned matches = None ->
                   exists req resp chunks,
                     answer req = inr resp /\ notSuccess resp = false
                     /\ effects matches
                        = Sent req :: map Handled chunks ++ [Closed])).
  { unfold StreamMatches, runShape.
    destruct (strings.isEmpty (strings.TrimSpace proID));
      [split; [now left|discriminate]|].
    destruct onMatches as [handler|]; [|split; [now left|discriminate]].
    destruct (strings.isEmpty (opt_Direction opt));
      [split; [now left|discriminate]|].
    destruct (cursor_ID cursor <? 0); [split; [now left|discriminate]|].
    destruct (Time_IsZero (cursor_UpdatedUTC cursor));
      [split; [now left|discriminate]|].
    destruct (newRequest _ _ _ _ _ _ _ _) as [err|req];
      [split; [now left|discriminate]|].
    cbv zeta.
    destruct (HTTPClient _ _ _ _) as [err|resp] eqn:Hsend.
    - destruct (ctx_Err ctx w);
        (split; [right; left; eexists; eexists; split; [exact Hsend|reflexivity]
                |discriminate]).
    - destruct (notSuccess resp) eqn:Hstatus.
      + destruct (io_ReadAll_Limit _ _) as [data e].
        split; [|discriminate].
        right; right. eexists; exists resp, [].
        split; [exact Hsend|]. split; [reflexivity|reflexivity].
      + split.
        * right; right. eexists; eexists; eexists.
          split; [exact Hsend|]. split; [reflexivity|].
          rewrite Hstatus. discriminate.
        * intros _. eexists; eexists; eexists.
          split; [exact Hsend|]. split; [exact Hstatus|reflexivity]. }
  cbv zeta in *. destruct Hf as [Hf1 Hf2], Hm as [Hm1 Hm2]. auto.
Qed.

(* ===================================================================== *)
(** ** client.go: headers *)
(* ===================================================================== *)

Lemma Header_Get_Set_same h key value :
  Header_Get (Header_Set h key value) key = value.
Proof.
  induction h as [|[k vs] h IH]; cbn [Header_Set Header_Get].
  - now rewrite String.eqb_refl.
  - destruct (String.eqb k key) eqn:E; cbn [Header_Get].
    + now rewrite String.eqb_refl.
    + now rewrite E.
Qed.

Lemma Header_Get_Set_other h key value other :
  key <> other ->
  Header_Get (Header_Set h key value) other = Header_Get h other.
Proof.
  intros Hne. apply String.eqb_neq in Hne.
  induction h as [|[k vs] h IH]; cbn [Header_Set Header_Get].
  - now rewrite Hne.
  - destruct (String.eqb k key) eqn:E; cbn [Header_Get].
    + apply String.eqb_eq in E. subst k. now rewrite Hne.
    + destruct (String.eqb k other); [reflexivity|exact IH].
Qed.

(** The headers after the identity headers were merged in. *)
Definition withIdentity {World : Type} (c : Client World) (extra : Header) : Header :=
  let merged := if negb (strings.isEmpty (proID c))
                then Header_Set extra "X-Pro-Id" (proID c) else extra in
  if negb (strings.isEmpty (proToken c))
  then Header_Set merged "X-Pro-Token" (proToken c) else merged.

Lemma applyHeaders_Accept {World : Type} (c : Client World) req extra :
  Header_Get (ReqHeader (applyHeaders c req extra)) "Accept"
  = if strings.isEmpty (Header_Get extra "Accept")
    then "application/json" else Header_Get extra "Accept".
Proof.
  unfold applyHeaders. cbn [ReqHeader].
  fold (withIdentity c extra).
  assert (H : Header_Get (withIdentity c extra) "Accept" = Header_Get extra "Accept").
  { unfold withIdentity.
    destruct (negb (strings.isEmpty (proID c))),
             (negb (strings.isEmpty (proToken c)));
      rewrite ?Header_Get_Set_other by discriminate; reflexivity. }
  rewrite H.
  destruct (strings.isEmpty (Header_Get extra "Accept")).
  - apply Header_Get_Set_same.
  - exact H.
Qed.

(** X17: after [applyHeaders] a request always has an Accept header that is
    not empty: the caller's, when the caller gave one, and
    [application/json] otherwise. *)
Theorem X17_accept_header_defaulted
    (World : Type) (c : Client World) (req : Request) (extra : Header) :
  Header_Get (ReqHeader (applyHeaders c req extra)) "Accept" <> ""
  /\ (Header_Get extra "Accept" = "" ->
      Header_Get (ReqHeader (applyHeaders c req extra)) "Accept" = "application/json")
  /\ (Header_Get extra "Accept" <> "" ->
      Header_Get (ReqHeader (applyHeaders c req extra)) "Accept"
      = Header_Get extra "Accept").
Proof.
  rewrite applyHeaders_Accept. repeat split.
  - destruct (strings.isEmpty (Header_Get extra "Accept")) eqn:E.
    + discriminate.
    + intros H. rewrite H in E. discriminate.
  - intros ->. reflexivity.
  - intros H. now rewrite (isEmpty_false _ H).
Qed.

(** X18: the identity of the client wins over the caller's headers.  When
    the client has a profile id, the request carries it as X-Pro-Id
    whatever X-Pro-Id the caller passed, and likewise the token as
    X-Pro-Token; a client without them leaves the caller's values as they
    are.  Method and URL are not touched. *)
Theorem X18_identity_headers_override
    (World : Type) (c : Client World) (req : Request) (extra : Header) :
  let sent := applyHeaders c req extra in
  (proID c <> "" -> Header_Get (ReqHeader sent) "X-Pro-Id" = proID c)
  /\ (proToken c <> "" -> Header_Get (ReqHeader sent) "X-Pro-Token" = proToken c)
  /\ (proID c = "" ->
      Header_Get (ReqHeader sent) "X-Pro-Id" = Header_Get extra "X-Pro-Id")
  /\ (proToken c = "" ->
      Header_Get (ReqHeader sent) "X-Pro-Token" = Header_Get extra "X-Pro-Token")
  /\ Method sent = Method req /\ ReqURL sent = ReqURL req.
Proof.
  cbv zeta. unfold applyHeaders. cbn [ReqHeader Method ReqURL].
  repeat split.
  - intros H. rewrite (isEmpty_false _ H). cbn [negb].
    repeat match goal with |- context [if ?b then _ else _] => destruct b end;
      rewrite ?Header_Get_Set_other by discriminate; apply Header_Get_Set_same.
  - intros H. rewrite (isEmpty_false _ H). cbn [negb].
    repeat match goal with |- context [if ?b then _ else _] => destruct b end;
      rewrite ?Header_Get_Set_other by discriminate; apply Header_Get_Set_same.
  - intros ->. cbn [strings.isEmpty negb].
    repeat match goal with |- context [if ?b then _ else _] => destruct b end;
      rewrite ?Header_Get_Set_other by discriminate; reflexivity.
  - intros ->. cbn [strings.isEmpty negb].
    repeat match goal with |- context [if ?b then _ else _] => destruct b end;
      rewrite ?Header_Get_Set_other by discriminate; reflexivity.
Qed.

(** X19: [applyHeaders] keeps every other header of the caller: a key that
    is not X-Pro-Id, X-Pro-Token or Accept has after it the value it had
    in the caller's headers. *)
Theorem X19_other_headers_kept
    (World : Type) (c : Client World) (req : Request) (extra : Header)
    (key : string) :
  key <> "X-Pro-Id" -> key <> "X-Pro-Token" -> key <> "Accept" ->
  Header_Get (ReqHeader (applyHeaders c req extra)) key = Header_Get extra key.
Proof.
  intros H1 H2 H3. unfold applyHeaders. cbn [ReqHeader].
  repeat match goal with |- context [if ?b then _ else _] => destruct b end;
    rewrite ?Header_Get_Set_other by congruence; reflexivity.
Qed.

Lemma X19_other_headers_kept_witness :
  Header_Get
    (ReqHeader
       (applyHeaders (mkClient (World := unit) None None "p_1" "tok")
          (mkRequest "POST" (mkURL "https" "api.manax.pro" "/x" "" "") [])
          [("X-Manax-Key", ["admin-key"]); ("X-Pro-Id", ["other"])]))
    "X-Manax-Key"
  = "admin-key".
Proof.
  apply (X19_other_headers_kept unit (mkClient (World := unit) None None "p_1" "tok")
           (mkRequest "POST" (mkURL "https" "api.manax.pro" "/x" "" "") [])
           [("X-Manax-Key", ["admin-key"]); ("X-Pro-Id", ["other"])]
           "X-Manax-Key"); discriminate.
Defined.

Lemma Sent_not_later {Chunk : Type} (req : Request) (chunks : list Chunk) :
  ~ In (Sent req) (map Handled chunks ++ [Closed]).
Proof.
  intros H. apply in_app_or in H as [H | H].
  - apply in_map_iff in H as (x & Hx & _). discriminate.
  - destruct H as [H | []]. discriminate.
Qed.

(** X20: the request that a stream driver sends asks for an event stream:
    whatever the client and the arguments, a request among the effects of
    [StreamFacts] or [StreamMatches] has the Accept header
    [text/event-stream]. *)
Theorem X20_stream_request_accepts_event_stream
    (World : Type)
    (http_DefaultClient : RoundTrip World)
    (path_Join : string -> string -> string)
    (Values_Encode : Values -> string)
    (http_NewRequestWithContext : string -> URL -> error + Request)
    (time_Format_RFC3339 : Time -> string)
    (strconv_FormatFloat : float -> string)
    (json_Unmarshal_Error : string -> string)
    (json_Unmarshal_Facts : string -> error + FactsStreamChunk)
    (json_Unmarshal_Matches : string -> error + MatchesStreamChunk)
    (c : Client World) (ctx : option (Context World)) (w : World)
    (proID : string) (cursor : MatchesStreamCursor) (opt : MatchesStreamOptions)
    (onFacts : option (FactsStreamHandler World))
    (onMatches : option (MatchesStreamHandler World)) (req : Request) :
  In (Sent req)
     (effects (StreamFacts http_DefaultClient path_Join Values_Encode
                 http_NewRequestWithContext json_Unmarshal_Error
                 json_Unmarshal_Facts c ctx w proID onFacts))
  \/ In (Sent req)
       (effects (StreamMatches http_DefaultClient path_Join Values_Encode
                   http_NewRequestWithContext time_Format_RFC3339
                   strconv_FormatFloat json_Unmarshal_Error json_Unmarshal_Matches
                   c ctx w proID cursor opt onMatches)) ->
  Header_Get (ReqHeader req) "Accept" = "text/event-stream".
Proof.
  assert (Hsent : forall r0, Header_Get (ReqHeader
            (applyHeaders c r0 (Header_Set [] "Accept" "text/event-stream")))
            "Accept" = "text/event-stream")
    by (intros r0; rewrite applyHeaders_Accept; reflexivity).
  intros [H | H].
  - unfold StreamFacts in H.
    destruct (strings.isEmpty (strings.TrimSpace proID)); [destruct H|].
    destruct onFacts as [handler|]; [|destruct H].
    destruct (newRequest _ _ _ _ _ _ _ _) as [err|r0]; [destruct H|].
    destruct (HTTPClient _ _ _ _) as [err|resp].
    + destruct (ctx_Err ctx w); cbn [effects] in H;
        destruct H as [[= <-] | []]; apply Hsent.
    + destruct (notSuccess resp).
      * destruct (io_ReadAll_Limit _ _) as [data e]. cbn [effects] in H.
        destruct H as [[= <-] | [H | []]]; [apply Hsent|discriminate].
      * cbn [effects] in H. destruct H as [[= <-] | H]; [apply Hsent|].
        now apply Sent_not_later in H.
  - unfold StreamMatches in H.
    destruct (strings.isEmpty (strings.TrimSpace proID)); [destruct H|].
    destruct onMatches as [handler|]; [|destruct H].
    destruct (strings.isEmpty (opt_Direction opt)); [destruct H|].
    destruct (cursor_ID cursor <? 0); [destruct H|].
    destruct (Time_IsZero (cursor_UpdatedUTC cursor)); [destruct H|].
    destruct (newRequest _ _ _ _ _ _ _ _) as [err|r0]; [destruct H|].
    destruct (HTTPClient _ _ _ _) as [err|resp].
    + destruct (ctx_Err ctx w); cbn [effects] in H;
        destruct H as [[= <-] | []]; apply Hsent.
    + destruct (notSuccess resp).
      * destruct (io_ReadAll_Limit _ _) as [data e]. cbn [effects] in H.
        destruct H as [[= <-] | [H | []]]; [apply Hsent|discriminate].
      * cbn [effects] in H. destruct H as [[= <-] | H]; [apply Hsent|].
        now apply Sent_not_later in H.
Qed.

Lemma X20_stream_request_accepts_event_stream_witness :
  Header_Get (ReqHeader Scenario.factsRequest) "Accept" = "text/event-stream".
Proof.
  apply (X20_stream_request_accepts_event_stream Scenario.World
           Scenario.unreachable Scenario.path_Join Scenario.Values_Encode
           Scenario.http_NewRequestWithContext Scenario.time_Format_RFC3339
           Scenario.strconv_FormatFloat json.Unmarshal_Error
           json.Unmarshal_Facts json.Unmarshal_Matches
           (Scenario.client (mkResponse 200 "200 OK" (mkReader "" io_EOF)))
           Scenario.ctx Scenario.start "p_123"
           (mkCursor (mkTime 63800000000 0) 0)
           (mkOptions MatchingDirectionSeek PrimFloat.zero 0 0 0)
           (Some Scenario.onFacts) (Some Scenario.onMatches) Scenario.factsRequest).
  left. left. reflexivity.
Defined.

Lemma limitBytes_length s : forall n,
  0 <= n -> Z.of_nat (String.length (limitBytes s n)) <= n.
Proof.
  induction s as [|c s IH]; intros n Hn; cbn [limitBytes String.length].
  - exact Hn.
  - destruct (n <=? 0) eqn:E.
    + exact Hn.
    + apply Z.leb_gt in E. cbn [String.length].
      specialize (IH (n - 1)). lia.
Qed.

Lemma limitBytes_prefix s : forall n, exists tail, s = limitBytes s n ++ tail.
Proof.
  induction s as [|c s IH]; intros n; cbn [limitBytes].
  - exists "". reflexivity.
  - destruct (n <=? 0).
    + exists (String c s). reflexivity.
    + destruct (IH (n - 1)) as [tail Ht]. exists tail. cbn [append]. now f_equal.
Qed.

(** X21: the error body is bounded.  For a response outside 200..299 the
    [APIError] of [StreamFacts] and of [StreamMatches] carries a prefix of
    the body of at most 65536 bytes, however long the body is. *)
Theorem X21_stream_error_body_bounded
    (World : Type)
    (http_DefaultClient : RoundTrip World)
    (path_Join : string -> string -> string)
    (Values_Encode : Values -> string)
    (http_NewRequestWithContext : string -> URL -> error + Request)
    (time_Format_RFC3339 : Time -> string)
    (strconv_FormatFloat : float -> string)
    (json_Unmarshal_Error : string -> string)
    (json_Unmarshal_Facts : string -> error + FactsStreamChunk)
    (json_Unmarshal_Matches : string -> error + MatchesStreamChunk)
    (c : Client World) (ctx : option (Context World)) (w : World)
    (resp : Response) (proID : string)
    (cursor : MatchesStreamCursor) (opt : MatchesStreamOptions)
    (onFacts : FactsStreamHandler World) (onMatches : MatchesStreamHandler World) :
  ctx <> None ->
  baseURL c <> None ->
  (forall method u, exists req, http_NewRequestWithContext method u = inr req) ->
  (forall req, HTTPClient http_DefaultClient c req w = inr resp) ->
  notSuccess resp = true ->
  strings.TrimSpace proID <> "" ->
  (exists req apiErr tail,
     StreamFacts http_DefaultClient path_Join Values_Encode
       http_NewRequestWithContext json_Unmarshal_Error json_Unmarshal_Facts
       c ctx w proID (Some onFacts)
     = mkOutcome [Sent req; Closed] w (Some (ErrAPI apiErr))
     /\ Z.of_nat (String.length (Body apiErr)) <= 65536
     /\ pending (resp_Body resp) = Body apiErr ++ tail)
  /\ (opt_Direction opt <> "" -> 0 <= cursor_ID cursor ->
      Time_IsZero (cursor_UpdatedUTC cursor) = false ->
      exists req apiErr tail,
        StreamMatches http_DefaultClient path_Join Values_Encode
          http_NewRequestWithContext time_Format_RFC3339 strconv_FormatFloat
          json_Unmarshal_Error json_Unmarshal_Matches
          c ctx w proID cursor opt (Some onMatches)
        = mkOutcome [Sent req; Closed] w (Some (ErrAPI apiErr))
        /\ Z.of_nat (String.length (Body apiErr)) <= 65536
        /\ pending (resp_Body resp) = Body apiErr ++ tail).
Proof.
  intros Hctx Hbase Hbuild Hserve Hbad Hid.
  destruct (limitBytes_prefix (pending (resp_Body resp)) 65536) as [tail Htail].
  split.
  - destruct (StreamFacts_served World http_DefaultClient path_Join Values_Encode
                http_NewRequestWithContext json_Unmarshal_Error
                json_Unmarshal_Facts c ctx w resp Hctx Hbase Hbuild Hserve
                proID onFacts Hid) as [req ->].
    rewrite Hbad. eexists; eexists; exists tail. split; [reflexivity|].
    unfold apiError. cbn [Body]. split; [|exact Htail].
    apply limitBytes_length. lia.
  - intros Hdir Hcur Hzero.
    destruct (StreamMatches_served World http_DefaultClient path_Join
                Values_Encode http_NewRequestWithContext time_Format_RFC3339
                strconv_FormatFloat json_Unmarshal_Error json_Unmarshal_Matches
                c ctx w resp Hctx Hbase Hbuild Hserve
                proID cursor opt onMatches Hid Hdir Hcur Hzero) as [req ->].
    rewrite Hbad. eexists; eexists; exists tail. split; [reflexivity|].
    unfold apiError. cbn [Body]. split; [|exact Htail].
    apply limitBytes_length. lia.
Qed.

Lemma X21_stream_error_body_bounded_witness :
  exists req apiErr tail,
    Scenario.StreamFacts
      (mkResponse 503 "503 Service Unavailable" (mkReader "upstream down" io_EOF))
      Scenario.start "p_123" (Some Scenario.onFacts)
    = mkOutcome [Sent req; Closed] Scenario.start (Some (ErrAPI apiErr))
    /\ Z.of_nat (String.length (Body apiErr)) <= 65536
    /\ "upstream down" = Body apiErr ++ tail.
Proof.
  refine (proj1 (X21_stream_error_body_bounded Scenario.World Scenario.unreachable
           Scenario.path_Join Scenario.Values_Encode
           Scenario.http_NewRequestWithContext Scenario.time_Format_RFC3339
           Scenario.strconv_FormatFloat json.Unmarshal_Error
           json.Unmarshal_Facts json.Unmarshal_Matches
           (Scenario.client
              (mkResponse 503 "503 Service Unavailable"
                 (mkReader "upstream down" io_EOF)))
           Scenario.ctx Scenario.start
           (mkResponse 503 "503 Service Unavailable" (mkReader "upstream down" io_EOF))
           "p_123" (mkCursor (mkTime 63800000000 0) 0)
           (mkOptions MatchingDirectionSeek PrimFloat.zero 0 0 0)
           Scenario.onFacts Scenario.onMatches _ _ _ _ _ _)).
  - discriminate.
  - discriminate.
  - intros method u. eexists. reflexivity.
  - intros req. reflexivity.
  - reflexivity.
  - discriminate.
Defined.

(* ===================================================================== *)
(** ** client.go: doJSON and the API error *)
(* ===================================================================== *)

(** X22: [doJSON] reads the body before it looks at the status.  When the
    round trip fails the error is wrapped with "http request failed"; when
    the body cannot be read to its end the error of the read is returned
    wrapped with "read response body", for every status: a response
    outside 200..299 whose body breaks gives no [APIError]. *)
Theorem X22_doJSON_fails_before_status
    (World T : Type)
    (http_DefaultClient : RoundTrip World)
    (json_Unmarshal_Error : string -> string)
    (json_Unmarshal : string -> error + T)
    (c : Client World) (w : World) (req : Request) (v : bool) :
  (forall failure,
      HTTPClient http_DefaultClient c req w = inl failure ->
      doJSON http_DefaultClient json_Unmarshal_Error json_Unmarshal c w req v
      = (Some (Errorf_w "http request failed" failure), None))
  /\ (forall resp,
      HTTPClient http_DefaultClient c req w = inr resp ->
      closing (resp_Body resp) <> io_EOF ->
      doJSON http_DefaultClient json_Unmarshal_Error json_Unmarshal c w req v
      = (Some (Errorf_w "read response body" (closing (resp_Body resp))), None)).
Proof.
  split.
  - intros failure H. unfold doJSON. now rewrite H.
  - intros resp H Hcl. unfold doJSON, io_ReadAll. rewrite H.
    destruct (closing (resp_Body resp)); try reflexivity. congruence.
Qed.

(** [doJSON] on a response in 200..299 whose body was read to its
    end.  With a nil target or an empty body it returns nil and decodes
    nothing, whatever the body is; otherwise the decoder decides: its
    value is the result, and its error is returned wrapped with "decode
    JSON response". *)
Theorem doJSON_on_success
    (World T : Type)
    (http_DefaultClient : RoundTrip World)
    (json_Unmarshal_Error : string -> string)
    (json_Unmarshal : string -> error + T)
    (c : Client World) (w : World) (req : Request) (v : bool)
    (resp : Response) :
  HTTPClient http_DefaultClient c req w = inr resp ->
  closing (resp_Body resp) = io_EOF ->
  notSuccess resp = false ->
  doJSON http_DefaultClient json_Unmarshal_Error json_Unmarshal c w req v
  = if negb v || strings.isEmpty (pending (resp_Body resp)) then (None, None)
    else match json_Unmarshal (pending (resp_Body resp)) with
         | inl err => (Some (Errorf_w "decode JSON response" err), None)
         | inr x => (None, Some x)
         end.
Proof.
  intros H Heof Hok. unfold doJSON, io_ReadAll.
  rewrite H, Heof, Hok. cbn [is_io_EOF]. now rewrite length_zero.
Qed.

Lemma doJSON_on_success_witness :
  doJSON Scenario.unreachable json.Unmarshal_Error json.Unmarshal_Facts
    (Scenario.client (mkResponse 204 "204 No Content" (mkReader "" io_EOF)))
    Scenario.start Scenario.factsRequest true
  = (None, None).
Proof.
  apply (doJSON_on_success Scenario.World FactsStreamChunk Scenario.unreachable
           json.Unmarshal_Error json.Unmarshal_Facts
           (Scenario.client (mkResponse 204 "204 No Content" (mkReader "" io_EOF)))
           Scenario.start Scenario.factsRequest true
           (mkResponse 204 "204 No Content" (mkReader "" io_EOF)));
    reflexivity.
Defined.

(** X23: the message of an [APIError] is never empty when the response
    has a status text: whatever the body and whatever the decoder finds in
    it, [Message] is not the empty string; status code and body are those
    of the response. *)
Theorem X23_api_error_message_not_empty
    (json_Unmarshal_Error : string -> string) (resp : Response) (data : string) :
  resp_Status resp <> "" ->
  Message (apiError json_Unmarshal_Error resp data) <> ""
  /\ StatusCode (apiError json_Unmarshal_Error resp data) = resp_StatusCode resp
  /\ Body (apiError json_Unmarshal_Error resp data) = data.
Proof.
  intros Hstatus. rewrite apiError_message. cbn [Message StatusCode Body].
  split; [|split; reflexivity].
  unfold fallbackMessage.
  destruct (strings.isEmpty (strings.TrimSpace (json_Unmarshal_Error data))) eqn:E1;
    cbn [negb].
  - destruct (strings.isEmpty (strings.TrimSpace data)) eqn:E2; cbn [negb].
    + exact Hstatus.
    + intros H. rewrite H in E2. discriminate.
  - intros H. rewrite H in E1. discriminate.
Qed.

Lemma X23_api_error_message_not_empty_witness :
  Message (apiError json.Unmarshal_Error
             (mkResponse 500 "500 Internal Server Error" (mkReader "" io_EOF))
             ("{" ++ quoted "error" ++ ":" ++ quoted "   " ++ "}"))
  <> "".
Proof.
  apply (X23_api_error_message_not_empty json.Unmarshal_Error
           (mkResponse 500 "500 Internal Server Error" (mkReader "" io_EOF))
           ("{" ++ quoted "error" ++ ":" ++ quoted "   " ++ "}")).
  discriminate.
Defined.

(* ===================================================================== *)
(** ** client.go: the constructor, the identity, the calls *)
(* ===================================================================== *)

(** X24: what [NewClient] returns.  A client comes back only for a base
    URL that is not blank and that parses with a scheme and a host; its
    base URL has that scheme, host and path and neither query nor
    fragment, its HTTP client is the one given, and it has no identity
    yet. *)
Theorem X24_NewClient_result
    (World : Type) (url_Parse : string -> error + URL)
    (strconv_Quote : string -> string)
    (baseURL : string) (httpClient : option (RoundTrip World)) (c : Client World) :
  NewClient url_Parse strconv_Quote baseURL httpClient = inr c ->
  strings.TrimSpace baseURL <> ""
  /\ exists parsed,
      url_Parse (strings.TrimSpace baseURL) = inr parsed
      /\ Scheme parsed <> "" /\ Host parsed <> ""
      /\ c = mkClient (Some (mkURL (Scheme parsed) (Host parsed) (Path parsed) "" ""))
               httpClient "" "".
Proof.
  unfold NewClient.
  destruct (strings.isEmpty (strings.TrimSpace baseURL)) eqn:E; [discriminate|].
  destruct (url_Parse (strings.TrimSpace baseURL)) as [err|u]; [discriminate|].
  destruct (strings.isEmpty (Scheme u)) eqn:Es; [discriminate|].
  destruct (strings.isEmpty (Host u)) eqn:Eh; [discriminate|].
  cbn [orb]. intros [= <-]. split.
  - intros H. rewrite H in E. discriminate.
  - exists u. repeat split.
    + intros H. rewrite H in Es. discriminate.
    + intros H. rewrite H in Eh. discriminate.
Qed.

Lemma X24_NewClient_result_witness :
  NewClient (World := unit)
    (fun _ => inr (mkURL "https" "manax.pro" "/api" "debug=1" "top"))
    quoted "  https://manax.pro/api?debug=1#top " None
  = inr (mkClient (Some (mkURL "https" "manax.pro" "/api" "" "")) None "" "")
  /\ strings.TrimSpace "  https://manax.pro/api?debug=1#top " <> "".
Proof.
  split; [reflexivity|].
  apply (X24_NewClient_result unit
           (fun _ => inr (mkURL "https" "manax.pro" "/api" "debug=1" "top"))
           quoted "  https://manax.pro/api?debug=1#top " None
           (mkClient (Some (mkURL "https" "manax.pro" "/api" "" "")) None "" "")).
  reflexivity.
Defined.

(** X25: [NewClient] refuses a blank base URL without parsing it, a base
    URL that does not parse with the error of the parser wrapped, and one
    that parses without scheme or without host. *)
Theorem X25_NewClient_refusals
    (World : Type) (url_Parse : string -> error + URL)
    (strconv_Quote : string -> string)
    (baseURL : string) (httpClient : option (RoundTrip World)) :
  (strings.TrimSpace baseURL = "" ->
   NewClient url_Parse strconv_Quote baseURL httpClient
   = inl (errors_New "baseURL must not be empty"))
  /\ (forall err,
      strings.TrimSpace baseURL <> "" ->
      url_Parse (strings.TrimSpace baseURL) = inl err ->
      NewClient url_Parse strconv_Quote baseURL httpClient
      = inl (Errorf_w ("invalid baseURL " ++ strconv_Quote (strings.TrimSpace baseURL))
               err))
  /\ (forall u,
      strings.TrimSpace baseURL <> "" ->
      url_Parse (strings.TrimSpace baseURL) = inr u ->
      Scheme u = "" \/ Host u = "" ->
      exists err, NewClient url_Parse strconv_Quote baseURL httpClient = inl err).
Proof.
  unfold NewClient. repeat split.
  - intros ->. reflexivity.
  - intros err Hne Hp. now rewrite (isEmpty_false _ Hne), Hp.
  - intros u Hne Hp Hmiss. rewrite (isEmpty_false _ Hne), Hp.
    destruct Hmiss as [-> | ->]; cbn [strings.isEmpty orb].
    + eexists; reflexivity.
    + rewrite orb_true_r. eexists; reflexivity.
Qed.

(** X26: [SetAuth] and [applyHeaders] together.  After [SetAuth] the
    requests of the client carry the trimmed profile id as X-Pro-Id and the
    trimmed token as X-Pro-Token, over whatever the caller passes for these
    keys; a blank id or token is not sent, and then the caller's value
    stays.  Base URL and HTTP client are as before. *)
Theorem X26_SetAuth_then_headers
    (World : Type) (c : Client World) (id token : string)
    (req : Request) (extra : Header) :
  let c' := SetAuth c id token in
  let sent := ReqHeader (applyHeaders c' req extra) in
  (strings.TrimSpace id <> "" ->
   Header_Get sent "X-Pro-Id" = strings.TrimSpace id)
  /\ (strings.TrimSpace token <> "" ->
      Header_Get sent "X-Pro-Token" = strings.TrimSpace token)
  /\ (strings.TrimSpace id = "" ->
      Header_Get sent "X-Pro-Id" = Header_Get extra "X-Pro-Id")
  /\ (strings.TrimSpace token = "" ->
      Header_Get sent "X-Pro-Token" = Header_Get extra "X-Pro-Token")
  /\ baseURL c' = baseURL c /\ httpClient c' = httpClient c.
Proof.
  cbv zeta. unfold SetAuth, applyHeaders.
  cbn [ReqHeader proID proToken baseURL httpClient].
  repeat split.
  - intros H. rewrite (isEmpty_false _ H). cbn [negb].
    repeat match goal with |- context [if ?b then _ else _] => destruct b end;
      rewrite ?Header_Get_Set_other by discriminate; apply Header_Get_Set_same.
  - intros H. rewrite (isEmpty_false _ H). cbn [negb].
    repeat match goal with |- context [if ?b then _ else _] => destruct b end;
      rewrite ?Header_Get_Set_other by discriminate; apply Header_Get_Set_same.
  - intros ->. cbn [strings.isEmpty negb].
    repeat match goal with |- context [if ?b then _ else _] => destruct b end;
      rewrite ?Header_Get_Set_other by discriminate; reflexivity.
  - intros ->. cbn [strings.isEmpty negb].
    repeat match goal with |- context [if ?b then _ else _] => destruct b end;
      rewrite ?Header_Get_Set_other by discriminate; reflexivity.
Qed.

Section Calls.

Variable World : Type.
Variable http_DefaultClient : RoundTrip World.
Variable path_Join : string -> string -> string.
Variable Values_Encode : Values -> string.
Variable http_NewRequestWithContext : string -> URL -> error + Request.
Variable time_Format_RFC3339 : Time -> string.
Variable strconv_FormatFloat : float -> string.
Variable json_Unmarshal_Error : string -> string.

Variable json_Create : string -> error + CreateProWalletResponse.t.
Variable json_Verify : string -> error + VerifyProWalletResponse.t.
Variable json_Speech : string -> error + SpeechStatusResponse.t.
Variable json_FactsItems : string -> error + FactsItemsResponse.t.
Variable json_FactsUpdates : string -> error + FactsUpdatesResponse.t.
Variable json_MatchesItems : string -> error + MatchesItemsResponse.t.
Variable json_MatchesUpdates : string -> error + MatchesUpdatesResponse.t.

Variable c : Client World.
Variable ctx : option (Context World).
Variable w : World.

Local Abbreviation createProWallet :=
  (CreateProWallet http_DefaultClient path_Join Values_Encode
     http_NewRequestWithContext json_Unmarshal_Error json_Create c ctx w).
Local Abbreviation verifyProWallet :=
  (VerifyProWallet http_DefaultClient path_Join Values_Encode
     http_NewRequestWithContext json_Unmarshal_Error json_Verify c ctx w).
Local Abbreviation getSpeechStatusByID :=
  (GetSpeechStatusByID http_DefaultClient path_Join Values_Encode
     http_NewRequestWithContext json_Unmarshal_Error json_Speech c ctx w).
Local Abbreviation getSpeechStatusByKey :=
  (GetSpeechStatusByKey http_DefaultClient path_Join Values_Encode
     http_NewRequestWithContext json_Unmarshal_Error json_Speech c ctx w).
Local Abbreviation getFactsSnapshot :=
  (GetFactsSnapshot http_DefaultClient path_Join Values_Encode
     http_NewRequestWithContext json_Unmarshal_Error json_FactsItems c ctx w).
Local Abbreviation getFactsUpdates :=
  (GetFactsUpdates http_DefaultClient path_Join Values_Encode
     http_NewRequestWithContext time_Format_RFC3339 json_Unmarshal_Error
     json_FactsUpdates c ctx w).
Local Abbreviation getMatchesSnapshot :=
  (GetMatchesSnapshot http_DefaultClient path_Join Values_Encode
     http_NewRequestWithContext strconv_FormatFloat json_Unmarshal_Error
     json_MatchesItems c ctx w).
Local Abbreviation getMatchesUpdates :=
  (GetMatchesUpdates http_DefaultClient path_Join Values_Encode
     http_NewRequestWithContext time_Format_RFC3339 strconv_FormatFloat
     json_Unmarshal_Error json_MatchesUpdates c ctx w).

(** X27: the calls check their arguments first.  With a blank profile id
    (a blank token for [VerifyProWallet], a blank session for
    [GetSpeechStatusByKey]), an id that is not positive, a negative chunk
    index or cursor id, or an empty direction for [GetMatchesSnapshot],
    the call returns an error made by [errors.New], for every client,
    context and server: nothing of the answer of the network is in it. *)
Theorem X27_calls_check_arguments_first
    (proID token sessionID : string) (id chunkIndex sinceID limit : Z)
    (minLen maxLen : Z) (since : Time) (direction : MatchingDirection)
    (minScore : float) :
  (strings.TrimSpace proID = "" \/ strings.TrimSpace token = "" ->
   exists msg, verifyProWallet proID token = inl (errors_New msg))
  /\ (id <= 0 ->
      getSpeechStatusByID id
      = inl (errors_New "GetSpeechStatusByID: id must be > 0"))
  /\ (strings.TrimSpace sessionID = "" \/ chunkIndex < 0 ->
      exists msg,
        getSpeechStatusByKey proID sessionID chunkIndex = inl (errors_New msg))
  /\ (strings.TrimSpace proID = "" ->
      getFactsSnapshot proID limit
      = inl (errors_New "GetFactsSnapshot: proID must not be empty"))
  /\ (strings.TrimSpace proID = "" \/ sinceID < 0 ->
      exists msg,
        getFactsUpdates proID since sinceID limit = inl (errors_New msg))
  /\ (strings.TrimSpace proID = "" \/ direction = "" ->
      exists msg,
        getMatchesSnapshot proID direction minScore limit minLen maxLen
        = inl (errors_New msg))
  /\ (strings.TrimSpace proID = "" \/ sinceID < 0 ->
      exists msg,
        getMatchesUpdates proID direction since sinceID minScore limit minLen maxLen
        = inl (errors_New msg)).
Proof.
  repeat split.
  - intros H. unfold VerifyProWallet.
    destruct (strings.isEmpty (strings.TrimSpace proID)) eqn:E1;
      [eexists; reflexivity|].
    destruct H as [H | H]; [rewrite H in E1; discriminate|].
    rewrite H. eexists; reflexivity.
  - intros H. unfold GetSpeechStatusByID.
    replace (id <=? 0) with true by (symmetry; apply Z.leb_le; lia). reflexivity.
  - intros H. unfold GetSpeechStatusByKey.
    destruct (strings.isEmpty (strings.TrimSpace sessionID)) eqn:E1;
      [eexists; reflexivity|].
    destruct H as [H | H]; [rewrite H in E1; discriminate|].
    replace (chunkIndex <? 0) with true by (symmetry; apply Z.ltb_lt; lia).
    eexists; reflexivity.
  - intros H. unfold GetFactsSnapshot. rewrite H. reflexivity.
  - intros H. unfold GetFactsUpdates.
    destruct (strings.isEmpty (strings.TrimSpace proID)) eqn:E1;
      [eexists; reflexivity|].
    destruct H as [H | H]; [rewrite H in E1; discriminate|].
    replace (sinceID <? 0) with true by (symmetry; apply Z.ltb_lt; lia).
    eexists; reflexivity.
  - intros H. unfold GetMatchesSnapshot.
    destruct (strings.isEmpty (strings.TrimSpace proID)) eqn:E1;
      [eexists; reflexivity|].
    destruct H as [H | H]; [rewrite H in E1; discriminate|].
    rewrite H. eexists; reflexivity.
  - intros H. unfold GetMatchesUpdates.
    destruct (strings.isEmpty (strings.TrimSpace proID)) eqn:E1;
      [eexists; reflexivity|].
    destruct H as [H | H]; [rewrite H in E1; discriminate|].
    replace (sinceID <? 0) with true by (symmetry; apply Z.ltb_lt; lia).
    eexists; reflexivity.
Qed.

(** How a call answers from a response whose body was read to its end. *)
Definition answerFrom {T : Type} (zero : T) (json_Unmarshal : string -> error + T)
    (resp : Response) : error + T :=
  if notSuccess resp then
    inl (ErrAPI (apiError json_Unmarshal_Error resp (pending (resp_Body resp))))
  else if strings.isEmpty (pending (resp_Body resp)) then inr zero
  else match json_Unmarshal (pending (resp_Body resp)) with
       | inl err => inl (Errorf_w "decode JSON response" err)
       | inr out => inr out
       end.

Lemma answer_doJSON (T : Type) (zero : T) (json_Unmarshal : string -> error + T)
    (resp : Response) (req : Request) :
  HTTPClient http_DefaultClient c req w = inr resp ->
  closing (resp_Body resp) = io_EOF ->
  answer zero (doJSON http_DefaultClient json_Unmarshal_Error json_Unmarshal
                 c w req true)
  = answerFrom zero json_Unmarshal resp.
Proof.
  intros H Heof. unfold doJSON, io_ReadAll, answerFrom.
  rewrite H, Heof. cbn [is_io_EOF negb orb].
  destruct (notSuccess resp); [reflexivity|].
  rewrite length_zero.
  destruct (strings.isEmpty (pending (resp_Body resp))); [reflexivity|].
  destruct (json_Unmarshal (pending (resp_Body resp))); reflexivity.
Qed.

Ltac call_answers Hctx Hbase Hbuild Hserve Heof :=
  match goal with |- context [newRequest _ _ _ _ _ ?m ?e ?q] =>
    destruct (newRequest_built World path_Join Values_Encode
                http_NewRequestWithContext c ctx Hctx Hbase Hbuild m e q)
      as [req ->] end;
  cbv zeta; apply answer_doJSON; [apply Hserve | exact Heof].

(** X28: every call answers by one rule.  Once its arguments pass and its
    request is built, a call whose response body is read to its end
    returns: for a status outside 200..299 the [APIError], as it is and not
    wrapped, so that the caller can take it apart; for an empty body in
    200..299 the zero value of its result and no error; otherwise what the
    decoder makes of the body, its error wrapped with "decode JSON
    response". *)
Theorem X28_calls_answer_by_one_rule
    (resp : Response)
    (manaxKey proID token sessionID : string) (id chunkIndex sinceID limit : Z)
    (minLen maxLen : Z) (since : Time) (direction : MatchingDirection)
    (minScore : float) :
  ctx <> None ->
  baseURL c <> None ->
  (forall method u, exists req, http_NewRequestWithContext method u = inr req) ->
  (forall req, HTTPClient http_DefaultClient c req w = inr resp) ->
  closing (resp_Body resp) = io_EOF ->
  createProWallet manaxKey
  = answerFrom CreateProWalletResponse.zero json_Create resp
  /\ (strings.TrimSpace proID <> "" -> strings.TrimSpace token <> "" ->
      verifyProWallet proID token
      = answerFrom VerifyProWalletResponse.zero json_Verify resp)
  /\ (0 < id ->
      getSpeechStatusByID id = answerFrom SpeechStatusResponse.zero json_Speech resp)
  /\ (strings.TrimSpace sessionID <> "" -> 0 <= chunkIndex ->
      getSpeechStatusByKey proID sessionID chunkIndex
      = answerFrom SpeechStatusResponse.zero json_Speech resp)
  /\ (strings.TrimSpace proID <> "" ->
      getFactsSnapshot proID limit
      = answerFrom zeroFactsItemsResponse json_FactsItems resp)
  /\ (strings.TrimSpace proID <> "" -> 0 <= sinceID ->
      getFactsUpdates proID since sinceID limit
      = answerFrom FactsUpdatesResponse.zero json_FactsUpdates resp)
  /\ (strings.TrimSpace proID <> "" -> direction <> "" ->
      getMatchesSnapshot proID direction minScore limit minLen maxLen
      = answerFrom MatchesItemsResponse.zero json_MatchesItems resp)
  /\ (strings.TrimSpace proID <> "" -> 0 <= sinceID ->
      getMatchesUpdates proID direction since sinceID minScore limit minLen maxLen
      = answerFrom zeroMatchesUpdatesResponse json_MatchesUpdates resp).
Proof.
  intros Hctx Hbase Hbuild Hserve Heof. repeat split.
  - unfold CreateProWallet.
    call_answers Hctx Hbase Hbuild Hserve Heof.
  - intros H1 H2. unfold VerifyProWallet.
    rewrite (isEmpty_false _ H1), (isEmpty_false _ H2).
    call_answers Hctx Hbase Hbuild Hserve Heof.
  - intros H1. unfold GetSpeechStatusByID.
    replace (id <=? 0) with false by (symmetry; apply Z.leb_gt; lia).
    call_answers Hctx Hbase Hbuild Hserve Heof.
  - intros H1 H2. unfold GetSpeechStatusByKey. rewrite (isEmpty_false _ H1).
    replace (chunkIndex <? 0) with false by (symmetry; apply Z.ltb_ge; lia).
    call_answers Hctx Hbase Hbuild Hserve Heof.
  - intros H1. unfold GetFactsSnapshot. rewrite (isEmpty_false _ H1).
    call_answers Hctx Hbase Hbuild Hserve Heof.
  - intros H1 H2. unfold GetFactsUpdates. rewrite (isEmpty_false _ H1).
    replace (sinceID <? 0) with false by (symmetry; apply Z.ltb_ge; lia).
    call_answers Hctx Hbase Hbuild Hserve Heof.
  - intros H1 H2. unfold GetMatchesSnapshot.
    rewrite (isEmpty_false _ H1), (isEmpty_false _ H2).
    call_answers Hctx Hbase Hbuild Hserve Heof.
  - intros H1 H2. unfold GetMatchesUpdates. rewrite (isEmpty_false _ H1).
    replace (sinceID <? 0) with false by (symmetry; apply Z.ltb_ge; lia).
    call_answers Hctx Hbase Hbuild Hserve Heof.
Qed.

End Calls.

(** The body of a refusal, for the scenarios. *)
Definition noProfileBody : string :=
  "{" ++ quoted "error" ++ ":" ++ quoted "no such profile" ++ "}".

Lemma X28_calls_answer_by_one_rule_witness :
  GetFactsSnapshot Scenario.unreachable Scenario.path_Join Scenario.Values_Encode
    Scenario.http_NewRequestWithContext json.Unmarshal_Error json.Unmarshal_Facts
    (Scenario.client (mkResponse 404 "404 Not Found" (mkReader noProfileBody io_EOF)))
    Scenario.ctx Scenario.start "p_123" 10
  = inl (ErrAPI (mkAPIError 404 "no such profile" noProfileBody)).
Proof.
  pose proof (X28_calls_answer_by_one_rule Scenario.World Scenario.unreachable
                Scenario.path_Join Scenario.Values_Encode
                Scenario.http_NewRequestWithContext Scenario.time_Format_RFC3339
                Scenario.strconv_FormatFloat json.Unmarshal_Error
                (fun _ => inl json.notRead) (fun _ => inl json.notRead)
                (fun _ => inl json.notRead) json.Unmarshal_Facts
                (fun _ => inl json.notRead) (fun _ => inl json.notRead)
                json.Unmarshal_Matches
                (Scenario.client
                   (mkResponse 404 "404 Not Found" (mkReader noProfileBody io_EOF)))
                Scenario.ctx Scenario.start
                (mkResponse 404 "404 Not Found" (mkReader noProfileBody io_EOF))
                "" "p_123" "tok" "s1" 1 0 0 10 0 0 zeroTime MatchingDirectionOffer
                PrimFloat.zero) as H.
  destruct H as (_ & _ & _ & _ & H & _).
  - discriminate.
  - discriminate.
  - intros method u. eexists. reflexivity.
  - intros req. reflexivity.
  - reflexivity.
  - apply H. discriminate.
Defined.

(** The same call on an empty 200 response: the zero value, no error. *)
Example GetFactsSnapshot_empty_body :
  GetFactsSnapshot Scenario.unreachable Scenario.path_Join Scenario.Values_Encode
    Scenario.http_NewRequestWithContext json.Unmarshal_Error json.Unmarshal_Facts
    (Scenario.client (mkResponse 200 "200 OK" (mkReader "" io_EOF)))
    Scenario.ctx Scenario.start "p_123" 10
  = inr zeroFactsItemsResponse.
Proof. reflexivity. Qed.

(* ===================================================================== *)
(** ** The frame reader: what a read consumes *)
(* ===================================================================== *)

Lemma cutLine_split s line rest :
  cutLine s = Some (line, rest) -> s = line ++ rest.
Proof.
  revert line rest. induction s as [|ch s IH]; intros line rest; cbn [cutLine].
  - discriminate.
  - destruct (Ascii.eqb ch strings.LF).
    + intros [= <- <-]. reflexivity.
    + destruct (cutLine s) as [[l r]|]; [|discriminate].
      intros [= <- <-]. cbn [append]. f_equal. now apply IH.
Qed.

Lemma ReadString_consumes sr line e sr' :
  ReadString sr = (line, e, sr') ->
  closing sr' = closing sr /\ pending sr = line ++ pending sr'.
Proof.
  unfold ReadString.
  destruct (cutLine (pending sr)) as [[l r]|] eqn:E.
  - intros [= <- _ <-]. split; [reflexivity|]. now apply cutLine_split.
  - intros [= <- _ <-]. split; [reflexivity|]. cbn [pending].
    now rewrite append_empty_r.
Qed.

Lemma ReadEvent_loop_consumes sr : forall l x sr',
  ReadEvent_loop l sr = (x, sr') ->
  closing sr' = closing sr
  /\ exists consumed, pending sr = consumed ++ pending sr'.
Proof.
  remember (String.length (pending sr)) as n eqn:Hn.
  revert sr Hn. induction n as [n IH] using lt_wf_ind. intros sr Hn l x sr'.
  rewrite ReadEvent_loop_step.
  destruct (ReadString sr) as [[raw [err|]] sr1] eqn:Hread; simpl.
  - destruct (ReadString_consumes _ _ _ _ Hread) as [Hc Hp].
    intros H.
    assert (sr' = sr1) as ->.
    { destruct (is_io_EOF err && negb (hasLines l)); [congruence|].
      destruct (is_io_EOF err); congruence. }
    split; [exact Hc|]. exists raw. exact Hp.
  - destruct (ReadString_consumes _ _ _ _ Hread) as [Hc Hp].
    apply ReadString_shorter in Hread.
    destruct (ReadEvent_line l raw) as [l1|l1].
    + intros H.
      destruct (IH (String.length (pending sr1)) ltac:(lia) sr1 eq_refl _ _ _ H)
        as [Hc1 [consumed Hp1]].
      split; [congruence|].
      exists (raw ++ consumed). now rewrite Hp, Hp1, append_assoc.
    + intros [= _ <-]. split; [exact Hc|]. exists raw. exact Hp.
Qed.

(** X29: what a read does to the source.  [ReadEvent] returns a frame or
    an error, never both and never neither.  It consumes bytes from the
    front of the source only: what is left is a suffix of what was there,
    the error the source will end with is untouched, and a returned frame
    has consumed at least one byte. *)
Theorem X29_read_consumes_a_prefix
    (sr : sseReader) (frame : option SSEEvent) (err : option error)
    (sr' : sseReader) :
  ReadEvent sr = (frame, err, sr') ->
  (frame = None <-> err <> None)
  /\ closing sr' = closing sr
  /\ (exists consumed, pending sr = consumed ++ pending sr')
  /\ (frame <> None ->
      (String.length (pending sr') < String.length (pending sr))%nat).
Proof.
  intros H.
  assert (Hone : frame = None <-> err <> None).
  { unfold ReadEvent in H.
    destruct (ReadEvent_loop initLocals sr) as [[l|e] sr1].
    - destruct (negb (hasLines l)); injection H as <- <- _;
        split; congruence.
    - injection H as <- <- _. split; congruence. }
  split; [exact Hone|].
  assert (Hloop : exists x, ReadEvent_loop initLocals sr = (x, sr')).
  { unfold ReadEvent in H.
    destruct (ReadEvent_loop initLocals sr) as [[l|e] sr1].
    - destruct (negb (hasLines l)); injection H as _ _ <-; eexists; reflexivity.
    - injection H as _ _ <-. eexists; reflexivity. }
  destruct Hloop as [x Hloop].
  destruct (ReadEvent_loop_consumes _ _ _ _ Hloop) as [Hc Hp].
  split; [exact Hc|]. split; [exact Hp|].
  intros Hframe.
  destruct err as [e|].
  - exfalso. apply Hframe. apply Hone. discriminate.
  - exact (ReadEvent_shorter _ H).
Qed.

Lemma X29_read_consumes_a_prefix_witness :
  (Some (mkSSEEvent "" "x" "" "" "") = None <-> @None error <> None)
  /\ closing (mkReader "tail" (Foreign "reset")) = Foreign "reset"
  /\ (exists consumed,
        wire ["data: x"; ""] ++ "tail" = consumed ++ "tail")
  /\ (Some (mkSSEEvent "" "x" "" "" "") <> None ->
      (String.length "tail" < String.length (wire ["data: x"; ""] ++ "tail"))%nat).
Proof.
  apply (X29_read_consumes_a_prefix
           (mkReader (wire ["data: x"; ""] ++ "tail") (Foreign "reset"))
           (Some (mkSSEEvent "" "x" "" "" "")) None
           (mkReader "tail" (Foreign "reset"))).
  reflexivity.
Defined.
